(** * schrddl: the DDL operation table, the appliers and the order oracle

    A shallow embedding of [ddl/ddl_ops.go].  Go pointers are addresses
    into typed stores kept next to the test case, so that two holders of
    one object (a table's column list and an index's column list, a task
    and the sorted batch) observe each other's writes.  A Go [panic] is
    an outcome of its own, distinct from a returned [error]. *)

From stdpp Require Import base gmap strings list fin_maps pretty sorting.
From Stdlib Require Import ZArith Lia Sorting.Sorted Sorting.Permutation.

Local Open Scope Z_scope.

(** ** The Go run-time the code relies on *)

Module Go.

(** Ways in which a Go statement aborts the goroutine instead of
    returning.  [Unallocated] (an address missing from the store) cannot
    happen in Go, where reachable objects are never freed; it only makes
    the store lookups total. *)
Inductive panic : Type :=
| NilDereference
| IndexOutOfRange
| InvalidCast
| InvalidArgument
| Unallocated.

(** Outcome of running a piece of code: it returns, it panics, or it
    waits for ever on a channel nobody writes to. *)
Inductive run (A : Type) : Type :=
| Ret (a : A)
| Panic (p : panic)
| Blocked.

Arguments Ret {A} a.
Arguments Panic {A} p.
Arguments Blocked {A}.

Definition bind {A B : Type} (m : run A) (f : A -> run B) : run B :=
  match m with
  | Ret a => f a
  | Panic p => Panic p
  | Blocked => Blocked
  end.

(** [int] is 64 bits wide on the platforms the tool is built for. *)
Definition min_int : Z := - 2 ^ 63.
Definition max_int : Z := 2 ^ 63 - 1.

Definition in_range (n : Z) : bool := (min_int <=? n) && (n <=? max_int).

(** Two's complement wrap-around of [int] arithmetic. *)
Definition wrap (n : Z) : Z := (n + 2 ^ 63) mod 2 ^ 64 - 2 ^ 63.

Definition add (a b : Z) : Z := wrap (a + b).
Definition sub (a b : Z) : Z := wrap (a - b).

(** [len] of a slice, as an [int]. *)
Definition len {A : Type} (l : list A) : Z := Z.of_nat (length l).

(** [s[i]]: indexing a slice panics outside [0, len). *)
Definition index {A : Type} (l : list A) (i : Z) : run A :=
  if (0 <=? i) && (i <? len l) then
    match l !! Z.to_nat i with
    | Some x => Ret x
    | None => Panic IndexOutOfRange
    end
  else Panic IndexOutOfRange.

(** [append(s[:i], s[i+1:]...)]: both slice expressions panic outside
    their bounds, that is unless [0 <= i < len s]. *)
Definition removeAt {A : Type} (l : list A) (i : Z) : run (list A) :=
  if (0 <=? i) && (i <? len l) then Ret (take (Z.to_nat i) l ++ drop (S (Z.to_nat i)) l)
  else Panic IndexOutOfRange.

(** [rand.Intn(n)] on the raw draw [r]: panics when [n <= 0]. *)
Definition Intn (r n : Z) : run Z :=
  if 0 <? n then Ret (r mod n) else Panic InvalidArgument.

(** [strconv.Atoi]: an optional sign, then one or more decimal digits,
    the value within [int]; [None] stands for its [*NumError]. *)
Definition digit (a : Ascii.ascii) : option Z :=
  let n := Z.of_N (Ascii.N_of_ascii a) in
  if (48 <=? n) && (n <=? 57) then Some (n - 48) else None.

Fixpoint digits (acc : Z) (s : string) : option Z :=
  match s with
  | EmptyString => Some acc
  | String a rest =>
      match digit a with
      | Some d => digits (10 * acc + d) rest
      | None => None
      end
  end.

Definition unsigned (neg : bool) (body : string) : option Z :=
  match body with
  | EmptyString => None
  | _ =>
      match digits 0 body with
      | Some n =>
          let v := if neg then - n else n in
          if in_range v then Some v else None
      | None => None
      end
  end.

Definition Atoi (s : string) : option Z :=
  match s with
  | EmptyString => None
  | String a rest =>
      let code := Z.of_N (Ascii.N_of_ascii a) in
      if code =? 45 then unsigned true rest        (* '-' *)
      else if code =? 43 then unsigned false rest  (* '+' *)
      else unsigned false s
  end.

(** [sort.Sort] with [Less] comparing the keys [key]: on the short
    batches the dispatcher sorts, the library runs this insertion sort
    (an element moves left while it is strictly less than its left
    neighbour). *)
Fixpoint insertSorted {A : Type} (key : A -> Z) (x : A) (l : list A) : list A :=
  match l with
  | [] => [x]
  | y :: l' => if key x <? key y then x :: y :: l' else y :: insertSorted key x l'
  end.

Definition Sort {A : Type} (key : A -> Z) (l : list A) : list A :=
  foldl (fun acc x => insertSorted key x acc) [] l.

End Go.

Export Go(run, Ret, Panic, Blocked, panic, NilDereference, IndexOutOfRange,
          InvalidCast, InvalidArgument, Unallocated).

#[global] Instance run_ret : MRet run := @Go.Ret.
#[global] Instance run_bind : MBind run := fun A B f m => Go.bind m f.

(** ** github.com/emirpasic/gods/lists/arraylist *)

Module arraylist.

Definition Size {A : Type} (l : list A) : Z := Go.len l.

Definition withinRange {A : Type} (l : list A) (i : Z) : bool :=
  (0 <=? i) && (i <? Size l).

(** [Get] returns [(nil, false)] outside the list. *)
Definition Get {A : Type} (l : list A) (i : Z) : option A :=
  if withinRange l i then l !! Z.to_nat i else None.

Definition Add {A : Type} (l : list A) (x : A) : list A := l ++ [x].

(** [Remove] does nothing outside the list. *)
Definition Remove {A : Type} (l : list A) (i : Z) : list A :=
  if withinRange l i then take (Z.to_nat i) l ++ drop (S (Z.to_nat i)) l else l.

(** [Insert] shifts the element at [i] and its successors to the right;
    [i = Size] appends; any other position outside the list does
    nothing. *)
Definition Insert {A : Type} (l : list A) (i : Z) (x : A) : list A :=
  if withinRange l i then take (Z.to_nat i) l ++ x :: drop (Z.to_nat i) l
  else if i =? Size l then Add l x
  else l.

End arraylist.

(** ** Kinds of DDL and the three kind tables *)

(** [DDLKind] and its [iota] constants, in declaration order. *)
Inductive DDLKind : Type :=
| ddlAddTable
| ddlAddIndex
| ddlAddColumn
| ddlCreateSchema
| ddlCreateView
| ddlDropTable
| ddlDropIndex
| ddlDropColumn
| ddlDropSchema
| ddlRenameTable
| ddlRenameIndex
| ddlTruncateTable
| ddlShardRowID
| ddlRebaseAutoID
| ddlSetDefaultValue
| ddlModifyColumn
| ddlModifyTableComment
| ddlModifyTableCharsetAndCollate
| ddlKindNil.

#[global] Instance DDLKind_eq_dec : EqDecision DDLKind.
Proof. solve_decision. Defined.

Definition kindEq (a b : DDLKind) : bool := bool_decide (a = b).

Definition mapOfDDLKind : gmap string DDLKind :=
  list_to_map
    [ ("create schema", ddlCreateSchema);
      ("create table", ddlAddTable);
      ("add index", ddlAddIndex);
      ("add column", ddlAddColumn);
      ("drop schema", ddlDropSchema);
      ("drop table", ddlDropTable);
      ("drop index", ddlDropIndex);
      ("drop column", ddlDropColumn);
      ("create view", ddlCreateView);
      ("rename table", ddlRenameTable);
      ("rename index", ddlRenameIndex);
      ("truncate table", ddlTruncateTable);
      ("shard row ID", ddlShardRowID);
      ("rebase auto_increment ID", ddlRebaseAutoID);
      ("set default value", ddlSetDefaultValue);
      ("modify table comment", ddlModifyTableComment);
      ("modify table charset and collate", ddlModifyTableCharsetAndCollate);
      ("modify column", ddlModifyColumn) ].

(** A key missing from a Go map reads as the zero value, here [""]. *)
Definition mapOfDDLKindToString (k : DDLKind) : string :=
  match k with
  | ddlCreateSchema => "create schema"
  | ddlAddTable => "create table"
  | ddlAddIndex => "add index"
  | ddlAddColumn => "add column"
  | ddlDropSchema => "drop schema"
  | ddlDropTable => "drop table"
  | ddlDropIndex => "drop index"
  | ddlDropColumn => "drop column"
  | ddlCreateView => "create view"
  | ddlRenameTable => "rename table"
  | ddlRenameIndex => "rename index"
  | ddlTruncateTable => "truncate table"
  | ddlShardRowID => "shard row ID"
  | ddlRebaseAutoID => "rebase auto_increment ID"
  | ddlSetDefaultValue => "set default value"
  | ddlModifyTableComment => "modify table comment"
  | ddlModifyTableCharsetAndCollate => "modify table charset and collate"
  | ddlModifyColumn => "modify column"
  | ddlKindNil => ""
  end.


(** ** Errors *)

(** A Go [error] value: [fmt.Errorf] keeps its format and its
    arguments apart, so that what a message carries stays readable;
    [LibError] is an error made by a library ([database/sql], the server
    behind it, [strconv]). *)
Inductive error : Type :=
| Errorf (format : string) (args : list fmtArg)
| LibError (origin msg : string)
with fmtArg : Type :=
| FStr (s : string)
| FInt (n : Z)
| FErr (e : option error)
| FRow (row : list string).

(** ** The catalog *)

(** Addresses; [option ptr] is a Go pointer, [None] being [nil]. *)
Abbreviation ptr := nat.

(** A column value ([interface{}] in the source), kept opaque. *)
Abbreviation value := string.

(** Modelled from the spec: the declaration of [ddlTestColumn] is not
    part of this file; the fields are those the operations below read
    and write, with the [deleted] tombstone of the data model. *)
Record ddlTestColumn : Type := mkColumn {
  col_name : string;
  isPrimaryKey : bool;
  defaultValue : value;
  rows : list value;
  indexReferences : Z;
  dependency : option ptr;
  dependenciedCols : list ptr;
  col_deleted : bool
}.

(** Modelled from the spec: [ddlTestIndex], declared elsewhere. *)
Record ddlTestIndex : Type := mkIndex {
  idx_name : string;
  signature : string;
  idx_columns : list ptr
}.

(** Modelled from the spec: [ddlTestTable], declared elsewhere; the
    literal in [prepareAddTable] gives its fields.  The lock is left
    out: the embedding is sequential.  The column list holds pointers
    that may be [nil]: [modifyColumnJob] stores the pointer of its
    argument without reading through it. *)
Record ddlTestTable : Type := mkTable {
  tbl_name : string;
  tbl_id : string;
  columns : list (option ptr);
  indexes : list ptr;
  numberOfRows : Z;
  deleted : Z;
  comment : string;
  charset : string;
  collate : string;
  shardRowId : Z;
  autoIncID : Z
}.

(** Modelled from the spec: [ddlTestSchema], declared elsewhere. *)
Record ddlTestSchema : Type := mkSchema {
  sch_name : string;
  sch_deleted : bool;
  sch_charset : string;
  sch_collate : string;
  sch_id : string
}.

(** Modelled from the spec: [ddlTestView], declared elsewhere. *)
Record ddlTestView : Type := mkView {
  view_name : string;
  view_columns : list ptr;
  view_table : option ptr;
  view_id : string
}.

Record ddlJob : Type := mkJob {
  id : Z;
  schemaName : string;
  tableName : string;
  k : DDLKind;
  jobState : string;
  tableID : string;
  schemaID : string
}.

Record ddlModifyTableCharsetAndCollateJob : Type := mkCharsetArg {
  newCharset : string;
  newCollate : string
}.

Record ddlIndexJobArg : Type := mkIndexArg {
  index : option ptr
}.

Record ddlRenameIndexArg : Type := mkRenameIndexArg {
  preIndex : Z;
  newIndex : string
}.

Definition ddlTestAddDropColumnStrategyBegin : Z := 0.
Definition ddlTestAddDropColumnStrategyAtBeginning : Z := 1.
Definition ddlTestAddDropColumnStrategyAtEnd : Z := 2.
Definition ddlTestAddDropColumnStrategyAtRandom : Z := 3.
Definition ddlTestAddDropColumnStrategyEnd : Z := 4.

Record ddlColumnJobArg : Type := mkColumnArg {
  origColumnIndex : Z;
  origColumn : option ptr;
  column : option ptr;
  strategy : Z;
  insertAfterColumn : option ptr
}.

Record ddlSetDefaultValueArg : Type := mkSetDefaultArg {
  columnIndex : Z;
  sdv_column : option ptr;
  newDefaultValue : value
}.

(** [ddlJobArg] is an [unsafe.Pointer] that every applier casts to the
    type its preparer stored; the variant records which one that was. *)
Inductive ddlJobArg : Type :=
| ArgNil
| ArgTable (newTbl : ptr)
| ArgString (s : string)
| ArgCharset (a : ddlModifyTableCharsetAndCollateJob)
| ArgInt (n : Z)
| ArgIndex (a : ddlIndexJobArg)
| ArgRenameIndex (a : ddlRenameIndexArg)
| ArgColumn (a : ddlColumnJobArg)
| ArgSetDefault (a : ddlSetDefaultValueArg).

Record ddlJobTask : Type := mkTask {
  ddlID : Z;
  task_k : DDLKind;
  tblInfo : option ptr;
  schemaInfo : option ptr;
  viewInfo : option ptr;
  sql : string;
  arg : ddlJobArg;
  err : option error
}.

(** The preparers, by name: what [ddlTestOpExecutor] holds as its
    function value. *)
Inductive preparer : Type :=
| prepareCreateSchema_fn
| prepareDropSchema_fn
| prepareAddTable_fn
| prepareRenameTable_fn
| prepareTruncateTable_fn
| prepareModifyTableComment_fn
| prepareModifyTableCharsetAndCollate_fn
| prepareShardRowID_fn
| prepareRebaseAutoID_fn
| prepareDropTable_fn
| prepareCreateView_fn
| prepareAddIndex_fn
| prepareRenameIndex_fn
| prepareDropIndex_fn
| prepareAddColumn_fn
| prepareModifyColumn_fn
| prepareDropColumn_fn
| prepareSetDefaultValue_fn.

(** Modelled from the spec: [ddlTestOpExecutor], declared elsewhere; its
    three positional fields are the preparer, a configuration that every
    registration leaves [nil], and the kind. *)
Record ddlTestOpExecutor : Type := mkExecutor {
  executeFunc : preparer;
  config : option unit;
  ddlKind : DDLKind
}.

(** What a connection answers: [Exec] to a statement, [Query] to
    [admin show ddl jobs] (the rows already turned into strings, or the
    error met while reading them) and to the auto-increment lookup. *)
Inductive queryResult : Type :=
| QueryError (e : error)
| Rows (actualRows : list (list string)).

Record DB : Type := mkDB {
  Exec : string -> option error;
  QueryDDLJobs : queryResult;
  QueryAutoIncrement : string -> option Z
}.

(** The test case, together with the objects its pointers lead to.
    Modelled from the spec: the declaration of [testCase] is elsewhere;
    the fields are those the operations below use. *)
Record testCase : Type := mkTestCase {
  hColumns : gmap nat ddlTestColumn;
  hIndexes : gmap nat ddlTestIndex;
  hTables : gmap nat ddlTestTable;
  hSchemas : gmap nat ddlTestSchema;
  hViews : gmap nat ddlTestView;
  hTasks : gmap nat ddlJobTask;
  tables : gmap string nat;
  schemas : gmap string nat;
  views : gmap string nat;
  dbs : list DB;
  lastDDLID : Z;
  initDB : string;
  ddlOps : list ddlTestOpExecutor
}.

Definition set_hColumns (v : gmap nat ddlTestColumn) (c : testCase) : testCase :=
  mkTestCase v (hIndexes c) (hTables c) (hSchemas c) (hViews c) (hTasks c)
    (tables c) (schemas c) (views c) (dbs c) (lastDDLID c) (initDB c) (ddlOps c).
Definition set_hIndexes (v : gmap nat ddlTestIndex) (c : testCase) : testCase :=
  mkTestCase (hColumns c) v (hTables c) (hSchemas c) (hViews c) (hTasks c)
    (tables c) (schemas c) (views c) (dbs c) (lastDDLID c) (initDB c) (ddlOps c).
Definition set_hTables (v : gmap nat ddlTestTable) (c : testCase) : testCase :=
  mkTestCase (hColumns c) (hIndexes c) v (hSchemas c) (hViews c) (hTasks c)
    (tables c) (schemas c) (views c) (dbs c) (lastDDLID c) (initDB c) (ddlOps c).
Definition set_hSchemas (v : gmap nat ddlTestSchema) (c : testCase) : testCase :=
  mkTestCase (hColumns c) (hIndexes c) (hTables c) v (hViews c) (hTasks c)
    (tables c) (schemas c) (views c) (dbs c) (lastDDLID c) (initDB c) (ddlOps c).
Definition set_hViews (v : gmap nat ddlTestView) (c : testCase) : testCase :=
  mkTestCase (hColumns c) (hIndexes c) (hTables c) (hSchemas c) v (hTasks c)
    (tables c) (schemas c) (views c) (dbs c) (lastDDLID c) (initDB c) (ddlOps c).
Definition set_hTasks (v : gmap nat ddlJobTask) (c : testCase) : testCase :=
  mkTestCase (hColumns c) (hIndexes c) (hTables c) (hSchemas c) (hViews c) v
    (tables c) (schemas c) (views c) (dbs c) (lastDDLID c) (initDB c) (ddlOps c).
Definition set_tables (v : gmap string nat) (c : testCase) : testCase :=
  mkTestCase (hColumns c) (hIndexes c) (hTables c) (hSchemas c) (hViews c) (hTasks c)
    v (schemas c) (views c) (dbs c) (lastDDLID c) (initDB c) (ddlOps c).
Definition set_schemas (v : gmap string nat) (c : testCase) : testCase :=
  mkTestCase (hColumns c) (hIndexes c) (hTables c) (hSchemas c) (hViews c) (hTasks c)
    (tables c) v (views c) (dbs c) (lastDDLID c) (initDB c) (ddlOps c).
Definition set_views (v : gmap string nat) (c : testCase) : testCase :=
  mkTestCase (hColumns c) (hIndexes c) (hTables c) (hSchemas c) (hViews c) (hTasks c)
    (tables c) (schemas c) v (dbs c) (lastDDLID c) (initDB c) (ddlOps c).
Definition set_lastDDLID (v : Z) (c : testCase) : testCase :=
  mkTestCase (hColumns c) (hIndexes c) (hTables c) (hSchemas c) (hViews c) (hTasks c)
    (tables c) (schemas c) (views c) (dbs c) v (initDB c) (ddlOps c).
Definition set_ddlOps (v : list ddlTestOpExecutor) (c : testCase) : testCase :=
  mkTestCase (hColumns c) (hIndexes c) (hTables c) (hSchemas c) (hViews c) (hTasks c)
    (tables c) (schemas c) (views c) (dbs c) (lastDDLID c) (initDB c) v.

(** [*p]: reading through a pointer; the address comes back with the
    object, for the writes that follow. *)
Definition deref {A : Type} (h : gmap nat A) (p : option ptr) : run (ptr * A) :=
  match p with
  | None => Panic NilDereference
  | Some a =>
      match h !! a with
      | Some x => Ret (a, x)
      | None => Panic Unallocated
      end
  end.

(** A method called on a pointer faults when the pointer is [nil]. *)
Definition nonNil (p : option ptr) : run ptr :=
  match p with
  | Some a => Ret a
  | None => Panic NilDereference
  end.

(** A [for] loop over a slice whose body may panic. *)
Fixpoint forEach {A S : Type} (body : S -> A -> run S) (s : S) (l : list A) : run S :=
  match l with
  | [] => Ret s
  | a :: l' => s' ← body s a; forEach body s' l'
  end.

(** The search loops of the appliers: the position of the first object
    of [l] that satisfies [p], counted from [i], or [dflt]. *)
Fixpoint findFirst {A : Type} (h : gmap nat A) (p : A -> bool) (l : list ptr)
    (i dflt : Z) : run Z :=
  match l with
  | [] => Ret dflt
  | a :: l' =>
      '(_, x) ← deref h (Some a);
      if p x then Ret i else findFirst h p l' (i + 1) dflt
  end.

(** The same search over a column list, whose elements may be [nil]:
    reading the name of a [nil] column faults. *)
Fixpoint findFirstColumn {A : Type} (h : gmap nat A) (p : A -> bool) (l : list (option ptr))
    (i dflt : Z) : run Z :=
  match l with
  | [] => Ret dflt
  | a :: l' =>
      '(_, x) ← deref h a;
      if p x then Ret i else findFirstColumn h p l' (i + 1) dflt
  end.

(** Writing one field of the object behind a pointer. *)
Definition putColumn (p : ptr) (col : ddlTestColumn) (c : testCase) : testCase :=
  set_hColumns (<[p := col]> (hColumns c)) c.
Definition putIndex (p : ptr) (ix : ddlTestIndex) (c : testCase) : testCase :=
  set_hIndexes (<[p := ix]> (hIndexes c)) c.
Definition putTable (p : ptr) (tb : ddlTestTable) (c : testCase) : testCase :=
  set_hTables (<[p := tb]> (hTables c)) c.
Definition putSchema (p : ptr) (s : ddlTestSchema) (c : testCase) : testCase :=
  set_hSchemas (<[p := s]> (hSchemas c)) c.
Definition putView (p : ptr) (v : ddlTestView) (c : testCase) : testCase :=
  set_hViews (<[p := v]> (hViews c)) c.
Definition putTask (p : ptr) (t : ddlJobTask) (c : testCase) : testCase :=
  set_hTasks (<[p := t]> (hTasks c)) c.

(** ** Helpers that live in the other files of the package *)

(** The functions and methods that [ddl_ops.go] calls and that are
    declared outside it.  The operations below are written against this
    interface, and what is proved of them holds for any implementation.
    The helpers that take an object read it through its pointer, so a
    [nil] argument faults before the call. *)
Class External : Type := {
  (** [ddlIgnoreError(err)]: is this error one of the benign ones? *)
  ddlIgnoreError : option error -> bool;
  (** [c.isSchemaDeleted(schema)] *)
  isSchemaDeleted : testCase -> ptr -> bool;
  (** [c.isTableDeleted(table)] *)
  isTableDeleted : testCase -> ptr -> bool;
  (** [c.isColumnDeleted(column, table)] *)
  isColumnDeleted : testCase -> ptr -> ptr -> bool;
  (** [table.isColumnDeleted(column)] *)
  tableIsColumnDeleted : testCase -> ptr -> ptr -> bool;
  (** [c.isIndexDeleted(index, table)] *)
  isIndexDeleted : testCase -> ptr -> ptr -> bool;
  (** [column.isGenerated()] *)
  isGenerated : testCase -> ptr -> bool;
  (** [column.hasGenerateCol()]: does a generated column depend on it? *)
  hasGenerateCol : testCase -> ptr -> bool;
  (** [table.predicateAll] and [table.filterColumns(predicate)] *)
  predicateAll : testCase -> ptr -> ptr -> bool;
  filterColumns : testCase -> ptr -> (ptr -> bool) -> list ptr;
  (** [c.pickupRandomTable()], on the raw draw it consumes *)
  pickupRandomTable : testCase -> Z -> option ptr;
  (** [table.debugPrintToString()], for a table that exists *)
  debugPrintToString : testCase -> ptr -> string
}.

(** Modelled from the spec: [getColumnFromArrayList], declared
    elsewhere; the column at a position of the list, [nil] outside. *)
Definition getColumnFromArrayList (l : list (option ptr)) (i : Z) : option ptr :=
  match arraylist.Get l i with
  | Some p => p
  | None => None
  end.

(** The tombstone of a column and of a table. *)
Definition withColumnDeleted (b : bool) (col : ddlTestColumn) : ddlTestColumn :=
  mkColumn (col_name col) (isPrimaryKey col) (defaultValue col) (rows col)
    (indexReferences col) (dependency col) (dependenciedCols col) b.

Definition withDeleted (n : Z) (tb : ddlTestTable) : ddlTestTable :=
  mkTable (tbl_name tb) (tbl_id tb) (columns tb) (indexes tb) (numberOfRows tb)
    n (comment tb) (charset tb) (collate tb) (shardRowId tb) (autoIncID tb).

(** Modelled from the spec: [column.setDeleted()], declared elsewhere;
    the flag mutation of the data model. *)
Definition column_setDeleted (p : option ptr) (c : testCase) : run testCase :=
  '(a, col) ← deref (hColumns c) p;
  Ret (putColumn a (withColumnDeleted true col) c).

(** Modelled from the spec: [column.setDeletedRecover()], declared
    elsewhere; it takes the tombstone back. *)
Definition column_setDeletedRecover (p : option ptr) (c : testCase) : run testCase :=
  '(a, col) ← deref (hColumns c) p;
  Ret (putColumn a (withColumnDeleted false col) c).

(** Modelled from the spec: [table.setDeleted()], declared elsewhere;
    the tombstone of a table is the non-zero [deleted] field. *)
Definition table_setDeleted (p : option ptr) (c : testCase) : run testCase :=
  '(a, tb) ← deref (hTables c) p;
  Ret (putTable a (withDeleted 1 tb) c).

(** Field writes used by the appliers. *)
Definition withIndexReferences (n : Z) (col : ddlTestColumn) : ddlTestColumn :=
  mkColumn (col_name col) (isPrimaryKey col) (defaultValue col) (rows col) n
    (dependency col) (dependenciedCols col) (col_deleted col).
Definition withRows (r : list value) (col : ddlTestColumn) : ddlTestColumn :=
  mkColumn (col_name col) (isPrimaryKey col) (defaultValue col) r (indexReferences col)
    (dependency col) (dependenciedCols col) (col_deleted col).
Definition withDefaultValue (v : value) (col : ddlTestColumn) : ddlTestColumn :=
  mkColumn (col_name col) (isPrimaryKey col) v (rows col) (indexReferences col)
    (dependency col) (dependenciedCols col) (col_deleted col).
Definition withDependenciedCols (d : list ptr) (col : ddlTestColumn) : ddlTestColumn :=
  mkColumn (col_name col) (isPrimaryKey col) (defaultValue col) (rows col) (indexReferences col)
    (dependency col) d (col_deleted col).
Definition withColumns (l : list (option ptr)) (tb : ddlTestTable) : ddlTestTable :=
  mkTable (tbl_name tb) (tbl_id tb) l (indexes tb) (numberOfRows tb) (deleted tb)
    (comment tb) (charset tb) (collate tb) (shardRowId tb) (autoIncID tb).
Definition withIndexes (l : list ptr) (tb : ddlTestTable) : ddlTestTable :=
  mkTable (tbl_name tb) (tbl_id tb) (columns tb) l (numberOfRows tb) (deleted tb)
    (comment tb) (charset tb) (collate tb) (shardRowId tb) (autoIncID tb).
Definition withNumberOfRows (n : Z) (tb : ddlTestTable) : ddlTestTable :=
  mkTable (tbl_name tb) (tbl_id tb) (columns tb) (indexes tb) n (deleted tb)
    (comment tb) (charset tb) (collate tb) (shardRowId tb) (autoIncID tb).
Definition withComment (s : string) (tb : ddlTestTable) : ddlTestTable :=
  mkTable (tbl_name tb) (tbl_id tb) (columns tb) (indexes tb) (numberOfRows tb) (deleted tb)
    s (charset tb) (collate tb) (shardRowId tb) (autoIncID tb).
Definition withCharsetCollate (cs co : string) (tb : ddlTestTable) : ddlTestTable :=
  mkTable (tbl_name tb) (tbl_id tb) (columns tb) (indexes tb) (numberOfRows tb) (deleted tb)
    (comment tb) cs co (shardRowId tb) (autoIncID tb).
Definition withShardRowId (n : Z) (tb : ddlTestTable) : ddlTestTable :=
  mkTable (tbl_name tb) (tbl_id tb) (columns tb) (indexes tb) (numberOfRows tb) (deleted tb)
    (comment tb) (charset tb) (collate tb) n (autoIncID tb).
Definition withAutoIncID (n : Z) (tb : ddlTestTable) : ddlTestTable :=
  mkTable (tbl_name tb) (tbl_id tb) (columns tb) (indexes tb) (numberOfRows tb) (deleted tb)
    (comment tb) (charset tb) (collate tb) (shardRowId tb) n.
Definition withTableId (s : string) (tb : ddlTestTable) : ddlTestTable :=
  mkTable (tbl_name tb) s (columns tb) (indexes tb) (numberOfRows tb) (deleted tb)
    (comment tb) (charset tb) (collate tb) (shardRowId tb) (autoIncID tb).
Definition withIndexName (s : string) (ix : ddlTestIndex) : ddlTestIndex :=
  mkIndex s (signature ix) (idx_columns ix).
Definition withSchemaId (s : string) (sc : ddlTestSchema) : ddlTestSchema :=
  mkSchema (sch_name sc) (sch_deleted sc) (sch_charset sc) (sch_collate sc) s.
Definition withViewId (s : string) (v : ddlTestView) : ddlTestView :=
  mkView (view_name v) (view_columns v) (view_table v) s.
Definition withDdlID (n : Z) (t : ddlJobTask) : ddlJobTask :=
  mkTask n (task_k t) (tblInfo t) (schemaInfo t) (viewInfo t) (sql t) (arg t) (err t).
Definition withErr (e : option error) (t : ddlJobTask) : ddlJobTask :=
  mkTask (ddlID t) (task_k t) (tblInfo t) (schemaInfo t) (viewInfo t) (sql t) (arg t) e.

(** The casts of [task.arg].  The cast itself never fails; reading
    through a [nil] or a wrongly typed pointer does. *)
Definition asTable (a : ddlJobArg) : run ptr :=
  match a with ArgTable p => Ret p | ArgNil => Panic NilDereference | _ => Panic InvalidCast end.
Definition asString (a : ddlJobArg) : run string :=
  match a with ArgString s => Ret s | ArgNil => Panic NilDereference | _ => Panic InvalidCast end.
Definition asCharset (a : ddlJobArg) : run ddlModifyTableCharsetAndCollateJob :=
  match a with ArgCharset x => Ret x | ArgNil => Panic NilDereference | _ => Panic InvalidCast end.
Definition asInt (a : ddlJobArg) : run Z :=
  match a with ArgInt n => Ret n | ArgNil => Panic NilDereference | _ => Panic InvalidCast end.
Definition asIndex (a : ddlJobArg) : run ddlIndexJobArg :=
  match a with ArgIndex x => Ret x | ArgNil => Panic NilDereference | _ => Panic InvalidCast end.
Definition asRenameIndex (a : ddlJobArg) : run ddlRenameIndexArg :=
  match a with ArgRenameIndex x => Ret x | ArgNil => Panic NilDereference | _ => Panic InvalidCast end.
Definition asColumn (a : ddlJobArg) : run ddlColumnJobArg :=
  match a with ArgColumn x => Ret x | ArgNil => Panic NilDereference | _ => Panic InvalidCast end.
Definition asSetDefault (a : ddlJobArg) : run ddlSetDefaultValueArg :=
  match a with ArgSetDefault x => Ret x | ArgNil => Panic NilDereference | _ => Panic InvalidCast end.

(** ** The appliers *)

Section Appliers.
Context `{External}.

Definition createSchemaJob (c : testCase) (task : ddlJobTask) : run (testCase * option error) :=
  '(sp, schema) ← deref (hSchemas c) (schemaInfo task);
  Ret (set_schemas (<[sch_name schema := sp]> (schemas c)) c, None).

Definition dropSchemaJob (c : testCase) (task : ddlJobTask) : run (testCase * option error) :=
  '(sp, schema) ← deref (hSchemas c) (schemaInfo task);
  if isSchemaDeleted c sp then
    Ret (c, Some (Errorf "schema %s doesn't exist" [FStr (sch_name schema)]))
  else
    Ret (set_schemas (delete (sch_name schema) (schemas c)) c, None).

Definition addTableInfo (c : testCase) (task : ddlJobTask) : run (testCase * option error) :=
  '(tp, table) ← deref (hTables c) (tblInfo task);
  Ret (set_tables (<[tbl_name table := tp]> (tables c)) c, None).

Definition renameTableJob (c : testCase) (task : ddlJobTask) : run (testCase * option error) :=
  '(tp, table) ← deref (hTables c) (tblInfo task);
  if isTableDeleted c tp then
    Ret (c, Some (Errorf "table %s is not exists" [FStr (tbl_name table)]))
  else
    let c1 := set_tables (delete (tbl_name table) (tables c)) c in
    np ← asTable (arg task);
    '(_, newTbl) ← deref (hTables c1) (Some np);
    Ret (set_tables (<[tbl_name newTbl := np]> (tables c1)) c1, None).

Definition truncateTableJob (c : testCase) (task : ddlJobTask) : run (testCase * option error) :=
  '(tp, table) ← deref (hTables c) (tblInfo task);
  if isTableDeleted c tp then
    Ret (c, Some (Errorf "table %s is not exists" [FStr (tbl_name table)]))
  else
    let c1 := putTable tp (withNumberOfRows 0 table) c in
    c2 ← forEach (fun (s : testCase) (p : option ptr) =>
                    '(cp, column) ← deref (hColumns s) p;
                    if negb (isGenerated s cp) then Ret (putColumn cp (withRows [] column) s)
                    else Ret s)
                 c1 (columns table);
    Ret (c2, None).

Definition modifyTableCommentJob (c : testCase) (task : ddlJobTask) : run (testCase * option error) :=
  '(tp, table) ← deref (hTables c) (tblInfo task);
  if isTableDeleted c tp then
    Ret (c, Some (Errorf "table %s is not exists" [FStr (tbl_name table)]))
  else
    newComm ← asString (arg task);
    Ret (putTable tp (withComment newComm table) c, None).

Definition modifyTableCharsetAndCollateJob (c : testCase) (task : ddlJobTask)
    : run (testCase * option error) :=
  '(tp, table) ← deref (hTables c) (tblInfo task);
  if isTableDeleted c tp then
    Ret (c, Some (Errorf "table %s is not exists" [FStr (tbl_name table)]))
  else
    a ← asCharset (arg task);
    Ret (putTable tp (withCharsetCollate (newCharset a) (newCollate a) table) c, None).

Definition shardRowIDJob (c : testCase) (task : ddlJobTask) : run (testCase * option error) :=
  '(tp, table) ← deref (hTables c) (tblInfo task);
  if isTableDeleted c tp then
    Ret (c, Some (Errorf "table %s is not exists" [FStr (tbl_name table)]))
  else
    shardRowId ← asInt (arg task);
    Ret (putTable tp (withShardRowId shardRowId table) c, None).

(** The value is read back from the server; a failed read is ignored
    and leaves the field as it was. *)
Definition rebaseAutoIDJob (c : testCase) (task : ddlJobTask) : run (testCase * option error) :=
  '(tp, table) ← deref (hTables c) (tblInfo task);
  if isTableDeleted c tp then
    Ret (c, Some (Errorf "table %s is not exists" [FStr (tbl_name table)]))
  else
    db ← Go.index (dbs c) 0;
    match QueryAutoIncrement db (tbl_name table) with
    | Some v => Ret (putTable tp (withAutoIncID v table) c, None)
    | None => Ret (c, None)
    end.

Definition dropTableJob (c : testCase) (task : ddlJobTask) : run (testCase * option error) :=
  '(tp, table) ← deref (hTables c) (tblInfo task);
  if isTableDeleted c tp then
    Ret (c, Some (Errorf "table %s is not exists" [FStr (tbl_name table)]))
  else
    Ret (set_tables (delete (tbl_name table) (tables c)) c, None).

Definition createViewJob (c : testCase) (task : ddlJobTask) : run (testCase * option error) :=
  '(vp, view) ← deref (hViews c) (viewInfo task);
  Ret (set_views (<[view_name view := vp]> (views c)) c, None).

(** The first column of the index that the table reports as deleted. *)
Fixpoint firstDeletedColumn (c : testCase) (tp : ptr) (cols : list ptr) : option ptr :=
  match cols with
  | [] => None
  | cp :: rest => if tableIsColumnDeleted c tp cp then Some cp else firstDeletedColumn c tp rest
  end.

Definition addIndexJob (c : testCase) (task : ddlJobTask) : run (testCase * option error) :=
  '(tp, table) ← deref (hTables c) (tblInfo task);
  if isTableDeleted c tp then
    Ret (c, Some (Errorf "table %s is not exists" [FStr (tbl_name table)]))
  else
    jobArg ← asIndex (arg task);
    '(ip, ix) ← deref (hIndexes c) (index jobArg);
    match firstDeletedColumn c tp (idx_columns ix) with
    | Some cp =>
        '(_, column) ← deref (hColumns c) (Some cp);
        Ret (c, Some (Errorf "local Execute add index %s on column %s error , column is deleted"
                         [FStr (idx_name ix); FStr (col_name column)]))
    | None =>
        let c1 := putTable tp (withIndexes (indexes table ++ [ip]) table) c in
        c2 ← forEach (fun (s : testCase) (cp : ptr) =>
                        '(_, column) ← deref (hColumns s) (Some cp);
                        Ret (putColumn cp (withIndexReferences
                                              (Go.add (indexReferences column) 1) column) s))
                     c1 (idx_columns ix);
        Ret (c2, None)
    end.

Definition renameIndexJob (c : testCase) (task : ddlJobTask) : run (testCase * option error) :=
  '(tp, table) ← deref (hTables c) (tblInfo task);
  if isTableDeleted c tp then
    Ret (c, Some (Errorf "table %s is not exists" [FStr (tbl_name table)]))
  else
    a ← asRenameIndex (arg task);
    ip ← Go.index (indexes table) (preIndex a);
    '(_, ix) ← deref (hIndexes c) (Some ip);
    if isIndexDeleted c ip tp then
      Ret (c, Some (Errorf "index %s on table %s is not exists"
                       [FStr (idx_name ix); FStr (tbl_name table)]))
    else
      Ret (putIndex ip (withIndexName (newIndex a) ix) c, None).

(** The decrement loop of [dropIndexJob]: it stops, with the error, at
    the first column whose counter has become negative, and leaves the
    counters written so far as they are. *)
Fixpoint decrementReferences (c : testCase) (cols : list ptr) : run (testCase * option error) :=
  match cols with
  | [] => Ret (c, None)
  | cp :: rest =>
      '(_, column) ← deref (hColumns c) (Some cp);
      let n := Go.sub (indexReferences column) 1 in
      let c1 := putColumn cp (withIndexReferences n column) c in
      if n <? 0 then
        Ret (c1, Some (Errorf "drop index, index.column %s Unexpected index reference"
                          [FStr (col_name column)]))
      else decrementReferences c1 rest
  end.

Definition dropIndexJob (c : testCase) (task : ddlJobTask) : run (testCase * option error) :=
  '(tp, table) ← deref (hTables c) (tblInfo task);
  if isTableDeleted c tp then
    Ret (c, Some (Errorf "table %s is not exists" [FStr (tbl_name table)]))
  else
    jobArg ← asIndex (arg task);
    '(_, ix) ← deref (hIndexes c) (index jobArg);
    iOfDropIndex ← findFirst (hIndexes c) (fun x => String.eqb (idx_name ix) (idx_name x))
                     (indexes table) 0 (-1);
    if iOfDropIndex =? -1 then
      Ret (c, Some (Errorf "table %s , index %s is not exists"
                       [FStr (tbl_name table); FStr (idx_name ix)]))
    else
      '(c1, e) ← decrementReferences c (idx_columns ix);
      match e with
      | Some _ => Ret (c1, e)
      | None =>
          l ← Go.removeAt (indexes table) iOfDropIndex;
          Ret (putTable tp (withIndexes l table) c1, None)
      end.

Definition addColumnJob (c : testCase) (task : ddlJobTask) : run (testCase * option error) :=
  '(tp, table) ← deref (hTables c) (tblInfo task);
  if isTableDeleted c tp then
    Ret (c, Some (Errorf "table %s is not exists" [FStr (tbl_name table)]))
  else
    jobArg ← asColumn (arg task);
    '(np, newColumn) ← deref (hColumns c) (column jobArg);
    let filled := withRows (replicate (Z.to_nat (numberOfRows table)) (defaultValue newColumn))
                    newColumn in
    let c1 := putColumn np filled c in
    if strategy jobArg =? ddlTestAddDropColumnStrategyAtBeginning then
      Ret (putTable tp (withColumns (arraylist.Insert (columns table) 0 (Some np)) table) c1,
           None)
    else if strategy jobArg =? ddlTestAddDropColumnStrategyAtEnd then
      Ret (putTable tp (withColumns (arraylist.Add (columns table) (Some np)) table) c1, None)
    else if strategy jobArg =? ddlTestAddDropColumnStrategyAtRandom then
      '(_, after) ← deref (hColumns c1) (insertAfterColumn jobArg);
      insertAfterPosition ← findFirstColumn (hColumns c1)
                              (fun x => String.eqb (col_name after) (col_name x))
                              (columns table) 0 (-1);
      if insertAfterPosition =? -1 then
        Ret (c1, Some (Errorf
                "table %s ,insert column %s after column, column %s is not exists "
                [FStr (tbl_name table); FStr (col_name filled); FStr (col_name after)]))
      else
        Ret (putTable tp (withColumns
                             (arraylist.Insert (columns table)
                                (Go.add insertAfterPosition 1) (Some np)) table) c1, None)
    else Ret (c1, None).

Definition modifyColumnJob (c : testCase) (task : ddlJobTask) : run (testCase * option error) :=
  '(tp, table) ← deref (hTables c) (tblInfo task);
  if isTableDeleted c tp then
    Ret (c, Some (Errorf "table %s is not exists" [FStr (tbl_name table)]))
  else
    a ← asColumn (arg task);
    '(op, orig) ← deref (hColumns c) (origColumn a);
    if isColumnDeleted c op tp then
      Ret (c, Some (Errorf "column %s on table %s is not exists"
                       [FStr (col_name orig); FStr (tbl_name table)]))
    else
      let removed := arraylist.Remove (columns table) (origColumnIndex a) in
      let c1 := putTable tp (withColumns removed table) c in
      if strategy a =? ddlTestAddDropColumnStrategyAtBeginning then
        Ret (putTable tp (withColumns (arraylist.Insert removed 0 (column a)) table) c1, None)
      else if strategy a =? ddlTestAddDropColumnStrategyAtEnd then
        Ret (putTable tp (withColumns (arraylist.Add removed (column a)) table) c1, None)
      else if strategy a =? ddlTestAddDropColumnStrategyAtRandom then
        insertPosition ←
          match removed with
          | [] => Ret (Go.sub (origColumnIndex a) 1)
          | _ =>
              '(_, after) ← deref (hColumns c1) (insertAfterColumn a);
              findFirstColumn (hColumns c1)
                (fun col => String.eqb (col_name col) (col_name after))
                removed 0 (Go.sub (origColumnIndex a) 1)
          end;
        Ret (putTable tp (withColumns
                             (arraylist.Insert removed (Go.add insertPosition 1) (column a))
                             table) c1,
              None)
      else Ret (c1, None).

(** The index left in [i] by [for i = range s] with a [break] at the
    first element satisfying [p]: that element's position, else the last
    position, and [0] for an empty slice. *)
Definition rangeBreak {A : Type} (h : gmap nat A) (p : A -> bool) (l : list ptr) : run Z :=
  findFirst h p l 0 (if Go.len l =? 0 then 0 else Go.len l - 1).

Definition dropColumnJob (c : testCase) (task : ddlJobTask) : run (testCase * option error) :=
  '(tp, table) ← deref (hTables c) (tblInfo task);
  if isTableDeleted c tp then
    Ret (c, Some (Errorf "table %s is not exists" [FStr (tbl_name table)]))
  else
    jobArg ← asColumn (arg task);
    '(dp, columnToDrop) ← deref (hColumns c) (column jobArg);
    if indexReferences columnToDrop >? 0 then
      c1 ← column_setDeletedRecover (Some dp) c;
      Ret (c1, Some (Errorf
              "local Execute drop column %s on table %s error , column has index reference"
              [FStr (col_name columnToDrop); FStr (tbl_name table)]))
    else
      dropColumnPosition ← findFirstColumn (hColumns c)
                             (fun x => String.eqb (col_name columnToDrop) (col_name x))
                             (columns table) 0 (-1);
      if dropColumnPosition =? -1 then
        Ret (c, Some (Errorf "table %s ,drop column , column %s is not exists "
                         [FStr (tbl_name table); FStr (col_name columnToDrop)]))
      else
        let c1 := putTable tp (withColumns (arraylist.Remove (columns table) dropColumnPosition)
                                 table) c in
        if isGenerated c1 dp then
          '(pp, col) ← deref (hColumns c1) (dependency columnToDrop);
          i ← rangeBreak (hColumns c1)
                (fun x => String.eqb (col_name x) (col_name columnToDrop))
                (dependenciedCols col);
          l ← Go.removeAt (dependenciedCols col) i;
          Ret (putColumn pp (withDependenciedCols l col) c1, None)
        else Ret (c1, None).

Definition setDefaultValueJob (c : testCase) (task : ddlJobTask) : run (testCase * option error) :=
  '(tp, table) ← deref (hTables c) (tblInfo task);
  if isTableDeleted c tp then
    Ret (c, Some (Errorf "table %s is not exists" [FStr (tbl_name table)]))
  else
    a ← asSetDefault (arg task);
    '(ap, acol) ← deref (hColumns c) (sdv_column a);
    if isColumnDeleted c ap tp then
      Ret (c, Some (Errorf "column %s on table %s is not exists"
                       [FStr (col_name acol); FStr (tbl_name table)]))
    else
      '(cp, col) ← deref (hColumns c) (getColumnFromArrayList (columns table) (columnIndex a));
      Ret (putColumn cp (withDefaultValue (newDefaultValue a) col) c, None).

(** The [%v] of the task is cut down to its id, statement and error. *)
Definition updateTableInfo (c : testCase) (task : ddlJobTask) : run (testCase * option error) :=
  match task_k task with
  | ddlCreateSchema => createSchemaJob c task
  | ddlDropSchema => dropSchemaJob c task
  | ddlAddTable => addTableInfo c task
  | ddlRenameTable => renameTableJob c task
  | ddlTruncateTable => truncateTableJob c task
  | ddlModifyTableComment => modifyTableCommentJob c task
  | ddlModifyTableCharsetAndCollate => modifyTableCharsetAndCollateJob c task
  | ddlShardRowID => shardRowIDJob c task
  | ddlRebaseAutoID => rebaseAutoIDJob c task
  | ddlDropTable => dropTableJob c task
  | ddlCreateView => createViewJob c task
  | ddlAddIndex => addIndexJob c task
  | ddlRenameIndex => renameIndexJob c task
  | ddlDropIndex => dropIndexJob c task
  | ddlAddColumn => addColumnJob c task
  | ddlModifyColumn => modifyColumnJob c task
  | ddlDropColumn => dropColumnJob c task
  | ddlSetDefaultValue => setDefaultValueJob c task
  | ddlKindNil =>
      Ret (c, Some (Errorf "unknow ddl task , %v"
                       [FInt (ddlID task); FStr (sql task); FErr (err task)]))
  end.

End Appliers.

(** ** The two preparers with eligibility rules *)

Section Preparers.
Context `{External}.

(** [&ddlJobTask{...}] followed by [taskCh <- task]: the task gets an
    address of its own and joins the queue, which is taken to have
    room. *)
Definition emit (task : ddlJobTask) (c : testCase) (taskCh : list ptr) : testCase * list ptr :=
  let a := fresh (dom (hTasks c)) in
  (putTask a task c, taskCh ++ [a]).

(** [r] is the draw consumed by [pickupRandomTable]. *)
Definition prepareDropTable (r : Z) (c : testCase) (taskCh : list ptr)
    : run (testCase * list ptr * option error) :=
  let tableToDrop := pickupRandomTable c r in
  if (Z.of_nat (size (tables c)) <=? 1) || bool_decide (tableToDrop = None) then
    Ret (c, taskCh, None)
  else
    c1 ← table_setDeleted tableToDrop c;
    '(_, table) ← deref (hTables c1) tableToDrop;
    let sql := "DROP TABLE `" +:+ tbl_name table +:+ "`" in
    let task := mkTask 0 ddlDropTable tableToDrop None None sql ArgNil None in
    let '(c2, ch) := emit task c1 taskCh in
    Ret (c2, ch, None).

(** The position [prepareDropColumn] selects under [strategy]; [r] is
    the draw of the random strategy. *)
Definition columnToDropIndex (strategy r : Z) (table : ddlTestTable) : run Z :=
  if strategy =? ddlTestAddDropColumnStrategyAtBeginning then Ret 0
  else if strategy =? ddlTestAddDropColumnStrategyAtEnd then
    Ret (Go.sub (arraylist.Size (columns table)) 1)
  else if strategy =? ddlTestAddDropColumnStrategyAtRandom then
    Go.Intn r (arraylist.Size (columns table))
  else Ret (-1).

(** The strategy drawn and the column it selects, [nil] when the
    position is outside the list. *)
Definition selectColumnToDrop (r1 r2 : Z) (table : ddlTestTable) : run (Z * option ptr) :=
  s ← Go.Intn r1 ddlTestAddDropColumnStrategyAtRandom;
  let strategy := Go.add s ddlTestAddDropColumnStrategyAtBeginning in
  i ← columnToDropIndex strategy r2 table;
  Ret (strategy, getColumnFromArrayList (columns table) i).

(** [r0], [r1] and [r2] are the draws of the table, of the strategy and
    of the random position. *)
Definition prepareDropColumn (r0 r1 r2 : Z) (c : testCase) (taskCh : list ptr)
    : run (testCase * list ptr * option error) :=
  match pickupRandomTable c r0 with
  | None => Ret (c, taskCh, None)
  | Some tp =>
      '(_, table) ← deref (hTables c) (Some tp);
      let columnsSnapshot := filterColumns c tp (predicateAll c tp) in
      if Go.len columnsSnapshot <=? 1 then Ret (c, taskCh, None)
      else
        '(strategy, selected) ← selectColumnToDrop r1 r2 table;
        '(dp, columnToDrop) ← deref (hColumns c) selected;
        if isPrimaryKey columnToDrop then Ret (c, taskCh, None)
        else if hasGenerateCol c dp then Ret (c, taskCh, None)
        else if indexReferences columnToDrop >? 0 then Ret (c, taskCh, None)
        else
          c1 ← column_setDeleted (Some dp) c;
          let sql := "ALTER TABLE `" +:+ tbl_name table +:+ "` DROP COLUMN `"
                       +:+ col_name columnToDrop +:+ "`" in
          let a := mkColumnArg 0 None (Some dp) strategy None in
          let task := mkTask 0 ddlDropColumn (Some tp) None None sql (ArgColumn a) None in
          let '(c2, ch) := emit task c1 taskCh in
          Ret (c2, ch, None)
  end.

End Preparers.

(** ** The operation registry *)












(** ** The order oracle *)

Definition showDDLJobs : string := "admin show ddl jobs".

(** The loop of [getHistoryDDLJobs] over the rows read; [jobs] is the
    slice built so far. *)
Fixpoint readJobs (lastID : Z) (actualRows : list (list string)) (jobs : list ddlJob)
    : run (list ddlJob * option error) :=
  match actualRows with
  | [] => Ret (jobs, None)
  | row :: rest =>
      if Go.len row <? 9 then
        Ret ([], Some (Errorf "%s return error, no enough column return , return row: %s"
                          [FStr showDDLJobs; FRow row]))
      else
        r0 ← Go.index row 0;
        match Go.Atoi r0 with
        | None => Ret ([], Some (LibError "strconv.Atoi" r0))
        | Some n =>
            if n <=? lastID then readJobs lastID rest jobs
            else
              r3 ← Go.index row 3;
              match mapOfDDLKind !! r3 with
              | None => readJobs lastID rest jobs
              | Some kind =>
                  r1 ← Go.index row 1;
                  r2 ← Go.index row 2;
                  r5 ← Go.index row 5;
                  r6 ← Go.index row 6;
                  r9 ← Go.index row 9;
                  readJobs lastID rest (jobs ++ [mkJob n r1 r2 kind r9 r6 r5])
              end
        end
  end.

Definition getHistoryDDLJobs (c : testCase) (db : DB) (tasks : list ptr)
    : run (list ddlJob * option error) :=
  match QueryDDLJobs db with
  | QueryError e => Ret ([], Some e)
  | Rows actualRows => readJobs (lastDDLID c) actualRows []
  end.

(** [p != nil && p.id == want] *)
Definition idIs {A : Type} (h : gmap nat A) (p : option ptr) (get : A -> string)
    (want : string) : run bool :=
  match p with
  | None => Ret false
  | Some _ => '(_, x) ← deref h p; Ret (String.eqb (get x) want)
  end.

(** What one turn of the inner loop of [getSortTask] does with [task]:
    the state, the sorted slice, and whether it leaves the loop. *)
Definition matchTask (job : ddlJob) (c : testCase) (sortTasks : list ptr) (tp : ptr)
    : run (testCase * list ptr * bool) :=
  '(_, task) ← deref (hTasks c) (Some tp);
  let stamped := putTask tp (withDdlID (id job) task) c in
  hitTable ←
    (if kindEq (task_k task) ddlAddTable && kindEq (k job) ddlAddTable then
       '(bp, tb) ← deref (hTables c) (tblInfo task);
       Ret (if String.eqb (tbl_name tb) (tableName job) then Some (bp, tb) else None)
     else Ret None);
  match hitTable with
  | Some (bp, tb) =>
      Ret (putTable bp (withTableId (tableID job) tb) stamped, sortTasks ++ [tp], true)
  | None =>
  hitSchema ←
    (if kindEq (task_k task) ddlCreateSchema && kindEq (k job) ddlCreateSchema then
       '(sp, sc) ← deref (hSchemas c) (schemaInfo task);
       Ret (if String.eqb (sch_name sc) (schemaName job) then Some (sp, sc) else None)
     else Ret None);
  match hitSchema with
  | Some (sp, sc) =>
      Ret (putSchema sp (withSchemaId (schemaID job) sc) stamped, sortTasks ++ [tp], true)
  | None =>
  hitView ←
    (if kindEq (task_k task) ddlCreateView && kindEq (k job) ddlCreateView then
       '(vp, v) ← deref (hViews c) (viewInfo task);
       Ret (if String.eqb (view_name v) (tableName job) then Some (vp, v) else None)
     else Ret None);
  match hitView with
  | Some (vp, v) =>
      Ret (putView vp (withViewId (tableID job) v) stamped, sortTasks ++ [tp], true)
  | None =>
      if negb (kindEq (task_k task) ddlAddTable) && kindEq (k job) (task_k task) then
        byTable ← idIs (hTables c) (tblInfo task) tbl_id (tableID job);
        if (byTable : bool) then Ret (stamped, sortTasks ++ [tp], true)
        else
          byView ← idIs (hViews c) (viewInfo task) view_id (tableID job);
          if (byView : bool) then Ret (stamped, sortTasks ++ [tp], false)
          else
            bySchema ← idIs (hSchemas c) (schemaInfo task) sch_id (schemaID job);
            if (bySchema : bool) then Ret (stamped, sortTasks ++ [tp], false)
            else Ret (c, sortTasks, false)
      else Ret (c, sortTasks, false)
  end end end.

(** The inner loop: [for _, task := range tasks]. *)
Fixpoint matchTasks (job : ddlJob) (c : testCase) (sortTasks : list ptr) (tasks : list ptr)
    : run (testCase * list ptr) :=
  match tasks with
  | [] => Ret (c, sortTasks)
  | tp :: rest =>
      '(c1, st1, brk) ← matchTask job c sortTasks tp;
      if (brk : bool) then Ret (c1, st1) else matchTasks job c1 st1 rest
  end.

(** The outer loop: [for _, job := range jobs], left as soon as the
    sorted slice is as long as the batch. *)
Fixpoint matchJobs (jobs : list ddlJob) (tasks : list ptr) (c : testCase) (sortTasks : list ptr)
    : run (testCase * list ptr) :=
  match jobs with
  | [] => Ret (c, sortTasks)
  | job :: rest =>
      '(c1, st1) ← matchTasks job c sortTasks tasks;
      if Go.len st1 =? Go.len tasks then Ret (c1, st1)
      else matchJobs rest tasks c1 st1
  end.

(** Tab and newline, and a line of tab-separated fields. *)
Definition TAB : string := String (Ascii.ascii_of_nat 9) EmptyString.
Definition NL : string := String (Ascii.ascii_of_nat 10) EmptyString.

Definition fields (fs : list string) : string :=
  match fs with
  | [] => NL
  | f :: rest => f +:+ foldr (fun x acc => TAB +:+ x +:+ acc) NL rest
  end.

Definition jobLine (job : ddlJob) : string :=
  fields [pretty (id job); schemaName job; tableName job; mapOfDDLKindToString (k job);
          schemaID job; tableID job; jobState job].

(** The line of a task in the listings; a task that carries no table,
    schema or view has none. *)
Definition taskLine (c : testCase) (tp : ptr) : run string :=
  '(_, task) ← deref (hTasks c) (Some tp);
  match tblInfo task, schemaInfo task, viewInfo task with
  | Some _, _, _ =>
      '(_, tb) ← deref (hTables c) (tblInfo task);
      Ret (fields [pretty (ddlID task); initDB c; tbl_name tb;
                    mapOfDDLKindToString (task_k task); "_"; tbl_id tb])
  | None, Some _, _ =>
      '(_, sc) ← deref (hSchemas c) (schemaInfo task);
      Ret (fields [pretty (ddlID task); sch_name sc; "";
                    mapOfDDLKindToString (task_k task); sch_id sc; ""])
  | None, None, Some _ =>
      '(_, v) ← deref (hViews c) (viewInfo task);
      Ret (fields [pretty (ddlID task); initDB c; view_name v;
                    mapOfDDLKindToString (task_k task); "_"; view_id v])
  | None, None, None => Ret ""
  end.

Definition taskLines (c : testCase) (l : list ptr) : run string :=
  forEach (fun (acc : string) (tp : ptr) => line ← taskLine c tp; Ret (acc +:+ line)) "" l.

Definition taskHeader : string :=
  fields ["Job_ID"; "DB_NAME"; "TABLE_NAME"; "JOB_TYPE"; "SCHEMA_ID"; "TABLE_ID"].

(** The text of the error raised when the sorted slice and the batch
    differ in length: the history, the batch and the partial sort. *)
Definition mismatchText (c : testCase) (jobs : list ddlJob) (tasks sortTasks : list ptr)
    : run string :=
  listed ← taskLines c tasks;
  sorted ← taskLines c sortTasks;
  Ret ("admin show ddl jobs len != len(tasks)" +:+ NL
        +:+ "admin get job" +:+ NL
        +:+ fields ["Job_ID"; "DB_NAME"; "TABLE_NAME"; "JOB_TYPE"; "SCHEMA_ID"; "TABLE_ID";
                    "JOB_STATE"]
        +:+ foldr (fun job acc => jobLine job +:+ acc) "" jobs
        +:+ "ddl tasks" +:+ NL +:+ taskHeader +:+ listed
        +:+ "ddl sort tasks" +:+ NL +:+ taskHeader +:+ sorted).

(** The key [Less] compares: the [ddlID] behind the task pointer. *)
Definition ddlIDOf (c : testCase) (tp : ptr) : Z :=
  match hTasks c !! tp with
  | Some task => ddlID task
  | None => 0
  end.

Definition getSortTask (c : testCase) (db : DB) (tasks : list ptr)
    : run (testCase * list ptr * option error) :=
  '(jobs, e) ← getHistoryDDLJobs c db tasks;
  match e with
  | Some _ => Ret (c, [], e)
  | None =>
      '(c1, sortTasks) ← matchJobs jobs tasks c [];
      if negb (Go.len sortTasks =? Go.len tasks) then
        str ← mismatchText c1 jobs tasks sortTasks;
        Ret (c1, [], Some (Errorf str []))
      else
        let sorted := Go.Sort (ddlIDOf c1) sortTasks in
        match last sorted with
        | Some tp => Ret (set_lastDDLID (ddlIDOf c1 tp) c1, sorted, None)
        | None => Ret (c1, sorted, None)
        end
  end.

(** ** The dispatchers *)

Section Dispatchers.
Context `{External}.

Definition isNil (e : option error) : bool :=
  match e with
  | None => true
  | Some _ => false
  end.

(** The body of a sender goroutine: the statement goes to the server
    and the answer is kept on the task unless it is to be ignored. *)
Definition sendTask (c : testCase) (tp : ptr) : run testCase :=
  '(_, task) ← deref (hTasks c) (Some tp);
  db ← Go.index (dbs c) 0;
  let e := Exec db (sql task) in
  if negb (ddlIgnoreError e) then Ret (putTask tp (withErr e task) c) else Ret c.

(** [num] receives from the channel; an empty channel blocks. *)
Fixpoint receive (num : nat) (taskCh : list ptr) : run (list ptr * list ptr) :=
  match num with
  | O => Ret ([], taskCh)
  | S n =>
      match taskCh with
      | [] => Blocked
      | tp :: rest => '(got, queue) ← receive n rest; Ret (tp :: got, queue)
      end
  end.

(** The replay loop of [execParaDDLSQL]: [for _, task := range
    SortTasks].  The log lines between the applier and the comparison
    only read fields behind pointers they have tested, and are queue
    out. *)
Fixpoint replay (c : testCase) (SortTasks : list ptr) : run (testCase * option error) :=
  match SortTasks with
  | [] => Ret (c, None)
  | tp :: rest =>
      '(_, task) ← deref (hTasks c) (Some tp);
      '(c1, e) ← updateTableInfo c task;
      if (isNil e && negb (isNil (err task))) || (negb (isNil e) && isNil (err task)) then
        if negb (isNil e) && ddlIgnoreError e then Ret (c1, None)
        else
          bp ← nonNil (tblInfo task);
          Ret (c1, Some (Errorf
                 "Error when executing SQL: %s\n, local err: %#v, remote tidb err: %#v\n%s\n"
                 [FStr (sql task); FErr e; FErr (err task); FStr (debugPrintToString c1 bp)]))
      else replay c1 rest
  end.

Definition execParaDDLSQL (c : testCase) (taskCh : list ptr) (num : Z)
    : run (testCase * list ptr * option error) :=
  if num =? 0 then Ret (c, taskCh, None)
  else if num <? 0 then Panic InvalidArgument
  else
    '(tasks, queue) ← receive (Z.to_nat num) taskCh;
    c1 ← forEach sendTask c tasks;
    db ← Go.index (dbs c1) 0;
    '(c2, SortTasks, e) ← getSortTask c1 db tasks;
    match e with
    | Some _ =>
        if ddlIgnoreError e then Ret (c2, queue, None) else Ret (c2, queue, e)
    | None =>
        '(c3, e3) ← replay c2 SortTasks;
        Ret (c3, queue, e3)
    end.

Definition execSerialDDLSQL (c : testCase) (taskCh : list ptr)
    : run (testCase * list ptr * option error) :=
  match taskCh with
  | [] => Ret (c, taskCh, None)
  | tp :: queue =>
      '(_, task) ← deref (hTasks c) (Some tp);
      db ← Go.index (dbs c) 0;
      let e := Exec db (sql task) in
      if negb (isNil e) then
        if ddlIgnoreError e then Ret (c, queue, None)
        else
          match tblInfo task with
          | Some bp =>
              Ret (c, queue, Some (Errorf
                     "Error when executing SQL: %s\n remote tidb Err: %#v\n%s\n"
                     [FStr (sql task); FErr e; FStr (debugPrintToString c bp)]))
          | None =>
              Ret (c, queue, Some (Errorf
                     "Error when executing SQL: %s\n remote tidb Err: %#v\n"
                     [FStr (sql task); FErr e]))
          end
      else
        '(c1, e1) ← updateTableInfo c task;
        if negb (isNil e1) then
          match tblInfo task with
          | Some bp =>
              Ret (c1, queue, Some (Errorf
                     "Error when executing SQL: %s\n local Err: %#v\n%s\n"
                     [FStr (sql task); FErr e1; FStr (debugPrintToString c1 bp)]))
          | None =>
              Ret (c1, queue, Some (Errorf
                     "Error when executing SQL: %s\n local Err: %#v\n"
                     [FStr (sql task); FErr e1]))
          end
        else Ret (c1, queue, None)
  end.

End Dispatchers.

(** ** A reference implementation of the helpers *)

(** The pointers of a column list that are not [nil]. *)
Definition nonNilColumns (l : list (option ptr)) : list ptr := omap (fun p => p) l.

(** Is there an object named [wanted] in the list? *)
Definition nameListed {A : Type} (h : gmap nat A) (name : A -> string) (l : list ptr)
    (wanted : string) : bool :=
  existsb (fun p => match h !! p with
                    | Some x => String.eqb (name x) wanted
                    | None => false
                    end) l.

(** The live tables: those of the catalog that carry no tombstone. *)
Definition liveTables (c : testCase) : list ptr :=
  List.filter (fun p => match hTables c !! p with
                        | Some tb => deleted tb =? 0
                        | None => false
                        end) (map snd (map_to_list (tables c))).

(** Modelled from the spec: one implementation of the helpers declared
    outside [ddl_ops.go], used to run the operations on sample states.
    A table or schema is gone when it is no longer reachable by name
    from the catalog, a column or an index when its table no longer
    lists it by name; a column is generated when it has a dependency,
    and has dependents when [dependenciedCols] is not empty; the live
    columns are those without tombstone; a random table is drawn among
    the live tables; an error is benign when it is [nil], says that a
    table is already gone, or asks to try again. *)
#[global] Instance referenceHelpers : External := {|
  ddlIgnoreError e :=
    match e with
    | None => true
    | Some (Errorf format _) => String.eqb format "table %s is not exists"
    | Some (LibError _ msg) => String.eqb msg "try again later"
    end;
  isSchemaDeleted c sp :=
    match hSchemas c !! sp with
    | Some sc => negb (bool_decide (schemas c !! sch_name sc = Some sp))
    | None => true
    end;
  isTableDeleted c tp :=
    match hTables c !! tp with
    | Some tb => negb (bool_decide (is_Some (tables c !! tbl_name tb)))
    | None => true
    end;
  isColumnDeleted c cp tp :=
    match hColumns c !! cp, hTables c !! tp with
    | Some col, Some tb =>
        negb (nameListed (hColumns c) col_name (nonNilColumns (columns tb)) (col_name col))
    | _, _ => true
    end;
  tableIsColumnDeleted c tp cp :=
    match hColumns c !! cp, hTables c !! tp with
    | Some col, Some tb =>
        negb (nameListed (hColumns c) col_name (nonNilColumns (columns tb)) (col_name col))
    | _, _ => true
    end;
  isIndexDeleted c ip tp :=
    match hIndexes c !! ip, hTables c !! tp with
    | Some ix, Some tb => negb (nameListed (hIndexes c) idx_name (indexes tb) (idx_name ix))
    | _, _ => true
    end;
  isGenerated c cp :=
    match hColumns c !! cp with
    | Some col => bool_decide (is_Some (dependency col))
    | None => false
    end;
  hasGenerateCol c cp :=
    match hColumns c !! cp with
    | Some col => negb (bool_decide (dependenciedCols col = []))
    | None => false
    end;
  predicateAll _ _ _ := true;
  filterColumns c tp predicate :=
    match hTables c !! tp with
    | Some tb =>
        List.filter (fun cp => predicate cp &&
                               match hColumns c !! cp with
                               | Some col => negb (col_deleted col)
                               | None => false
                               end) (nonNilColumns (columns tb))
    | None => []
    end;
  pickupRandomTable c r :=
    let live := liveTables c in
    if bool_decide (live = []) then None
    else live !! Z.to_nat (r mod Go.len live);
  debugPrintToString c tp :=
    match hTables c !! tp with
    | Some tb => "table " +:+ tbl_name tb +:+ " id " +:+ tbl_id tb
    | None => ""
    end
|}.

(** ** Well-formedness of the objects an applier is given *)

(** What a pointer of a column list leads to. *)
Definition columnAt (c : testCase) (p : option ptr) : option ddlTestColumn :=
  match p with
  | Some a => hColumns c !! a
  | None => None
  end.

(** The columns of a list exist and bear pairwise distinct names. *)
Definition distinctColumns (c : testCase) (l : list ptr) : Prop :=
  Forall (fun p => is_Some (hColumns c !! p)) l /\
  NoDup ((fun p => col_name <$> hColumns c !! p) <$> l).

(** A counter that can be decremented without wrapping around. *)
Definition decrementable (n : Z) : Prop := Go.min_int < n <= Go.max_int.

(** A task of the batch that carries a table, and only a table. *)
Definition tableTask (c : testCase) (tp : ptr) : Prop :=
  exists (task : ddlJobTask) (bp : ptr) (tb : ddlTestTable),
    hTasks c !! tp = Some task /\ tblInfo task = Some bp /\ hTables c !! bp = Some tb /\
    schemaInfo task = None /\ viewInfo task = None /\
    task_k task <> ddlCreateSchema /\ task_k task <> ddlCreateView.

(** ** The pairing of history rows with tasks, told by first match *)

(** Does the row match the task, the way the inner loop of
    [getSortTask] tests a task that carries a table: a create-table
    task by the name of its table, any other task by its kind and by the
    id of its table. *)
Definition rowMatches (c : testCase) (job : ddlJob) (tp : ptr) : bool :=
  match hTasks c !! tp with
  | Some task =>
      match tblInfo task with
      | Some bp =>
          match hTables c !! bp with
          | Some tb =>
              if kindEq (task_k task) ddlAddTable then
                kindEq (k job) ddlAddTable && String.eqb (tbl_name tb) (tableName job)
              else
                kindEq (k job) (task_k task) && String.eqb (tbl_id tb) (tableID job)
          | None => false
          end
      | None => false
      end
  | None => false
  end.

(** The first task of the batch that the row matches. *)
Fixpoint firstMatching (c : testCase) (job : ddlJob) (tasks : list ptr) : option ptr :=
  match tasks with
  | [] => None
  | tp :: rest => if rowMatches c job tp then Some tp else firstMatching c job rest
  end.

(** What pairing a row with a task writes: the id of the job on the
    task and, for a create-table task, the id of the table. *)
Definition pairRow (c : testCase) (job : ddlJob) (tp : ptr) : testCase :=
  match hTasks c !! tp with
  | Some task =>
      let stamped := putTask tp (withDdlID (id job) task) c in
      if kindEq (task_k task) ddlAddTable then
        match tblInfo task with
        | Some bp =>
            match hTables c !! bp with
            | Some tb => putTable bp (withTableId (tableID job) tb) stamped
            | None => stamped
            end
        | None => stamped
        end
      else stamped
  | None => c
  end.

(** A row is paired with the first task it matches, if any, whether or
    not that task has been paired before. *)
Definition pairStep (c : testCase) (job : ddlJob) (tasks st : list ptr)
    : testCase * list ptr :=
  match firstMatching c job tasks with
  | Some tp => (pairRow c job tp, st ++ [tp])
  | None => (c, st)
  end.

(** The rows are gone through in the order of the history, until there
    are as many pairings as tasks. *)
Fixpoint pairRows (jobs : list ddlJob) (tasks : list ptr) (c : testCase) (st : list ptr)
    : testCase * list ptr :=
  match jobs with
  | [] => (c, st)
  | job :: rest =>
      let '(c1, st1) := pairStep c job tasks st in
      if Go.len st1 =? Go.len tasks then (c1, st1) else pairRows rest tasks c1 st1
  end.

(** Two tasks of the same kind on the same table. *)
Definition sameTarget (c : testCase) (tp1 tp2 : ptr) : Prop :=
  exists task1 task2 : ddlJobTask,
    hTasks c !! tp1 = Some task1 /\ hTasks c !! tp2 = Some task2 /\
    task_k task1 = task_k task2 /\ tblInfo task1 = tblInfo task2.

(** ** Sample states *)

Definition emptyCase : testCase :=
  mkTestCase ∅ ∅ ∅ ∅ ∅ ∅ ∅ ∅ ∅ [] 0 "test" [].

Definition plainColumn (name : string) (refs : Z) : ddlTestColumn :=
  mkColumn name false "0" [] refs None [] false.

Definition plainTable (name ident : string) (cols ixs : list ptr) : ddlTestTable :=
  mkTable name ident (Some <$> cols) ixs 0 0 "" "utf8" "utf8_bin" 0 0.

(** A batch of one create-schema task that the server rejects with an
    error that is not benign, the job being listed all the same. *)
Definition rejectedSchemaCase : testCase :=
  mkTestCase ∅ ∅ ∅
    (<[0%nat := mkSchema "s1" false "utf8" "utf8_bin" ""]> ∅) ∅
    (<[0%nat := mkTask 0 ddlCreateSchema None (Some 0%nat) None
                  "CREATE DATABASE `s1` CHARACTER SET 'utf8' COLLATE 'utf8_bin'" ArgNil None]> ∅)
    ∅ ∅ ∅
    [mkDB (fun _ => Some (LibError "server" "Error 1105: unknown"))
          (Rows [["10"; "s1"; ""; "create schema"; "none"; "5"; "0"; "0"; "2018-07-13"; "cancelled"]])
          (fun _ => None)]
    0 "test" [].

(** A history of rows that have nine columns only. *)
Definition nineColumnDB : DB :=
  mkDB (fun _ => None)
       (Rows [["47"; "test"; "t1"; "drop column"; "none"; "1"; "44"; "0"; "2018-07-13"]])
       (fun _ => None).

(** A drop-table task that the server accepted, in a catalog that its
    table has left already. *)
Definition goneTask : ddlJobTask :=
  mkTask 11 ddlDropTable (Some 0%nat) None None "DROP TABLE `t1`" ArgNil None.

Definition goneTableCase : testCase :=
  mkTestCase ∅ ∅
    (<[0%nat := plainTable "t1" "44" [] []]> ∅) ∅ ∅
    (<[0%nat := goneTask]> ∅)
    ∅ ∅ ∅ [] 11 "test" [].

(** A catalog of two tables, the first of which carries a tombstone. *)
Definition oneLiveTableCase : testCase :=
  mkTestCase ∅ ∅
    (<[1%nat := plainTable "b" "45" [] []]> (<[0%nat := withDeleted 1 (plainTable "a" "44" [] [])]> ∅))
    ∅ ∅ ∅
    (<["b" := 1%nat]> (<["a" := 0%nat]> ∅)) ∅ ∅ [] 0 "test" [].

(** The table [t(a int, b int)] with the index [ix(a)] of scenario S2. *)
Definition indexedColumnCase : testCase :=
  mkTestCase
    (<[1%nat := plainColumn "b" 0]> (<[0%nat := plainColumn "a" 1]> ∅))
    (<[0%nat := mkIndex "ix" "a," [0%nat]]> ∅)
    (<[0%nat := plainTable "t" "44" [0%nat; 1%nat] [0%nat]]> ∅)
    ∅ ∅ ∅
    (<["t" := 0%nat]> ∅) ∅ ∅ [] 0 "test" [].

(** The table [t(a, b, c)], a new definition [a2] of its first column,
    and the task that puts it in place of [a], after [c]. *)
Definition threeColumnCase : testCase :=
  mkTestCase
    (<[3%nat := plainColumn "a2" 0]>
       (<[2%nat := plainColumn "c" 0]> (<[1%nat := plainColumn "b" 0]>
          (<[0%nat := plainColumn "a" 0]> ∅))))
    ∅
    (<[0%nat := plainTable "t" "44" [0%nat; 1%nat; 2%nat] []]> ∅)
    ∅ ∅ ∅
    (<["t" := 0%nat]> ∅) ∅ ∅ [] 0 "test" [].

Definition moveAfterTask : ddlJobTask :=
  mkTask 0 ddlModifyColumn (Some 0%nat) None None
    "alter table `t` modify column `a` int AFTER `c`"
    (ArgColumn (mkColumnArg 0 (Some 0%nat) (Some 3%nat) ddlTestAddDropColumnStrategyAtRandom
                  (Some 2%nat))) None.

(** The table [t(b, c)], a column [a] and a new definition of [b], with
    the two tasks of a batch prepared on that table: [a] is added in
    front, and [b] is modified and moved behind [c], its index being
    recorded as [0], the position of [b] when the task was prepared. *)
Definition staleIndexCase : testCase :=
  mkTestCase
    (<[3%nat := mkColumn "b" false "1" [] 0 None [] false]>
       (<[2%nat := plainColumn "c" 0]> (<[1%nat := plainColumn "b" 0]>
          (<[0%nat := plainColumn "a" 0]> ∅))))
    ∅
    (<[0%nat := plainTable "t" "44" [1%nat; 2%nat] []]> ∅)
    ∅ ∅ ∅
    (<["t" := 0%nat]> ∅) ∅ ∅ [] 0 "test" [].

Definition addFirstTask : ddlJobTask :=
  mkTask 0 ddlAddColumn (Some 0%nat) None None "ALTER TABLE `t` ADD COLUMN `a` int FIRST"
    (ArgColumn (mkColumnArg 0 None (Some 0%nat) ddlTestAddDropColumnStrategyAtBeginning None))
    None.

Definition staleModifyTask : ddlJobTask :=
  mkTask 0 ddlModifyColumn (Some 0%nat) None None
    "alter table `t` modify column `b` int default 1 AFTER `c`"
    (ArgColumn (mkColumnArg 0 (Some 1%nat) (Some 3%nat) ddlTestAddDropColumnStrategyAtRandom
                  (Some 2%nat))) None.

Definition dropIxTask : ddlJobTask :=
  mkTask 0 ddlDropIndex (Some 0%nat) None None "ALTER TABLE `t` DROP INDEX `ix`"
    (ArgIndex (mkIndexArg (Some 0%nat))) None.

(** Two truncate-table tasks on two tables; the history lists the newer
    job first. *)
Definition historyDB : DB :=
  mkDB (fun _ => None)
       (Rows [["47"; "test"; "t2"; "truncate table"; "none"; "1"; "45"; "0"; "2018-07-13";
               "synced"];
              ["46"; "test"; "t1"; "truncate table"; "none"; "1"; "44"; "0"; "2018-07-13";
               "synced"];
              ["40"; "test"; "t0"; "drop table"; "none"; "1"; "41"; "0"; "2018-07-12";
               "synced"]])
       (fun _ => None).

Definition twoTablesCase : testCase :=
  mkTestCase ∅ ∅
    (<[1%nat := plainTable "t2" "45" [] []]> (<[0%nat := plainTable "t1" "44" [] []]> ∅))
    ∅ ∅
    (<[1%nat := mkTask 0 ddlTruncateTable (Some 1%nat) None None "TRUNCATE TABLE `t2`"
                  ArgNil None]>
       (<[0%nat := mkTask 0 ddlTruncateTable (Some 0%nat) None None "TRUNCATE TABLE `t1`"
                     ArgNil None]> ∅))
    (<["t2" := 1%nat]> (<["t1" := 0%nat]> ∅)) ∅ ∅ [historyDB] 40 "test" [].

Definition sortedCase : testCase :=
  match getSortTask twoTablesCase historyDB [0%nat; 1%nat] with
  | Ret (c', _, _) => c'
  | _ => twoTablesCase
  end.

(** The batch of the comment above [getHistoryDDLJobs]: two drop-column
    tasks on the same table [t1], and the two rows of its history. *)
Definition sameTargetDB : DB :=
  mkDB (fun _ => None)
       (Rows [["47"; "test"; "t1"; "drop column"; "none"; "1"; "44"; "0";
               "2018-07-13 13:13:55.57 +0800 CST"; "synced"];
              ["46"; "test"; "t1"; "drop column"; "none"; "1"; "44"; "0";
               "2018-07-13 13:13:52.523 +0800 CST"; "synced"]])
       (fun _ => None).

Definition dropC1Task : ddlJobTask :=
  mkTask 0 ddlDropColumn (Some 0%nat) None None "ALTER TABLE `t1` DROP COLUMN `c1`"
    (ArgColumn (mkColumnArg 0 None (Some 0%nat) ddlTestAddDropColumnStrategyAtBeginning None))
    None.

Definition dropC2Task : ddlJobTask :=
  mkTask 0 ddlDropColumn (Some 0%nat) None None "ALTER TABLE `t1` DROP COLUMN `c2`"
    (ArgColumn (mkColumnArg 0 None (Some 1%nat) ddlTestAddDropColumnStrategyAtEnd None))
    None.

Definition sameTargetCase : testCase :=
  mkTestCase
    (<[2%nat := plainColumn "c3" 0]> (<[1%nat := plainColumn "c2" 0]>
       (<[0%nat := plainColumn "c1" 0]> ∅)))
    ∅
    (<[0%nat := plainTable "t1" "44" [0%nat; 1%nat; 2%nat] []]> ∅)
    ∅ ∅
    (<[1%nat := dropC2Task]> (<[0%nat := dropC1Task]> ∅))
    (<["t1" := 0%nat]> ∅) ∅ ∅ [sameTargetDB] 45 "test" [].

(** The new jobs of [historyDB] for a test case that has seen job 40. *)
Definition twoJobs : list ddlJob :=
  [ mkJob 47 "test" "t2" ddlTruncateTable "synced" "45" "1";
    mkJob 46 "test" "t1" ddlTruncateTable "synced" "44" "1" ].

(** ** Further preparers *)

Section MorePreparers.
Context `{External}.

(** [r0] is the draw of the table, [r1] that of the index. *)
Definition prepareDropIndex (r0 r1 : Z) (c : testCase) (taskCh : list ptr)
    : run (testCase * list ptr * option error) :=
  match pickupRandomTable c r0 with
  | None => Ret (c, taskCh, None)
  | Some tp =>
      '(_, table) ← deref (hTables c) (Some tp);
      if Go.len (indexes table) =? 0 then Ret (c, taskCh, None)
      else
        indexToDropIndex ← Go.Intn r1 (Go.len (indexes table));
        ip ← Go.index (indexes table) indexToDropIndex;
        '(_, indexToDrop) ← deref (hIndexes c) (Some ip);
        let sql := "ALTER TABLE `" +:+ tbl_name table +:+ "` DROP INDEX `"
                     +:+ idx_name indexToDrop +:+ "`" in
        let task := mkTask 0 ddlDropIndex (Some tp) None None sql
                      (ArgIndex (mkIndexArg (Some ip))) None in
        let '(c1, ch) := emit task c taskCh in
        Ret (c1, ch, None)
  end.

(** [r0] is the draw of the table, [r1] that of the index, and
    [newIndex] the name [uuid.NewV4().String()] returns. *)
Definition prepareRenameIndex (r0 r1 : Z) (newIndex : string) (c : testCase)
    (taskCh : list ptr) : run (testCase * list ptr * option error) :=
  match pickupRandomTable c r0 with
  | None => Ret (c, taskCh, None)
  | Some tp =>
      '(_, table) ← deref (hTables c) (Some tp);
      if Go.len (indexes table) =? 0 then Ret (c, taskCh, None)
      else
        loc ← Go.Intn r1 (Go.len (indexes table));
        ip ← Go.index (indexes table) loc;
        '(_, ix) ← deref (hIndexes c) (Some ip);
        let sql := "ALTER TABLE `" +:+ tbl_name table +:+ "` RENAME INDEX `"
                     +:+ idx_name ix +:+ "` to `" +:+ newIndex +:+ "`" in
        let task := mkTask 0 ddlRenameIndex (Some tp) None None sql
                      (ArgRenameIndex (mkRenameIndexArg loc newIndex)) None in
        let '(c1, ch) := emit task c taskCh in
        Ret (c1, ch, None)
  end.

Definition MaxShardRowIDBits : Z := 7.

(** [r0] is the draw of the table, [r1] that of the number of bits. *)
Definition prepareShardRowID (r0 r1 : Z) (c : testCase) (taskCh : list ptr)
    : run (testCase * list ptr * option error) :=
  match pickupRandomTable c r0 with
  | None => Ret (c, taskCh, None)
  | Some tp =>
      '(_, table) ← deref (hTables c) (Some tp);
      shardRowId ← Go.Intn r1 MaxShardRowIDBits;
      let sql := "ALTER TABLE `" +:+ tbl_name table +:+ "` SHARD_ROW_ID_BITS = "
                   +:+ pretty shardRowId in
      let task := mkTask 0 ddlShardRowID (Some tp) None None sql (ArgInt shardRowId) None in
      let '(c1, ch) := emit task c taskCh in
      Ret (c1, ch, None)
  end.

End MorePreparers.

(** ** What an operation leaves alone *)

(** The two states hold the same catalog: the same names for tables,
    schemas and views, and the same columns and indexes behind them. *)
Definition sameCatalog (c c' : testCase) : Prop :=
  tables c' = tables c /\ schemas c' = schemas c /\ views c' = views c /\
  hColumns c' = hColumns c /\ hIndexes c' = hIndexes c.

(** The two states have the same connections, the same initial database
    and the same registry. *)
Definition sameSetup (c c' : testCase) : Prop :=
  dbs c' = dbs c /\ initDB c' = initDB c /\ ddlOps c' = ddlOps c.

(** The two states hold the same tasks and the same bookkeeping of the
    dispatcher: the last job id seen, the connections, the registry. *)
Definition sameBookkeeping (c c' : testCase) : Prop :=
  hTasks c' = hTasks c /\ lastDDLID c' = lastDDLID c /\ dbs c' = dbs c /\
  initDB c' = initDB c /\ ddlOps c' = ddlOps c.

(** A history of three rows of ten columns: a new job, a job of a type
    the tool does not know, and a job seen before. *)
Definition mixedHistoryDB : DB :=
  mkDB (fun _ => None)
       (Rows [["52"; "test"; "t1"; "add index"; "public"; "1"; "44"; "0"; "2018-07-13";
               "synced"];
              ["51"; "test"; "t1"; "add foreign key"; "none"; "1"; "44"; "0"; "2018-07-13";
               "synced"];
              ["40"; "test"; "t0"; "drop table"; "none"; "1"; "41"; "0"; "2018-07-12";
               "synced"]])
       (fun _ => None).

(** The two truncate-table tasks of [twoTablesCase], the first of which
    the server has rejected. *)
Definition remoteRejectedCase : testCase :=
  putTask 0%nat
    (mkTask 0 ddlTruncateTable (Some 0%nat) None None "TRUNCATE TABLE `t1`" ArgNil
       (Some (LibError "server" "Error 1105: unknown")))
    twoTablesCase.

(** The state in which the batch of [twoTablesCase] leaves the tool. *)
Definition batchDoneCase : testCase :=
  match execParaDDLSQL twoTablesCase [0%nat; 1%nat] 2 with
  | Ret (c', _, _) => c'
  | _ => twoTablesCase
  end.

(** The table [t(a, b)] and an index [ix(a)] that the table does not
    list yet, with the task that adds it. *)
Definition unindexedCase : testCase :=
  mkTestCase
    (<[1%nat := plainColumn "b" 0]> (<[0%nat := plainColumn "a" 0]> ∅))
    (<[0%nat := mkIndex "ix" "a," [0%nat]]> ∅)
    (<[0%nat := plainTable "t" "44" [0%nat; 1%nat] []]> ∅)
    ∅ ∅ ∅
    (<["t" := 0%nat]> ∅) ∅ ∅ [] 0 "test" [].

Definition addIxTask : ddlJobTask :=
  mkTask 0 ddlAddIndex (Some 0%nat) None None "ALTER TABLE `t` ADD INDEX `ix` (`a`)"
    (ArgIndex (mkIndexArg (Some 0%nat))) None.

(** On [threeColumnCase]: the column [a2] is added after [b]. *)
Definition addAfterTask : ddlJobTask :=
  mkTask 0 ddlAddColumn (Some 0%nat) None None "ALTER TABLE `t` ADD COLUMN `a2` int AFTER `b`"
    (ArgColumn (mkColumnArg 0 None (Some 3%nat) ddlTestAddDropColumnStrategyAtRandom
                  (Some 1%nat))) None.

(** On [indexedColumnCase]: the column [b], which no index refers to,
    is dropped. *)
Definition dropBTask : ddlJobTask :=
  mkTask 0 ddlDropColumn (Some 0%nat) None None "ALTER TABLE `t` DROP COLUMN `b`"
    (ArgColumn (mkColumnArg 0 None (Some 1%nat) ddlTestAddDropColumnStrategyAtEnd None)) None.

(** The table [t(a, g)] whose column [g] is generated from [a], and the
    task that drops [g]. *)
Definition generatedColumnCase : testCase :=
  mkTestCase
    (<[1%nat := mkColumn "g" false "0" [] 0 (Some 0%nat) [] false]>
       (<[0%nat := mkColumn "a" false "0" [] 0 None [1%nat] false]> ∅))
    ∅
    (<[0%nat := plainTable "t" "44" [0%nat; 1%nat] []]> ∅)
    ∅ ∅ ∅
    (<["t" := 0%nat]> ∅) ∅ ∅ [] 0 "test" [].

Definition dropGTask : ddlJobTask :=
  mkTask 0 ddlDropColumn (Some 0%nat) None None "ALTER TABLE `t` DROP COLUMN `g`"
    (ArgColumn (mkColumnArg 0 None (Some 1%nat) ddlTestAddDropColumnStrategyAtEnd None)) None.

Definition truncateTask : ddlJobTask :=
  mkTask 0 ddlTruncateTable (Some 0%nat) None None "TRUNCATE TABLE `t`" ArgNil None.

(** The states in which the preparers of drop index, rename index and
    shard row id leave [indexedColumnCase]. *)
Definition dropIndexPrepared : testCase :=
  match prepareDropIndex 0 0 indexedColumnCase [] with
  | Ret (c', _, _) => c'
  | _ => indexedColumnCase
  end.

Definition renameIndexPrepared : testCase :=
  match prepareRenameIndex 0 0 "ix2" indexedColumnCase [] with
  | Ret (c', _, _) => c'
  | _ => indexedColumnCase
  end.

Definition shardRowIDPrepared : testCase :=
  match prepareShardRowID 0 12 indexedColumnCase [] with
  | Ret (c', _, _) => c'
  | _ => indexedColumnCase
  end.

(** The table [t1] and the object that will stand for it under the name
    [t9], with the task that renames it. *)
Definition renameCase : testCase :=
  mkTestCase ∅ ∅
    (<[1%nat := plainTable "t9" "44" [] []]> (<[0%nat := plainTable "t1" "44" [] []]> ∅))
    ∅ ∅ ∅
    (<["t1" := 0%nat]> ∅) ∅ ∅ [] 0 "test" [].

Definition renameTask : ddlJobTask :=
  mkTask 0 ddlRenameTable (Some 0%nat) None None "ALTER TABLE `t1` RENAME TO `t9`"
    (ArgTable 1%nat) None.

(** The tasks that create and drop the schema [s1] of
    [rejectedSchemaCase]. *)
Definition createS1Task : ddlJobTask :=
  mkTask 0 ddlCreateSchema None (Some 0%nat) None
    "CREATE DATABASE `s1` CHARACTER SET 'utf8' COLLATE 'utf8_bin'" ArgNil None.

Definition dropS1Task : ddlJobTask :=
  mkTask 0 ddlDropSchema None (Some 0%nat) None "DROP DATABASE `s1`" ArgNil None.

(** The table [t(a, b)] with the index [ix(a, b)], the counter of [b]
    having been lost: [a] is referred to once and [b] not at all. *)
Definition staleCounterCase : testCase :=
  mkTestCase
    (<[1%nat := plainColumn "b" 0]> (<[0%nat := plainColumn "a" 1]> ∅))
    (<[0%nat := mkIndex "ix" "a,b," [0%nat; 1%nat]]> ∅)
    (<[0%nat := plainTable "t" "44" [0%nat; 1%nat] [0%nat]]> ∅)
    ∅ ∅ ∅
    (<["t" := 0%nat]> ∅) ∅ ∅ [] 0 "test" [].

(** ** Two preparers without argument to draw *)

Section TablePreparers.
Context `{External}.

(** [r0] is the draw of the table. *)
Definition prepareTruncateTable (r0 : Z) (c : testCase) (taskCh : list ptr)
    : run (testCase * list ptr * option error) :=
  match pickupRandomTable c r0 with
  | None => Ret (c, taskCh, None)
  | Some tp =>
      '(_, tableToTruncate) ← deref (hTables c) (Some tp);
      let sql := "TRUNCATE TABLE `" +:+ tbl_name tableToTruncate +:+ "`" in
      let task := mkTask 0 ddlTruncateTable (Some tp) None None sql ArgNil None in
      let '(c1, ch) := emit task c taskCh in
      Ret (c1, ch, None)
  end.

(** [r0] is the draw of the table and [newComm] the comment
    [uuid.NewV4().String()] returns. *)
Definition prepareModifyTableComment (r0 : Z) (newComm : string) (c : testCase)
    (taskCh : list ptr) : run (testCase * list ptr * option error) :=
  match pickupRandomTable c r0 with
  | None => Ret (c, taskCh, None)
  | Some tp =>
      '(_, table) ← deref (hTables c) (Some tp);
      let sql := "ALTER TABLE `" +:+ tbl_name table +:+ "` COMMENT '" +:+ newComm +:+ "'" in
      let task := mkTask 0 ddlModifyTableComment (Some tp) None None sql
                    (ArgString newComm) None in
      let '(c1, ch) := emit task c taskCh in
      Ret (c1, ch, None)
  end.

End TablePreparers.

(** The states in which these two preparers leave [indexedColumnCase]. *)
Definition truncatePrepared : testCase :=
  match prepareTruncateTable 0 indexedColumnCase [] with
  | Ret (c', _, _) => c'
  | _ => indexedColumnCase
  end.

Definition commentPrepared : testCase :=
  match prepareModifyTableComment 0 "nightly" indexedColumnCase [] with
  | Ret (c', _, _) => c'
  | _ => indexedColumnCase
  end.

(** ** Proof tactics *)

(** Reading a field of a state after a write. *)
Ltac store_simpl :=
  cbn [hColumns hIndexes hTables hSchemas hViews hTasks tables schemas views dbs lastDDLID
       initDB ddlOps putColumn putIndex putTable putSchema putView putTask set_hColumns
       set_hIndexes set_hTables set_hSchemas set_hViews set_hTasks set_tables set_schemas
       set_views set_lastDDLID set_ddlOps].

(** One step of a computation in [run]. *)
Ltac run_step := cbn [mbind run_bind Go.bind].

(** Taking apart a run that is known to return. *)
Ltac run_inv H :=
  repeat match type of H with
  | Ret _ = Ret _ => inversion H; subst; clear H
  | Panic _ = Ret _ => discriminate H
  | Blocked = Ret _ => discriminate H
  | (?m ≫= _) = Ret _ =>
      let E := fresh "E" in
      destruct m eqn:E; cbn [mbind run_bind Go.bind] in H; [|discriminate H|discriminate H]
  | (let '(_, _) := ?x in _) = Ret _ => destruct x
  | (if ?b then _ else _) = Ret _ => let E := fresh "E" in destruct b eqn:E
  | (match ?x with _ => _ end) = Ret _ => let E := fresh "E" in destruct x eqn:E
  end.

(** * Properties *)

Lemma deref_some {A : Type} (h : gmap nat A) (a : ptr) (x : A) :
  h !! a = Some x -> deref h (Some a) = Ret (a, x).
Proof. intros Hx. unfold deref. rewrite Hx. reflexivity. Qed.

(** ** The registry and the order of a generation pass *)














(** ** Reading the history *)

(** A row of fewer than nine columns is refused with the error. *)
Lemma readJobs_short_row (lastID : Z) (row : list string) (rest : list (list string))
    (jobs : list ddlJob) :
  Go.len row < 9 ->
  readJobs lastID (row :: rest) jobs =
    Ret ([], Some (Errorf "%s return error, no enough column return , return row: %s"
                     [FStr showDDLJobs; FRow row])).
Proof.
  intros Hlen. cbn [readJobs].
  destruct (Go.len row <? 9) eqn:E; [reflexivity|].
  apply Z.ltb_ge in E; lia.
Qed.

(** A row of exactly nine columns passes the length test; when its job
    is new and of a known kind, reading its tenth column panics. *)
Lemma readJobs_nine_columns (lastID n : Z) (kind : DDLKind)
    (f0 f1 f2 f3 f4 f5 f6 f7 f8 : string) (rest : list (list string)) (jobs : list ddlJob) :
  Go.Atoi f0 = Some n ->
  lastID < n ->
  mapOfDDLKind !! f3 = Some kind ->
  readJobs lastID ([f0; f1; f2; f3; f4; f5; f6; f7; f8] :: rest) jobs = Panic IndexOutOfRange.
Proof.
  intros Hn Hlt Hk.
  cbn [readJobs].
  change (Go.len [f0; f1; f2; f3; f4; f5; f6; f7; f8] <? 9) with false. cbv iota.
  change (Go.index [f0; f1; f2; f3; f4; f5; f6; f7; f8] 0) with (Ret f0).
  cbn [mbind run_bind Go.bind]. rewrite Hn.
  destruct (n <=? lastID) eqn:E; [apply Z.leb_le in E; lia|].
  change (Go.index [f0; f1; f2; f3; f4; f5; f6; f7; f8] 3) with (Ret f3).
  cbn [mbind run_bind Go.bind]. rewrite Hk.
  reflexivity.
Qed.

(** C9: the code at the failing input.  The history answers with rows
    of nine columns, the first of a new drop-column job: the row passes
    the test [len(row) < 9] and [row[9]] is read out of bounds. *)
Theorem getHistoryDDLJobs_nine_columns_panics :
  getHistoryDDLJobs emptyCase nineColumnDB [] = Panic IndexOutOfRange.
Proof. vm_compute; reflexivity. Qed.

(** ** The comparison of the two outcomes in the parallel dispatcher *)

Section Replay.
Context `{External}.

(** C1, as amended.  After the applier of the first task of the sorted
    batch has run: when its error and the error recorded from the server
    are both [nil] or both set, the loop goes on with the next task;
    when exactly one of them is [nil] and the applier's error is set and
    classified as ignorable, the dispatcher returns [nil] at once;
    in the other cases of exactly one [nil], for a task that carries a
    table, it returns the error made of the statement, the two errors
    and the dump of the table. *)
Theorem replay_compares_outcomes (c c1 : testCase) (tp : ptr) (task : ddlJobTask)
    (e : option error) (rest : list ptr) :
  hTasks c !! tp = Some task ->
  updateTableInfo c task = Ret (c1, e) ->
  (isNil e = isNil (err task) -> replay c (tp :: rest) = replay c1 rest) /\
  (isNil e <> isNil (err task) ->
     (isNil e = false /\ ddlIgnoreError e = true ->
        replay c (tp :: rest) = Ret (c1, None)) /\
     (~ (isNil e = false /\ ddlIgnoreError e = true) ->
        forall bp, tblInfo task = Some bp ->
        replay c (tp :: rest) =
          Ret (c1, Some (Errorf
                 "Error when executing SQL: %s\n, local err: %#v, remote tidb err: %#v\n%s\n"
                 [FStr (sql task); FErr e; FErr (err task);
                  FStr (debugPrintToString c1 bp)])))).
Proof.
  intros Ht Hu.
  cbn [replay]. unfold deref. rewrite Ht. cbn [mbind run_bind Go.bind]. rewrite Hu.
  cbn [mbind run_bind Go.bind].
  destruct (isNil e) eqn:He, (isNil (err task)) eqn:Hr; cbn [negb andb orb].
  - split; [reflexivity|congruence].
  - split; [congruence|]. intros _. split; [intros [? _]; congruence|].
    intros _ bp Hbp. rewrite Hbp. reflexivity.
  - split; [congruence|]. intros _. split.
    + intros [_ Hi]. rewrite Hi. reflexivity.
    + intros Hn bp Hbp. destruct (ddlIgnoreError e) eqn:Hi; [exfalso; apply Hn; auto|].
      rewrite Hbp. reflexivity.
  - split; [reflexivity|congruence].
Qed.

(** Without a table on the task, the same branch faults. *)
Lemma replay_diverging_without_table (c c1 : testCase) (tp : ptr) (task : ddlJobTask)
    (e : option error) (rest : list ptr) :
  hTasks c !! tp = Some task ->
  updateTableInfo c task = Ret (c1, e) ->
  isNil e <> isNil (err task) ->
  ~ (isNil e = false /\ ddlIgnoreError e = true) ->
  tblInfo task = None ->
  replay c (tp :: rest) = Panic NilDereference.
Proof.
  intros Ht Hu Hd Hn Hb.
  cbn [replay]. unfold deref. rewrite Ht. cbn [mbind run_bind Go.bind]. rewrite Hu.
  cbn [mbind run_bind Go.bind].
  destruct (isNil e) eqn:He, (isNil (err task)) eqn:Hr; cbn [negb andb orb]; try congruence.
  - rewrite Hb. reflexivity.
  - destruct (ddlIgnoreError e) eqn:Hi; [exfalso; apply Hn; auto|].
    rewrite Hb. reflexivity.
Qed.

End Replay.

(** [replay_compares_outcomes] at a task whose applier and server both
    accept. *)
Lemma replay_compares_outcomes_witness :
  let task := mkTask 0 ddlCreateSchema None (Some 0%nat) None
                "CREATE DATABASE `s1` CHARACTER SET 'utf8' COLLATE 'utf8_bin'" ArgNil None in
  let c1 := set_schemas (<["s1" := 0%nat]> ∅) rejectedSchemaCase in
  (isNil None = isNil (err task) -> replay rejectedSchemaCase [0%nat] = replay c1 []) /\
  (isNil None <> isNil (err task) ->
     (isNil None = false /\ ddlIgnoreError None = true ->
        replay rejectedSchemaCase [0%nat] = Ret (c1, None)) /\
     (~ (isNil None = false /\ ddlIgnoreError None = true) ->
        forall bp, tblInfo task = Some bp ->
        replay rejectedSchemaCase [0%nat] =
          Ret (c1, Some (Errorf
                 "Error when executing SQL: %s\n, local err: %#v, remote tidb err: %#v\n%s\n"
                 [FStr (sql task); FErr None; FErr (err task);
                  FStr (debugPrintToString c1 bp)])))).
Proof.
  intros task c1.
  apply (replay_compares_outcomes rejectedSchemaCase c1 0%nat task None []).
  - reflexivity.
  - reflexivity.
Defined.

(** C1, as stated, fails: the applier of a drop-table task reports that
    the table is gone, the server had accepted the statement, so exactly
    one of the two errors is [nil]; the applier's error being classified
    as ignorable, the dispatcher returns [nil] and no divergence is
    reported. *)
Lemma replay_ignorable_local_error_is_silent :
  hTasks goneTableCase !! 0%nat = Some goneTask /\
  updateTableInfo goneTableCase goneTask =
    Ret (goneTableCase, Some (Errorf "table %s is not exists" [FStr "t1"])) /\
  err goneTask = None /\
  replay goneTableCase [0%nat] = Ret (goneTableCase, None).
Proof. repeat split; vm_compute; reflexivity. Qed.

(** C10: the code at the failing input.  The only task of the batch
    creates a schema; the server rejects it, the applier accepts it, and
    building the error reads the dump of a table the task does not
    have. *)
Theorem execParaDDLSQL_schema_divergence_panics :
  execParaDDLSQL rejectedSchemaCase [0%nat] 1 = Panic NilDereference.
Proof. vm_compute; reflexivity. Qed.

(** The serial dispatcher tests the table first and reports the same
    rejection as an error. *)
Lemma execSerialDDLSQL_schema_rejection_reported :
  execSerialDDLSQL rejectedSchemaCase [0%nat] =
    Ret (rejectedSchemaCase, [],
         Some (Errorf "Error when executing SQL: %s\n remote tidb Err: %#v\n"
                 [FStr "CREATE DATABASE `s1` CHARACTER SET 'utf8' COLLATE 'utf8_bin'";
                  FErr (Some (LibError "server" "Error 1105: unknown"))])).
Proof. vm_compute; reflexivity. Qed.

(** ** The eligibility rules of the two preparers *)

Section PreparerRules.
Context `{External}.

(** C8, as amended.  [prepareDropTable] emits nothing and changes
    nothing when the table map has at most one entry or no table was
    picked; with more than one entry in the map, tombstoned tables
    counting like the others, and a table picked, it marks that table
    deleted and emits the drop-table task for it. *)
Theorem prepareDropTable_gate (r : Z) (c : testCase) (taskCh : list ptr) :
  (Z.of_nat (size (tables c)) <= 1 \/ pickupRandomTable c r = None ->
   prepareDropTable r c taskCh = Ret (c, taskCh, None)) /\
  (forall (tp : ptr) (table : ddlTestTable),
     1 < Z.of_nat (size (tables c)) ->
     pickupRandomTable c r = Some tp ->
     hTables c !! tp = Some table ->
     let c1 := putTable tp (withDeleted 1 table) c in
     let a := fresh (dom (hTasks c1)) in
     prepareDropTable r c taskCh =
       Ret (putTask a (mkTask 0 ddlDropTable (Some tp) None None
                         ("DROP TABLE `" +:+ tbl_name table +:+ "`") ArgNil None) c1,
            taskCh ++ [a], None)).
Proof.
  split.
  - intros [Hsz|Hp]; unfold prepareDropTable.
    + apply Z.leb_le in Hsz. rewrite Hsz. reflexivity.
    + rewrite Hp. rewrite orb_true_r. reflexivity.
  - intros tp table Hsz Hp Ht c1 a. unfold prepareDropTable.
    rewrite Hp.
    destruct (Z.of_nat (size (tables c)) <=? 1) eqn:E; [apply Z.leb_le in E; lia|].
    cbn [orb]. rewrite bool_decide_eq_false_2 by discriminate.
    unfold table_setDeleted, deref. rewrite Ht. run_step. store_simpl.
    rewrite lookup_insert_eq. run_step. reflexivity.
Qed.

(** C4.  With a table picked, [prepareDropColumn] returns without a
    task and without any change to the state, so without tombstone on
    the column, when the table has at most one live column, and when the
    column it selects is part of the primary key, has generated columns
    depending on it, or has a positive index reference count. *)
Theorem prepareDropColumn_protects (r0 r1 r2 : Z) (c : testCase) (taskCh : list ptr)
    (tp : ptr) (table : ddlTestTable) :
  pickupRandomTable c r0 = Some tp ->
  hTables c !! tp = Some table ->
  (Go.len (filterColumns c tp (predicateAll c tp)) <= 1 ->
   prepareDropColumn r0 r1 r2 c taskCh = Ret (c, taskCh, None)) /\
  (forall (strategy : Z) (dp : ptr) (columnToDrop : ddlTestColumn),
     selectColumnToDrop r1 r2 table = Ret (strategy, Some dp) ->
     hColumns c !! dp = Some columnToDrop ->
     isPrimaryKey columnToDrop = true \/ hasGenerateCol c dp = true
       \/ 0 < indexReferences columnToDrop ->
     prepareDropColumn r0 r1 r2 c taskCh = Ret (c, taskCh, None)).
Proof.
  intros Hp Ht. unfold prepareDropColumn. rewrite Hp.
  rewrite (deref_some _ _ _ Ht). run_step.
  split.
  - intros Hlen. apply Z.leb_le in Hlen. rewrite Hlen. reflexivity.
  - intros strategy dp columnToDrop Hsel Hc Hprot.
    destruct (Go.len (filterColumns c tp (predicateAll c tp)) <=? 1); [reflexivity|].
    rewrite Hsel. run_step. rewrite (deref_some _ _ _ Hc). run_step.
    destruct (isPrimaryKey columnToDrop); [reflexivity|].
    destruct (hasGenerateCol c dp); [reflexivity|].
    destruct Hprot as [Hk|[Hg|Hr]]; try discriminate.
    apply Z.gtb_lt in Hr. rewrite Hr. reflexivity.
Qed.

End PreparerRules.

(** [prepareDropTable_gate] on an empty catalog. *)
Lemma prepareDropTable_gate_witness :
  prepareDropTable 0 emptyCase [] = Ret (emptyCase, [], None).
Proof.
  apply (proj1 (prepareDropTable_gate 0 emptyCase [])).
  left. vm_compute. discriminate.
Defined.

(** C8, as stated, fails: of the two tables of the catalog one carries a
    tombstone, so a single table is live; the map has two entries all
    the same, the live table is picked, marked deleted, and the task
    that drops it is emitted. *)
Lemma prepareDropTable_drops_last_live_table :
  liveTables oneLiveTableCase = [1%nat] /\
  prepareDropTable 0 oneLiveTableCase [] =
    Ret (putTask 0%nat (mkTask 0 ddlDropTable (Some 1%nat) None None "DROP TABLE `b`" ArgNil None)
           (putTable 1%nat (withDeleted 1 (plainTable "b" "45" [] [])) oneLiveTableCase),
         [0%nat], None) /\
  liveTables (putTable 1%nat (withDeleted 1 (plainTable "b" "45" [] [])) oneLiveTableCase) = [].
Proof. repeat split; vm_compute; reflexivity. Qed.

(** [prepareDropColumn_protects] on scenario S2: the first column of
    [t(a, b)] is indexed by [ix(a)] and is not dropped. *)
Lemma prepareDropColumn_protects_witness :
  prepareDropColumn 0 0 0 indexedColumnCase [] = Ret (indexedColumnCase, [], None).
Proof.
  refine (proj2 (prepareDropColumn_protects 0 0 0 indexedColumnCase [] 0%nat
                   (plainTable "t" "44" [0%nat; 1%nat] [0%nat]) _ _)
            1 0%nat (plainColumn "a" 1) _ _ _).
  - reflexivity.
  - reflexivity.
  - reflexivity.
  - reflexivity.
  - right; right. simpl. lia.
Defined.

(** ** Arithmetic and list facts used by the appliers *)

Lemma wrap_id (n : Z) : Go.min_int <= n <= Go.max_int -> Go.wrap n = n.
Proof.
  unfold Go.min_int, Go.max_int, Go.wrap. intros Hn.
  rewrite Z.mod_small; lia.
Qed.

Lemma len_app {A : Type} (l1 l2 : list A) : Go.len (l1 ++ l2) = Go.len l1 + Go.len l2.
Proof. unfold Go.len. rewrite length_app. lia. Qed.

Lemma len_nonneg {A : Type} (l : list A) : 0 <= Go.len l.
Proof. unfold Go.len. lia. Qed.

Lemma drop_after_middle {A : Type} (l1 l2 : list A) (x : A) :
  drop (S (length l1)) (l1 ++ x :: l2) = l2.
Proof. induction l1 as [|y l1 IH]; [reflexivity|exact IH]. Qed.

Lemma within_middle {A : Type} (l1 l2 : list A) (x : A) :
  (0 <=? Go.len l1) && (Go.len l1 <? Go.len (l1 ++ x :: l2)) = true.
Proof.
  apply andb_true_iff; split; [apply Z.leb_le|apply Z.ltb_lt];
    unfold Go.len; rewrite ?length_app; cbn [length]; lia.
Qed.

Lemma Remove_middle {A : Type} (l1 l2 : list A) (x : A) :
  arraylist.Remove (l1 ++ x :: l2) (Go.len l1) = l1 ++ l2.
Proof.
  unfold arraylist.Remove, arraylist.withinRange, arraylist.Size.
  rewrite within_middle. unfold Go.len. rewrite Nat2Z.id.
  rewrite take_app_length, drop_after_middle. reflexivity.
Qed.

Lemma Insert_middle {A : Type} (l1 l2 : list A) (x : A) :
  arraylist.Insert (l1 ++ l2) (Go.len l1) x = l1 ++ x :: l2.
Proof.
  unfold arraylist.Insert, arraylist.withinRange, arraylist.Size, arraylist.Add.
  destruct l2 as [|y l2].
  - rewrite app_nil_r.
    replace (Go.len l1 <? Go.len l1) with false by (symmetry; apply Z.ltb_ge; lia).
    rewrite andb_false_r, Z.eqb_refl. reflexivity.
  - rewrite within_middle. unfold Go.len. rewrite Nat2Z.id.
    rewrite take_app_length, drop_app_length. reflexivity.
Qed.

Lemma removeAt_middle {A : Type} (l1 l2 : list A) (x : A) :
  Go.removeAt (l1 ++ x :: l2) (Go.len l1) = Ret (l1 ++ l2).
Proof.
  unfold Go.removeAt. rewrite within_middle. unfold Go.len. rewrite Nat2Z.id.
  rewrite take_app_length, drop_after_middle. reflexivity.
Qed.

(** The search loops. *)
Lemma findFirst_absent {A : Type} (h : gmap nat A) (p : A -> bool) (l : list ptr) (i dflt : Z) :
  Forall (fun a => exists x, h !! a = Some x /\ p x = false) l ->
  findFirst h p l i dflt = Ret dflt.
Proof.
  intros HF; revert i; induction HF as [|a l [x [Hx Hp]] HF IH]; intros i; simpl.
  - reflexivity.
  - unfold deref. rewrite Hx. cbn [mbind run_bind Go.bind]. rewrite Hp. apply IH.
Qed.

Lemma findFirst_first {A : Type} (h : gmap nat A) (p : A -> bool) (l1 l2 : list ptr)
    (a : ptr) (x : A) (i dflt : Z) :
  Forall (fun a => exists x, h !! a = Some x /\ p x = false) l1 ->
  h !! a = Some x -> p x = true ->
  findFirst h p (l1 ++ a :: l2) i dflt = Ret (i + Go.len l1).
Proof.
  intros HF Hx Hp; revert i; induction HF as [|b l1 [y [Hy Hq]] HF IH]; intros i; simpl.
  - unfold deref. rewrite Hx. cbn [mbind run_bind Go.bind]. rewrite Hp.
    unfold Go.len; simpl. f_equal. lia.
  - unfold deref. rewrite Hy. cbn [mbind run_bind Go.bind]. rewrite Hq.
    rewrite IH. unfold Go.len; simpl. f_equal. lia.
Qed.

(** The search over a column list.  On a list without [nil] it is the
    search above. *)
Lemma findFirstColumn_fmap {A : Type} (h : gmap nat A) (p : A -> bool) (l : list ptr) :
  forall i dflt : Z, findFirstColumn h p (Some <$> l) i dflt = findFirst h p l i dflt.
Proof.
  induction l as [|a l IH]; intros i dflt; cbn [fmap list_fmap findFirstColumn findFirst].
  - reflexivity.
  - destruct (deref h (Some a)) as [[b x]| |]; run_step; try reflexivity.
    destruct (p x); [reflexivity|apply IH].
Qed.

Lemma findFirstColumn_absent (c : testCase) (p : ddlTestColumn -> bool)
    (l : list (option ptr)) (i dflt : Z) :
  Forall (fun a => exists x, columnAt c a = Some x /\ p x = false) l ->
  findFirstColumn (hColumns c) p l i dflt = Ret dflt.
Proof.
  intros HF; revert i; induction HF as [|a l [x [Hx Hp]] HF IH]; intros i;
    cbn [findFirstColumn].
  - reflexivity.
  - destruct a as [a|]; [|discriminate Hx]. cbn [columnAt] in Hx.
    rewrite (deref_some _ _ _ Hx). run_step. rewrite Hp. apply IH.
Qed.

Lemma findFirstColumn_first (c : testCase) (p : ddlTestColumn -> bool)
    (l1 l2 : list (option ptr)) (a : option ptr) (x : ddlTestColumn) (i dflt : Z) :
  Forall (fun a => exists x, columnAt c a = Some x /\ p x = false) l1 ->
  columnAt c a = Some x -> p x = true ->
  findFirstColumn (hColumns c) p (l1 ++ a :: l2) i dflt = Ret (i + Go.len l1).
Proof.
  intros HF Hx Hp; revert i; induction HF as [|b l1 [y [Hy Hq]] HF IH]; intros i;
    cbn [app findFirstColumn].
  - destruct a as [a|]; [|discriminate Hx]. cbn [columnAt] in Hx.
    rewrite (deref_some _ _ _ Hx). run_step. rewrite Hp.
    unfold Go.len; simpl. f_equal. lia.
  - destruct b as [b|]; [|discriminate Hy]. cbn [columnAt] in Hy.
    rewrite (deref_some _ _ _ Hy). run_step. rewrite Hq.
    rewrite IH. unfold Go.len; simpl. f_equal. lia.
Qed.

Lemma len_fmap {A B : Type} (f : A -> B) (l : list A) : Go.len (f <$> l) = Go.len l.
Proof. unfold Go.len. rewrite length_fmap. reflexivity. Qed.

Lemma putTable_putTable (tp : ptr) (t1 t2 : ddlTestTable) (c : testCase) :
  putTable tp t2 (putTable tp t1 c) = putTable tp t2 c.
Proof.
  unfold putTable, set_hTables; simpl. rewrite insert_insert_eq. reflexivity.
Qed.

(** Distinct names: what the search for a name meets in such a list. *)
Lemma distinctColumns_others (c : testCase) (l1 l2 : list ptr) (a : ptr) (x : ddlTestColumn) :
  distinctColumns c (l1 ++ a :: l2) ->
  hColumns c !! a = Some x ->
  Forall (fun b => exists y, hColumns c !! b = Some y /\
                             String.eqb (col_name y) (col_name x) = false) (l1 ++ l2).
Proof.
  intros [Hall Hnd] Hx.
  rewrite fmap_app, fmap_cons in Hnd. rewrite Hx in Hnd. cbn [fmap option_fmap option_map] in Hnd.
  apply NoDup_app in Hnd as (_ & Hl1 & Hnd2). apply NoDup_cons in Hnd2 as [Hl2 _].
  apply Forall_app in Hall as [Hall1 Hall2]. apply Forall_cons in Hall2 as [_ Hall2].
  apply Forall_app; split.
  - apply Forall_forall. intros b Hb.
    rewrite Forall_forall in Hall1. destruct (Hall1 b Hb) as [y Hy].
    exists y; split; [exact Hy|]. apply String.eqb_neq. intros Heq.
    apply (Hl1 (Some (col_name y))).
    + apply list_elem_of_fmap. exists b. rewrite Hy. split; [reflexivity|exact Hb].
    + rewrite Heq. apply list_elem_of_here.
  - apply Forall_forall. intros b Hb.
    rewrite Forall_forall in Hall2. destruct (Hall2 b Hb) as [y Hy].
    exists y; split; [exact Hy|]. apply String.eqb_neq. intros Heq.
    apply Hl2. rewrite <- Heq.
    apply list_elem_of_fmap. exists b. rewrite Hy. split; [reflexivity|exact Hb].
Qed.

Lemma distinctColumns_remove (c : testCase) (l1 l2 : list ptr) (a : ptr) :
  distinctColumns c (l1 ++ a :: l2) -> distinctColumns c (l1 ++ l2).
Proof.
  intros [Hall Hnd]. split.
  - apply Forall_app in Hall as [H1 H2]. apply Forall_cons in H2 as [_ H2].
    apply Forall_app; split; assumption.
  - rewrite fmap_app, fmap_cons in Hnd. rewrite fmap_app.
    apply NoDup_app in Hnd as (Hn1 & Hd & Hn2). apply NoDup_cons in Hn2 as [_ Hn2].
    apply NoDup_app. split; [exact Hn1|]. split; [|exact Hn2].
    intros y Hy Hy2. apply (Hd y Hy). apply list_elem_of_further. exact Hy2.
Qed.

(** ** The appliers of modify column and drop index *)

Section ApplierProperties.
Context `{External}.

(** X25.  A modify-column task whose table is in the catalog and whose
    original column is still there.  The column at the recorded index
    is taken out first, whatever column that is, and the pointer of the
    new column goes into what remains: in front for FIRST, at the end
    for the last position.  For AFTER X, when the recorded index is the
    position of the original column and the columns bear distinct
    names, X is looked up in what remains ([before ++ after]) and the
    new column is put right behind it; when X is the modified column
    itself the new column takes its place and the order does not
    change. *)
Lemma modifyColumnJob_order (c : testCase) (task : ddlJobTask) (tp : ptr)
    (table : ddlTestTable) (a : ddlColumnJobArg) (op : ptr) (orig : ddlTestColumn) :
  tblInfo task = Some tp ->
  hTables c !! tp = Some table ->
  isTableDeleted c tp = false ->
  arg task = ArgColumn a ->
  origColumn a = Some op ->
  hColumns c !! op = Some orig ->
  isColumnDeleted c op tp = false ->
  let removed := arraylist.Remove (columns table) (origColumnIndex a) in
  (strategy a = ddlTestAddDropColumnStrategyAtBeginning ->
   modifyColumnJob c task
     = Ret (putTable tp (withColumns (column a :: removed) table) c, None)) /\
  (strategy a = ddlTestAddDropColumnStrategyAtEnd ->
   modifyColumnJob c task
     = Ret (putTable tp (withColumns (removed ++ [column a]) table) c, None)) /\
  (strategy a = ddlTestAddDropColumnStrategyAtRandom ->
   forall before after : list ptr,
   columns table = Some <$> (before ++ op :: after) ->
   origColumnIndex a = Go.len before ->
   Go.len (columns table) <= Go.max_int ->
   distinctColumns c (before ++ op :: after) ->
   removed = Some <$> (before ++ after) /\
   forall xp : ptr, insertAfterColumn a = Some xp ->
     (xp = op ->
      modifyColumnJob c task
        = Ret (putTable tp (withColumns ((Some <$> before) ++ column a :: (Some <$> after))
                              table) c, None)) /\
     (forall l1 l2 : list ptr, before ++ after = l1 ++ xp :: l2 ->
      modifyColumnJob c task
        = Ret (putTable tp (withColumns ((Some <$> l1) ++ Some xp :: column a :: (Some <$> l2))
                              table) c, None))).
Proof.
  intros Htb Ht Hlive Harg Hop Horig Hcol removed.
  assert (Hhead : modifyColumnJob c task =
    let c1 := putTable tp (withColumns removed table) c in
    if strategy a =? ddlTestAddDropColumnStrategyAtBeginning then
      Ret (putTable tp (withColumns (arraylist.Insert removed 0 (column a)) table) c1, None)
    else if strategy a =? ddlTestAddDropColumnStrategyAtEnd then
      Ret (putTable tp (withColumns (arraylist.Add removed (column a)) table) c1, None)
    else if strategy a =? ddlTestAddDropColumnStrategyAtRandom then
      insertPosition ←
        match removed with
        | [] => Ret (Go.sub (origColumnIndex a) 1)
        | _ =>
            '(_, x) ← deref (hColumns c1) (insertAfterColumn a);
            findFirstColumn (hColumns c1) (fun col => String.eqb (col_name col) (col_name x))
              removed 0 (Go.sub (origColumnIndex a) 1)
        end;
      Ret (putTable tp (withColumns
                          (arraylist.Insert removed (Go.add insertPosition 1) (column a))
                          table) c1,
           None)
    else Ret (c1, None)).
  { unfold modifyColumnJob. rewrite Htb, (deref_some _ _ _ Ht). run_step.
    rewrite Hlive, Harg. cbn [asColumn]. run_step.
    rewrite Hop, (deref_some _ _ _ Horig). run_step.
    rewrite Hcol. reflexivity. }
  rewrite Hhead. cbv zeta. clear Hhead.
  split; [|split].
  - intros Hs. rewrite Hs. cbn [Z.eqb ddlTestAddDropColumnStrategyAtBeginning Pos.eqb].
    rewrite putTable_putTable.
    rewrite (Insert_middle [] removed (column a)
               : arraylist.Insert removed 0 (column a) = _).
    reflexivity.
  - intros Hs. rewrite Hs. cbn [Z.eqb ddlTestAddDropColumnStrategyAtBeginning
      ddlTestAddDropColumnStrategyAtEnd Pos.eqb]. rewrite putTable_putTable. reflexivity.
  - intros Hs before after Hcols Hidx Hmax Hdist.
    assert (Hrem : removed = Some <$> (before ++ after)).
    { subst removed. rewrite Hcols, Hidx, fmap_app, fmap_cons, fmap_app.
      rewrite <- (len_fmap Some before). apply Remove_middle. }
    split; [exact Hrem|]. rewrite Hrem. clear Hrem removed.
    assert (Hlen : Go.len before + Go.len after + 1 <= Go.max_int).
    { rewrite Hcols, len_fmap, len_app in Hmax. unfold Go.len in *. cbn [length] in Hmax.
      lia. }
    intros xp Hxp. rewrite Hs. cbn [Z.eqb ddlTestAddDropColumnStrategyAtRandom
      ddlTestAddDropColumnStrategyAtBeginning ddlTestAddDropColumnStrategyAtEnd Pos.eqb].
    rewrite Hidx, Hxp.
    assert (Hsub : Go.sub (Go.len before) 1 = Go.len before - 1).
    { unfold Go.sub. apply wrap_id. pose proof (len_nonneg before).
      pose proof (len_nonneg after). unfold Go.min_int, Go.max_int in *. lia. }
    assert (Hadd : Go.add (Go.len before - 1) 1 = Go.len before).
    { unfold Go.add. replace (Go.len before - 1 + 1) with (Go.len before) by lia.
      apply wrap_id. pose proof (len_nonneg before). pose proof (len_nonneg after).
      unfold Go.min_int, Go.max_int in *. lia. }
    split.
    + intros ->.
      assert (Hpos : (match Some <$> (before ++ after) with
               | [] => Ret (Go.sub (Go.len before) 1)
               | _ :: _ =>
                   '(_, x) ← deref
                      (hColumns (putTable tp (withColumns (Some <$> (before ++ after)) table) c))
                      (Some op);
                   findFirstColumn
                     (hColumns (putTable tp (withColumns (Some <$> (before ++ after)) table) c))
                     (fun col => String.eqb (col_name col) (col_name x))
                     (Some <$> (before ++ after)) 0 (Go.sub (Go.len before) 1)
               end) = Ret (Go.len before - 1)).
      { destruct (Some <$> (before ++ after)) eqn:E; [rewrite Hsub; reflexivity|]. rewrite <- E.
        store_simpl. rewrite (deref_some _ _ _ Horig). run_step.
        rewrite findFirstColumn_fmap.
        rewrite findFirst_absent; [rewrite Hsub; reflexivity|].
        apply (distinctColumns_others c before after op orig Hdist Horig). }
      rewrite Hpos. run_step. rewrite Hadd, putTable_putTable.
      rewrite fmap_app, <- (len_fmap Some before), Insert_middle. reflexivity.
    + intros l1 l2 Hsplit.
      pose proof (distinctColumns_remove c before after op Hdist) as Hrem.
      rewrite Hsplit in Hrem |- *.
      destruct Hrem as [Hall Hnd].
      assert (Hx : is_Some (hColumns c !! xp)).
      { rewrite Forall_forall in Hall. apply Hall.
        apply elem_of_app; right; apply list_elem_of_here. }
      destruct Hx as [x Hx].
      pose proof (distinctColumns_others c l1 l2 xp x (conj Hall Hnd) Hx) as HF.
      apply Forall_app in HF as [HF _].
      assert (Hpos : (match Some <$> (l1 ++ xp :: l2) with
               | [] => Ret (Go.sub (Go.len before) 1)
               | _ :: _ =>
                   '(_, x0) ← deref
                      (hColumns (putTable tp (withColumns (Some <$> (l1 ++ xp :: l2)) table) c))
                      (Some xp);
                   findFirstColumn
                     (hColumns (putTable tp (withColumns (Some <$> (l1 ++ xp :: l2)) table) c))
                     (fun col => String.eqb (col_name col) (col_name x0))
                     (Some <$> (l1 ++ xp :: l2)) 0 (Go.sub (Go.len before) 1)
               end) = Ret (Go.len l1)).
      { destruct (Some <$> (l1 ++ xp :: l2)) eqn:E; [destruct l1; discriminate|]. rewrite <- E.
        store_simpl. rewrite (deref_some _ _ _ Hx). run_step.
        rewrite findFirstColumn_fmap.
        rewrite (findFirst_first _ _ l1 l2 xp x 0).
        - f_equal.
        - exact HF.
        - exact Hx.
        - apply String.eqb_refl. }
      rewrite Hpos. run_step. rewrite putTable_putTable.
      assert (Hl : Go.add (Go.len l1) 1 = Go.len (Some <$> (l1 ++ [xp]))).
      { rewrite len_fmap, len_app. unfold Go.add. apply wrap_id.
        assert (Go.len l1 + Go.len (xp :: l2) = Go.len before + Go.len after)
          by (rewrite <- !len_app; f_equal; symmetry; exact Hsplit).
        pose proof (len_nonneg l1). pose proof (len_nonneg l2).
        unfold Go.len in *. cbn [length] in *. unfold Go.min_int, Go.max_int in *. lia. }
      rewrite Hl.
      replace (Some <$> (l1 ++ xp :: l2)) with ((Some <$> (l1 ++ [xp])) ++ (Some <$> l2))
        by (rewrite <- fmap_app, <- app_assoc; reflexivity).
      rewrite Insert_middle. rewrite fmap_app, <- app_assoc. reflexivity.
Qed.

(** The decrement loop on columns that can all give one reference. *)
Lemma decrementReferences_all (cols : list ptr) :
  forall c : testCase,
  NoDup cols ->
  Forall (fun cp => exists col, hColumns c !! cp = Some col /\
                                1 <= indexReferences col <= Go.max_int) cols ->
  exists h' : gmap nat ddlTestColumn,
    decrementReferences c cols = Ret (set_hColumns h' c, None) /\
    (forall cp col, cp ∈ cols -> hColumns c !! cp = Some col ->
       h' !! cp = Some (withIndexReferences (indexReferences col - 1) col)) /\
    (forall cp, cp ∉ cols -> h' !! cp = hColumns c !! cp).
Proof.
  induction cols as [|cp rest IH]; intros c Hnd HF.
  - exists (hColumns c). split; [destruct c; reflexivity|].
    split; [intros cp col Hin; inversion Hin|reflexivity].
  - apply NoDup_cons in Hnd as [Hnotin Hnd].
    apply Forall_cons in HF as [[col [Hcol Hrange]] HF].
    cbn [decrementReferences]. rewrite (deref_some _ _ _ Hcol). run_step.
    assert (Hsub : Go.sub (indexReferences col) 1 = indexReferences col - 1).
    { unfold Go.sub. apply wrap_id. unfold Go.min_int, Go.max_int in *. lia. }
    rewrite Hsub.
    destruct (indexReferences col - 1 <? 0) eqn:E; [apply Z.ltb_lt in E; lia|].
    set (c1 := putColumn cp (withIndexReferences (indexReferences col - 1) col) c).
    destruct (IH c1 Hnd) as (h' & Hrun & Hin & Hout).
    { apply Forall_forall. intros cq Hq. rewrite Forall_forall in HF.
      destruct (HF cq Hq) as [cl [Hcl Hr]]. exists cl. split; [|exact Hr].
      subst c1. store_simpl. rewrite lookup_insert_ne; [exact Hcl|].
      intros ->. contradiction. }
    exists h'. split; [rewrite Hrun; destruct c; reflexivity|]. split.
    + intros cq cl Hq Hcl. apply elem_of_cons in Hq as [->|Hq].
      * rewrite Hout by exact Hnotin. subst c1. store_simpl.
        rewrite lookup_insert_eq. congruence.
      * apply Hin; [exact Hq|]. subst c1. store_simpl.
        rewrite lookup_insert_ne; [exact Hcl|]. intros ->. contradiction.
    + intros cq Hq. rewrite not_elem_of_cons in Hq. destruct Hq as [Hne Hq].
      rewrite Hout by exact Hq. subst c1. store_simpl.
      rewrite lookup_insert_ne; [reflexivity|]. congruence.
Qed.

(** The decrement loop when some column has no reference to give. *)
Lemma decrementReferences_short (cols : list ptr) :
  forall c : testCase,
  NoDup cols ->
  Forall (fun cp => exists col, hColumns c !! cp = Some col /\
                                decrementable (indexReferences col)) cols ->
  Exists (fun cp => exists col, hColumns c !! cp = Some col /\ indexReferences col <= 0) cols ->
  exists (h' : gmap nat ddlTestColumn) (cp : ptr) (col : ddlTestColumn),
    cp ∈ cols /\ hColumns c !! cp = Some col /\ indexReferences col <= 0 /\
    decrementReferences c cols =
      Ret (set_hColumns h' c,
           Some (Errorf "drop index, index.column %s Unexpected index reference"
                   [FStr (col_name col)])).
Proof.
  induction cols as [|cp rest IH]; intros c Hnd HF HE.
  - inversion HE.
  - apply NoDup_cons in Hnd as [Hnotin Hnd].
    apply Forall_cons in HF as [[col [Hcol Hrange]] HF].
    cbn [decrementReferences]. rewrite (deref_some _ _ _ Hcol). run_step.
    assert (Hsub : Go.sub (indexReferences col) 1 = indexReferences col - 1).
    { unfold Go.sub. apply wrap_id. unfold decrementable, Go.min_int, Go.max_int in *. lia. }
    rewrite Hsub.
    destruct (indexReferences col - 1 <? 0) eqn:E.
    + apply Z.ltb_lt in E.
      exists (<[cp := withIndexReferences (indexReferences col - 1) col]> (hColumns c)), cp, col.
      split; [apply list_elem_of_here|]. split; [exact Hcol|]. split; [lia|].
      destruct c; reflexivity.
    + apply Z.ltb_ge in E.
      set (c1 := putColumn cp (withIndexReferences (indexReferences col - 1) col) c).
      assert (Hsame : forall cq, cq ∈ rest -> hColumns c1 !! cq = hColumns c !! cq).
      { intros cq Hq. subst c1. store_simpl. rewrite lookup_insert_ne; [reflexivity|].
        intros ->. contradiction. }
      destruct (IH c1 Hnd) as (h' & cq & cl & Hq & Hcl & Hle & Hrun).
      { apply Forall_forall. intros cq Hq. rewrite Forall_forall in HF.
        destruct (HF cq Hq) as [cl [Hcl Hr]]. exists cl. rewrite Hsame by exact Hq. auto. }
      { apply Exists_cons in HE as [[cl [Hcl Hle]]|HE].
        - rewrite Hcol in Hcl. inversion Hcl; subst cl. lia.
        - apply Exists_exists in HE as (cq & Hq & cl & Hcl & Hle).
          apply Exists_exists. exists cq. split; [exact Hq|]. exists cl.
          rewrite Hsame by exact Hq. auto. }
      exists h', cq, cl. split; [apply list_elem_of_further; exact Hq|].
      split; [rewrite <- Hsame by exact Hq; exact Hcl|]. split; [exact Hle|].
      rewrite Hrun. destruct c; reflexivity.
Qed.

(** C6.  A drop-index task on a table of the catalog whose index list
    holds the index, first at [jp] under the name of the task's index,
    the member columns of that index being distinct objects whose
    counters can be decremented without wrapping.  If some member has no
    reference left, the applier returns the error on the unexpected
    index reference and the tables, so the index list, are as they were.
    Otherwise the applier succeeds, every member's counter is one less
    than before, the other columns are untouched, and the index list has
    lost the entry at [jp]. *)
Theorem dropIndexJob_counts (c : testCase) (task : ddlJobTask) (tp ip jp : ptr)
    (table : ddlTestTable) (ix jx : ddlTestIndex) (l1 l2 : list ptr) :
  tblInfo task = Some tp ->
  hTables c !! tp = Some table ->
  isTableDeleted c tp = false ->
  arg task = ArgIndex (mkIndexArg (Some ip)) ->
  hIndexes c !! ip = Some ix ->
  indexes table = l1 ++ jp :: l2 ->
  hIndexes c !! jp = Some jx ->
  idx_name jx = idx_name ix ->
  Forall (fun p => exists x, hIndexes c !! p = Some x /\ idx_name x <> idx_name ix) l1 ->
  NoDup (idx_columns ix) ->
  Forall (fun cp => exists col, hColumns c !! cp = Some col /\
                                decrementable (indexReferences col)) (idx_columns ix) ->
  (Exists (fun cp => exists col, hColumns c !! cp = Some col /\ indexReferences col <= 0)
     (idx_columns ix) ->
   exists (c' : testCase) (cp : ptr) (col : ddlTestColumn),
     cp ∈ idx_columns ix /\ hColumns c !! cp = Some col /\ indexReferences col <= 0 /\
     dropIndexJob c task =
       Ret (c', Some (Errorf "drop index, index.column %s Unexpected index reference"
                        [FStr (col_name col)])) /\
     hTables c' = hTables c) /\
  (Forall (fun cp => forall col, hColumns c !! cp = Some col -> 1 <= indexReferences col)
     (idx_columns ix) ->
   exists h' : gmap nat ddlTestColumn,
     dropIndexJob c task =
       Ret (putTable tp (withIndexes (l1 ++ l2) table) (set_hColumns h' c), None) /\
     (forall cp col, cp ∈ idx_columns ix -> hColumns c !! cp = Some col ->
        h' !! cp = Some (withIndexReferences (indexReferences col - 1) col)) /\
     (forall cp, cp ∉ idx_columns ix -> h' !! cp = hColumns c !! cp)).
Proof.
  intros Htb Ht Hlive Harg Hix Hsplit Hjx Hname Hl1 Hnd Hrange.
  assert (Hhead : dropIndexJob c task =
    '(c1, e) ← decrementReferences c (idx_columns ix);
    match e with
    | Some _ => Ret (c1, e)
    | None => Ret (putTable tp (withIndexes (l1 ++ l2) table) c1, None)
    end).
  { unfold dropIndexJob. rewrite Htb, (deref_some _ _ _ Ht). run_step.
    rewrite Hlive, Harg. cbn [asIndex]. run_step.
    change (index {| index := Some ip |}) with (Some ip).
    rewrite (deref_some _ _ _ Hix). run_step.
    rewrite Hsplit.
    rewrite (findFirst_first _ _ l1 l2 jp jx 0 (-1)).
    - run_step.
      replace (0 + Go.len l1 =? -1) with false
        by (symmetry; apply Z.eqb_neq; pose proof (len_nonneg l1); lia).
      replace (0 + Go.len l1) with (Go.len l1) by lia.
      destruct (decrementReferences c (idx_columns ix)) as [[c1 [e|]]| |]; run_step;
        try reflexivity.
      rewrite removeAt_middle. reflexivity.
    - eapply Forall_impl; [exact Hl1|]. intros p [x [Hx Hne]]. exists x. split; [exact Hx|].
      apply String.eqb_neq. congruence.
    - exact Hjx.
    - apply String.eqb_eq. congruence. }
  rewrite Hhead. split.
  - intros HE.
    destruct (decrementReferences_short _ c Hnd Hrange HE)
      as (h' & cp & col & Hin & Hcol & Hle & Hrun).
    exists (set_hColumns h' c), cp, col. rewrite Hrun. run_step.
    repeat split; auto.
  - intros Hpos.
    destruct (decrementReferences_all _ c Hnd) as (h' & Hrun & Hin & Hout).
    { rewrite Forall_forall in Hrange, Hpos |- *. intros cp Hcp.
      destruct (Hrange cp Hcp) as [col [Hcol Hd]]. exists col. split; [exact Hcol|].
      specialize (Hpos cp Hcp col Hcol). unfold decrementable in Hd. lia. }
    exists h'. rewrite Hrun. run_step. repeat split; auto.
Qed.

End ApplierProperties.

(** [modifyColumnJob_order] on [t(a, b, c)]: [a] goes after [c]. *)
Lemma modifyColumnJob_order_witness :
  modifyColumnJob threeColumnCase moveAfterTask =
    Ret (putTable 0%nat (withColumns (Some <$> [1%nat; 2%nat; 3%nat])
                           (plainTable "t" "44" [0%nat; 1%nat; 2%nat] []))
           threeColumnCase, None).
Proof.
  refine (proj2 (proj2 (proj2 (proj2
            (modifyColumnJob_order threeColumnCase moveAfterTask 0%nat
               (plainTable "t" "44" [0%nat; 1%nat; 2%nat] [])
               (mkColumnArg 0 (Some 0%nat) (Some 3%nat) ddlTestAddDropColumnStrategyAtRandom
                  (Some 2%nat))
               0%nat (plainColumn "a" 0)
               _ _ _ _ _ _ _)) _ [] [1%nat; 2%nat] _ _ _ _) 2%nat _) [1%nat] [] _).
  - reflexivity.
  - reflexivity.
  - reflexivity.
  - reflexivity.
  - reflexivity.
  - reflexivity.
  - reflexivity.
  - reflexivity.
  - reflexivity.
  - reflexivity.
  - vm_compute. discriminate.
  - split.
    + repeat constructor; eexists; reflexivity.
    + apply (bool_decide_unpack _). vm_compute. reflexivity.
  - reflexivity.
  - reflexivity.
Defined.

(** C5.  The recorded index is not looked up again.  On the batch of
    [staleIndexCase], replayed in the order add column then modify
    column, both appliers succeed: the first turns [t(b, c)] into
    [t(a, b, c)]; the second passes its two guards, takes out the
    column at the recorded index [0], which is now [a], and puts the
    new definition of [b] behind [c].  The table ends as [t(b, c, b')]
    with the old [b] still in it and [a] lost, where the claim gives
    [t(a, c, b')]. *)
Theorem modifyColumnJob_stale_index_removes_another_column :
  exists c1 c2 : testCase,
    updateTableInfo staleIndexCase addFirstTask = Ret (c1, None) /\
    columns <$> hTables c1 !! 0%nat = Some [Some 0%nat; Some 1%nat; Some 2%nat] /\
    isColumnDeleted c1 1%nat 0%nat = false /\
    updateTableInfo c1 staleModifyTask = Ret (c2, None) /\
    columns <$> hTables c2 !! 0%nat = Some [Some 1%nat; Some 2%nat; Some 3%nat].
Proof.
  exists (putTable 0%nat (withColumns (Some <$> [0%nat; 1%nat; 2%nat])
                            (plainTable "t" "44" [1%nat; 2%nat] []))
            (putColumn 0%nat (plainColumn "a" 0) staleIndexCase)).
  exists (putTable 0%nat (withColumns (Some <$> [1%nat; 2%nat; 3%nat])
                            (plainTable "t" "44" [1%nat; 2%nat] []))
            (putColumn 0%nat (plainColumn "a" 0) staleIndexCase)).
  repeat split; vm_compute; reflexivity.
Qed.

(** [dropIndexJob_counts] on scenario S2: dropping [ix(a)] brings the
    counter of [a] from one to zero and empties the index list. *)
Lemma dropIndexJob_counts_witness :
  exists h' : gmap nat ddlTestColumn,
    dropIndexJob indexedColumnCase dropIxTask =
      Ret (putTable 0%nat (withIndexes [] (plainTable "t" "44" [0%nat; 1%nat] [0%nat]))
             (set_hColumns h' indexedColumnCase), None) /\
    (forall cp col, cp ∈ [0%nat] -> hColumns indexedColumnCase !! cp = Some col ->
       h' !! cp = Some (withIndexReferences (indexReferences col - 1) col)) /\
    (forall cp, cp ∉ [0%nat] -> h' !! cp = hColumns indexedColumnCase !! cp).
Proof.
  refine (proj2 (dropIndexJob_counts indexedColumnCase dropIxTask 0%nat 0%nat 0%nat
                   (plainTable "t" "44" [0%nat; 1%nat] [0%nat])
                   (mkIndex "ix" "a," [0%nat]) (mkIndex "ix" "a," [0%nat]) [] []
                   _ _ _ _ _ _ _ _ _ _ _) _).
  - reflexivity.
  - reflexivity.
  - reflexivity.
  - reflexivity.
  - reflexivity.
  - reflexivity.
  - reflexivity.
  - reflexivity.
  - constructor.
  - apply (bool_decide_unpack _). vm_compute. reflexivity.
  - repeat constructor. exists (plainColumn "a" 1). split; [reflexivity|].
    unfold decrementable. vm_compute. split; [reflexivity|discriminate].
  - repeat constructor. intros col Hcol. vm_compute in Hcol. inversion Hcol. simpl. lia.
Defined.

(** ** The order oracle: ids, order and the last id seen *)

Lemma bind_Ret {A B : Type} (m : run A) (f : A -> run B) (b : B) :
  m ≫= f = Ret b -> exists a, m = Ret a /\ f a = Ret b.
Proof. destruct m as [a| |]; run_step; intros Hm; [eauto|discriminate|discriminate]. Qed.

Lemma deref_Ret {A : Type} (h : gmap nat A) (p : option ptr) (a : ptr) (x : A) :
  deref h p = Ret (a, x) -> p = Some a /\ h !! a = Some x.
Proof.
  unfold deref. destruct p as [b|]; [|discriminate].
  destruct (h !! b) eqn:E; [|discriminate]. intros Hr. inversion Hr; subst. auto.
Qed.

(** The jobs kept by [readJobs] are newer than the last id seen. *)
Lemma readJobs_newer (lastID : Z) (actualRows : list (list string)) :
  forall (jobs jobs' : list ddlJob) (e : option error),
  readJobs lastID actualRows jobs = Ret (jobs', e) ->
  Forall (fun job => lastID < id job) jobs ->
  Forall (fun job => lastID < id job) jobs'.
Proof.
  induction actualRows as [|row rest IH]; intros jobs jobs' e Hr HF; cbn [readJobs] in Hr.
  - inversion Hr; subst. exact HF.
  - destruct (Go.len row <? 9); [inversion Hr; constructor|].
    apply bind_Ret in Hr as (r0 & _ & Hr).
    destruct (Go.Atoi r0) as [n|]; [|inversion Hr; constructor].
    destruct (n <=? lastID) eqn:En; [eapply IH; eauto|].
    apply bind_Ret in Hr as (r3 & _ & Hr).
    destruct (mapOfDDLKind !! r3) as [kind|]; [|eapply IH; eauto].
    apply bind_Ret in Hr as (r1 & _ & Hr). apply bind_Ret in Hr as (r2 & _ & Hr).
    apply bind_Ret in Hr as (r5 & _ & Hr). apply bind_Ret in Hr as (r6 & _ & Hr).
    apply bind_Ret in Hr as (r9 & _ & Hr).
    eapply IH; [exact Hr|]. apply Forall_app; split; [exact HF|].
    constructor; [|constructor]. cbn [id]. apply Z.leb_gt in En. exact En.
Qed.

(** A row whose job is not newer than the last id seen is skipped. *)
Lemma readJobs_discards_old (lastID n : Z) (row : list string) (r0 : string)
    (rest : list (list string)) (jobs : list ddlJob) :
  9 <= Go.len row ->
  Go.index row 0 = Ret r0 ->
  Go.Atoi r0 = Some n ->
  n <= lastID ->
  readJobs lastID (row :: rest) jobs = readJobs lastID rest jobs.
Proof.
  intros Hlen H0 Hn Hle. cbn [readJobs].
  destruct (Go.len row <? 9) eqn:E; [apply Z.ltb_lt in E; lia|].
  rewrite H0. run_step. rewrite Hn.
  apply Z.leb_le in Hle. rewrite Hle. reflexivity.
Qed.

(** What one turn of the inner loop changes: nothing, or the id of the
    task, which then joins the sorted slice. *)
Lemma matchTask_effect (job : ddlJob) (c c' : testCase) (st st' : list ptr) (tp : ptr)
    (b : bool) :
  matchTask job c st tp = Ret (c', st', b) ->
  lastDDLID c' = lastDDLID c /\
  ((st' = st /\ hTasks c' = hTasks c) \/
   (exists task, hTasks c !! tp = Some task /\
                 hTasks c' = <[tp := withDdlID (id job) task]> (hTasks c) /\
                 st' = st ++ [tp])).
Proof.
  unfold matchTask. intros Hm.
  apply bind_Ret in Hm as ([a task] & Hd & Hm). apply deref_Ret in Hd as [Ha Ht].
  inversion Ha; subst a. clear Ha.
  run_inv Hm; (split; [reflexivity|]);
    first [ left; split; reflexivity
          | right; exists task; split; [exact Ht|split; reflexivity] ].
Qed.

Lemma ddlIDOf_stamped (c c' : testCase) (tp tq : ptr) (task : ddlJobTask) (n : Z) :
  hTasks c' = <[tp := withDdlID n task]> (hTasks c) ->
  ddlIDOf c' tq = if decide (tp = tq) then n else ddlIDOf c tq.
Proof.
  intros Hh. unfold ddlIDOf. rewrite Hh. destruct (decide (tp = tq)) as [->|Hne].
  - rewrite lookup_insert_eq. reflexivity.
  - rewrite lookup_insert_ne by exact Hne. reflexivity.
Qed.

Lemma matchTask_newer (job : ddlJob) (c c' : testCase) (st st' : list ptr) (tp : ptr)
    (b : bool) (lastID : Z) :
  matchTask job c st tp = Ret (c', st', b) ->
  lastID < id job ->
  Forall (fun p => lastID < ddlIDOf c p) st ->
  lastDDLID c' = lastDDLID c /\ Forall (fun p => lastID < ddlIDOf c' p) st'.
Proof.
  intros Hm Hid HF. apply matchTask_effect in Hm as [Hl [[-> Hh]|(task & Ht & Hh & ->)]].
  - split; [exact Hl|]. eapply Forall_impl; [exact HF|]. intros p Hp.
    unfold ddlIDOf in *. rewrite Hh. exact Hp.
  - split; [exact Hl|]. apply Forall_app; split.
    + eapply Forall_impl; [exact HF|]. intros p Hp.
      cbv beta in Hp.
      rewrite (ddlIDOf_stamped c c' tp p task (id job) Hh). destruct (decide (tp = p)); lia.
    + constructor; [|constructor].
      rewrite (ddlIDOf_stamped c c' tp tp task (id job) Hh).
      destruct (decide (tp = tp)); [lia|contradiction].
Qed.

Lemma matchTasks_newer (job : ddlJob) (lastID : Z) (tasks : list ptr) :
  forall (c c' : testCase) (st st' : list ptr),
  matchTasks job c st tasks = Ret (c', st') ->
  lastID < id job ->
  Forall (fun p => lastID < ddlIDOf c p) st ->
  lastDDLID c' = lastDDLID c /\ Forall (fun p => lastID < ddlIDOf c' p) st'.
Proof.
  induction tasks as [|tp rest IH]; intros c c' st st' Hm Hid HF; cbn [matchTasks] in Hm.
  - inversion Hm; subst. auto.
  - apply bind_Ret in Hm as ([[c1 st1] brk] & Hstep & Hm).
    destruct (matchTask_newer _ _ _ _ _ _ _ lastID Hstep Hid HF) as [Hl HF1].
    destruct brk.
    + inversion Hm; subst. auto.
    + destruct (IH _ _ _ _ Hm Hid HF1) as [Hl2 HF2]. split; [congruence|exact HF2].
Qed.

Lemma matchJobs_newer (lastID : Z) (tasks : list ptr) (jobs : list ddlJob) :
  forall (c c' : testCase) (st st' : list ptr),
  matchJobs jobs tasks c st = Ret (c', st') ->
  Forall (fun job => lastID < id job) jobs ->
  Forall (fun p => lastID < ddlIDOf c p) st ->
  lastDDLID c' = lastDDLID c /\ Forall (fun p => lastID < ddlIDOf c' p) st'.
Proof.
  induction jobs as [|job rest IH]; intros c c' st st' Hm Hjobs HF; cbn [matchJobs] in Hm.
  - inversion Hm; subst. auto.
  - apply Forall_cons in Hjobs as [Hid Hjobs].
    apply bind_Ret in Hm as ([c1 st1] & Hstep & Hm).
    destruct (matchTasks_newer _ lastID _ _ _ _ _ Hstep Hid HF) as [Hl HF1].
    destruct (Go.len st1 =? Go.len tasks).
    + inversion Hm; subst. auto.
    + destruct (IH _ _ _ _ Hm Hjobs HF1) as [Hl2 HF2]. split; [congruence|exact HF2].
Qed.

(** [sort.Sort] returns a sorted rearrangement of its argument. *)
Lemma insertSorted_perm {A : Type} (key : A -> Z) (x : A) (l : list A) :
  Go.insertSorted key x l ≡ₚ x :: l.
Proof.
  induction l as [|y l IH]; cbn [Go.insertSorted]; [reflexivity|].
  destruct (key x <? key y); [reflexivity|].
  rewrite IH. apply Permutation_swap.
Qed.

Lemma insertSorted_sorted {A : Type} (key : A -> Z) (x : A) (l : list A) :
  StronglySorted (fun a b => key a <= key b) l ->
  StronglySorted (fun a b => key a <= key b) (Go.insertSorted key x l).
Proof.
  induction 1 as [|y l Hs IH Hy]; cbn [Go.insertSorted].
  - repeat constructor.
  - destruct (key x <? key y) eqn:E.
    + apply Z.ltb_lt in E. constructor; [constructor; assumption|].
      constructor; [lia|]. eapply Forall_impl; [exact Hy|]. intros z Hz; cbn in *; lia.
    + apply Z.ltb_ge in E. constructor; [exact IH|].
      rewrite insertSorted_perm. constructor; [exact E|exact Hy].
Qed.

Lemma Sort_spec {A : Type} (key : A -> Z) (l : list A) :
  Go.Sort key l ≡ₚ l /\ StronglySorted (fun a b => key a <= key b) (Go.Sort key l).
Proof.
  unfold Go.Sort.
  assert (Hgen : forall acc,
    StronglySorted (fun a b => key a <= key b) acc ->
    foldl (fun acc x => Go.insertSorted key x acc) acc l ≡ₚ acc ++ l /\
    StronglySorted (fun a b => key a <= key b)
      (foldl (fun acc x => Go.insertSorted key x acc) acc l)).
  { induction l as [|x l IH]; intros acc Hacc; cbn [foldl].
    - rewrite app_nil_r. auto.
    - destruct (IH (Go.insertSorted key x acc) (insertSorted_sorted key x acc Hacc))
        as [Hp Hs].
      split; [|exact Hs]. rewrite Hp, insertSorted_perm.
      apply Permutation_middle. }
  apply (Hgen []). constructor.
Qed.

Lemma sorted_last_is_max {A : Type} (key : A -> Z) (l : list A) (m : A) :
  StronglySorted (fun a b => key a <= key b) l ->
  last l = Some m ->
  Forall (fun a => key a <= key m) l.
Proof.
  intros Hs Hl. apply last_Some in Hl as [l' ->].
  apply StronglySorted_app in Hs as (Hcross & _ & _).
  apply Forall_app; split.
  - apply Forall_forall. intros a Ha. apply Hcross; [exact Ha|apply list_elem_of_here].
  - constructor; [lia|constructor].
Qed.

(** C3.  When [getSortTask] succeeds: the jobs it matched against were
    all newer than the last id seen before the call; the tasks come back
    in ascending order of their job ids; each of these ids is newer than
    the old last id and at most the new one; the new last id is the id
    of the last, hence greatest, task returned, and is the old one when
    no task is returned; so the last id seen does not decrease. *)
Theorem getSortTask_order (c c' : testCase) (db : DB) (tasks sorted : list ptr) :
  getSortTask c db tasks = Ret (c', sorted, None) ->
  (exists jobs, getHistoryDDLJobs c db tasks = Ret (jobs, None) /\
                Forall (fun job => lastDDLID c < id job) jobs) /\
  StronglySorted (fun a b => ddlIDOf c' a <= ddlIDOf c' b) sorted /\
  Forall (fun tp => lastDDLID c < ddlIDOf c' tp <= lastDDLID c') sorted /\
  (forall tp, last sorted = Some tp -> lastDDLID c' = ddlIDOf c' tp) /\
  (sorted = [] -> lastDDLID c' = lastDDLID c) /\
  lastDDLID c <= lastDDLID c'.
Proof.
  unfold getSortTask. intros Hg.
  apply bind_Ret in Hg as ([jobs e] & Hjobs & Hg).
  destruct e as [e|]; [inversion Hg|].
  apply bind_Ret in Hg as ([c1 st] & Hmatch & Hg).
  destruct (negb (Go.len st =? Go.len tasks)).
  { apply bind_Ret in Hg as (str & _ & Hg). inversion Hg. }
  assert (Hnew : Forall (fun job => lastDDLID c < id job) jobs).
  { unfold getHistoryDDLJobs in Hjobs. destruct (QueryDDLJobs db) as [e|rows].
    - inversion Hjobs.
    - eapply readJobs_newer; [exact Hjobs|constructor]. }
  destruct (matchJobs_newer (lastDDLID c) tasks jobs c c1 [] st Hmatch Hnew) as [Hl HF];
    [constructor|].
  destruct (Sort_spec (ddlIDOf c1) st) as [Hperm Hsorted].
  set (s := Go.Sort (ddlIDOf c1) st) in *.
  assert (HFs : Forall (fun p => lastDDLID c < ddlIDOf c1 p) s) by (rewrite Hperm; exact HF).
  split; [exists jobs; auto|].
  destruct (last s) as [m|] eqn:Hlast; inversion Hg; subst c' sorted; clear Hg.
  - pose proof (sorted_last_is_max _ _ _ Hsorted Hlast) as Hmax.
    assert (Hm : lastDDLID c < ddlIDOf c1 m).
    { rewrite Forall_forall in HFs. apply HFs. eapply last_Some_elem_of. exact Hlast. }
    split; [exact Hsorted|]. split.
    + apply Forall_forall. intros p Hp. rewrite Forall_forall in HFs, Hmax.
      split; [apply HFs; exact Hp|]. store_simpl. apply Hmax. exact Hp.
    + split; [intros tp Htp; rewrite Hlast in Htp; inversion Htp; subst; reflexivity|].
      split; [intros Hnil; rewrite Hnil in Hlast; discriminate|].
      store_simpl. lia.
  - split; [exact Hsorted|]. split.
    + apply last_None in Hlast. rewrite Hlast. constructor.
    + split; [intros tp Htp; rewrite Hlast in Htp; discriminate|].
      split; [intros _; exact Hl|]. lia.
Qed.

(** [getSortTask_order] on two truncate-table tasks whose jobs the
    history lists newest first. *)
Lemma getSortTask_order_witness :
  StronglySorted (fun a b => ddlIDOf sortedCase a <= ddlIDOf sortedCase b) [0%nat; 1%nat] /\
  lastDDLID twoTablesCase <= lastDDLID sortedCase.
Proof.
  destruct (getSortTask_order twoTablesCase sortedCase historyDB [0%nat; 1%nat]
              [0%nat; 1%nat] ltac:(vm_compute; reflexivity))
    as (_ & Hsorted & _ & _ & _ & Hle).
  split; assumption.
Defined.

(** ** The order oracle: how many pairings, and when it fails *)

Lemma kindEq_false (a b : DDLKind) : a <> b -> kindEq a b = false.
Proof. intros Hne. unfold kindEq. apply bool_decide_eq_false_2. exact Hne. Qed.

Lemma tableTask_stamped (c : testCase) (tp tq : ptr) (task : ddlJobTask) (n : Z) :
  hTasks c !! tp = Some task ->
  tableTask c tq -> tableTask (putTask tp (withDdlID n task) c) tq.
Proof.
  intros Ht (t & bp & tb & Hq & Hb & Htb & Hs & Hv & Hk1 & Hk2).
  destruct (decide (tp = tq)) as [->|Hne].
  - rewrite Ht in Hq. inversion Hq; subst t.
    exists (withDdlID n task), bp, tb. store_simpl. rewrite lookup_insert_eq.
    repeat split; assumption.
  - exists t, bp, tb. store_simpl. rewrite lookup_insert_ne by exact Hne.
    repeat split; assumption.
Qed.

Lemma tableTask_table_id (c : testCase) (bp tq : ptr) (tb : ddlTestTable) (s : string) :
  hTables c !! bp = Some tb ->
  tableTask c tq -> tableTask (putTable bp (withTableId s tb) c) tq.
Proof.
  intros Hb (t & bq & tb' & Hq & Hbq & Htb & Hs & Hv & Hk1 & Hk2).
  destruct (decide (bp = bq)) as [->|Hne].
  - exists t, bq, (withTableId s tb). store_simpl. rewrite lookup_insert_eq.
    repeat split; assumption.
  - exists t, bq, tb'. store_simpl. rewrite lookup_insert_ne by exact Hne.
    repeat split; assumption.
Qed.

(** On a task that carries a table only, a turn of the inner loop
    returns; it either leaves everything as it is and goes on, or pairs
    the task with the job and leaves the loop. *)
Lemma matchTask_tableTask (job : ddlJob) (c : testCase) (st : list ptr) (tp : ptr) :
  tableTask c tp ->
  exists (c' : testCase) (st' : list ptr) (b : bool),
    matchTask job c st tp = Ret (c', st', b) /\
    ((c' = c /\ st' = st /\ b = false) \/ (st' = st ++ [tp] /\ b = true)) /\
    (forall tq, tableTask c tq -> tableTask c' tq).
Proof.
  intros (task & bp & tb & Ht & Hb & Htb & Hs & Hv & Hk1 & Hk2).
  unfold matchTask. rewrite (deref_some _ _ _ Ht). run_step.
  rewrite (kindEq_false _ _ Hk1), (kindEq_false _ _ Hk2). cbn [andb]. rewrite Hb.
  assert (Hkeep : forall tq, tableTask c tq ->
            tableTask (putTask tp (withDdlID (id job) task) c) tq)
    by (intros tq; apply tableTask_stamped; exact Ht).
  destruct (kindEq (task_k task) ddlAddTable && kindEq (k job) ddlAddTable) eqn:Eadd.
  - rewrite (deref_some _ _ _ Htb). run_step.
    destruct (String.eqb (tbl_name tb) (tableName job)); run_step.
    + eexists _, _, _. split; [reflexivity|]. split; [right; auto|].
      intros tq Hq. apply tableTask_table_id; [store_simpl; exact Htb|]. apply Hkeep, Hq.
    + apply andb_true_iff in Eadd as [Ek _]. rewrite Ek. cbn [negb andb].
      eexists _, _, _. split; [reflexivity|]. split; [left; auto|]. auto.
  - run_step.
    destruct (negb (kindEq (task_k task) ddlAddTable) && kindEq (k job) (task_k task)).
    + unfold idIs. rewrite (deref_some _ _ _ Htb). run_step.
      destruct (String.eqb (tbl_id tb) (tableID job)).
      * eexists _, _, _. split; [reflexivity|]. split; [right; auto|]. exact Hkeep.
      * rewrite Hv, Hs. run_step.
        eexists _, _, _. split; [reflexivity|]. split; [left; auto|]. auto.
    + eexists _, _, _. split; [reflexivity|]. split; [left; auto|]. auto.
Qed.

(** A job is paired with at most one task of such a batch. *)
Lemma matchTasks_tableTasks (job : ddlJob) (tasks : list ptr) :
  forall (c : testCase) (st : list ptr),
  Forall (tableTask c) tasks ->
  exists (c' : testCase) (st' : list ptr),
    matchTasks job c st tasks = Ret (c', st') /\
    (st' = st \/ exists tp, tp ∈ tasks /\ st' = st ++ [tp]) /\
    (forall tq, tableTask c tq -> tableTask c' tq).
Proof.
  induction tasks as [|tp rest IH]; intros c st HF; cbn [matchTasks].
  - exists c, st. auto.
  - apply Forall_cons in HF as [Htp HF].
    destruct (matchTask_tableTask job c st tp Htp) as (c1 & st1 & b & Hrun & Hcase & Hkeep).
    rewrite Hrun. run_step.
    destruct Hcase as [(-> & -> & ->)|[-> ->]].
    + destruct (IH c st HF) as (c' & st' & Hrun' & Hst & Hkeep').
      exists c', st'. split; [exact Hrun'|]. split; [|exact Hkeep'].
      destruct Hst as [->|(tq & Hq & ->)]; [left; reflexivity|].
      right. exists tq. split; [apply list_elem_of_further; exact Hq|reflexivity].
    + exists c1, (st ++ [tp]). split; [reflexivity|]. split; [|exact Hkeep].
      right. exists tp. split; [apply list_elem_of_here|reflexivity].
Qed.

(** The pairings collected over a history: at most one for each job,
    all with tasks of the batch. *)
Lemma matchJobs_tableTasks (tasks : list ptr) (jobs : list ddlJob) :
  forall (c : testCase) (st : list ptr),
  Forall (tableTask c) tasks ->
  exists (c' : testCase) (added : list ptr),
    matchJobs jobs tasks c st = Ret (c', st ++ added) /\
    (length added <= length jobs)%nat /\
    Forall (fun tp => tp ∈ tasks) added /\
    (forall tq, tableTask c tq -> tableTask c' tq).
Proof.
  induction jobs as [|job rest IH]; intros c st HF; cbn [matchJobs].
  - exists c, []. rewrite app_nil_r. repeat split; auto.
  - destruct (matchTasks_tableTasks job tasks c st HF) as (c1 & st1 & Hrun & Hst & Hkeep).
    rewrite Hrun. run_step.
    assert (Hadd : exists one, st1 = st ++ one /\ (length one <= 1)%nat /\
                               Forall (fun tp => tp ∈ tasks) one).
    { destruct Hst as [->|(tp & Hin & ->)].
      - exists []. rewrite app_nil_r. repeat split; auto.
      - exists [tp]. repeat split; auto. }
    destruct Hadd as (one & -> & Hone & Hin1).
    destruct (Go.len (st ++ one) =? Go.len tasks).
    + exists c1, one. cbn [length]. repeat split; auto. lia.
    + destruct (IH c1 (st ++ one)) as (c' & added & Hrun' & Hlen & Hin & Hkeep').
      { eapply Forall_impl; [exact HF|]. intros tq. apply Hkeep. }
      exists c', (one ++ added). rewrite app_assoc. split; [exact Hrun'|].
      rewrite length_app. cbn [length]. split; [lia|]. split.
      * apply Forall_app; auto.
      * intros tq Hq. apply Hkeep', Hkeep, Hq.
Qed.

(** The listings can be written for tasks that carry a table. *)
Lemma taskLines_tableTasks (c : testCase) (l : list ptr) :
  Forall (tableTask c) l -> exists text, taskLines c l = Ret text.
Proof.
  unfold taskLines. generalize ""%string as acc.
  induction l as [|tp rest IH]; intros acc HF; cbn [forEach].
  - eauto.
  - apply Forall_cons in HF as [(task & bp & tb & Ht & Hb & Htb & _) HF].
    unfold taskLine. rewrite (deref_some _ _ _ Ht). run_step. rewrite Hb.
    rewrite (deref_some _ _ _ Htb). run_step. apply IH, HF.
Qed.

(** A turn of the inner loop, told by [rowMatches]. *)
Lemma matchTask_rowMatches (job : ddlJob) (c : testCase) (st : list ptr) (tp : ptr) :
  tableTask c tp ->
  matchTask job c st tp =
    Ret (if rowMatches c job tp then (pairRow c job tp, st ++ [tp], true)
         else (c, st, false)).
Proof.
  intros (task & bp & tb & Ht & Hb & Htb & Hs & Hv & Hk1 & Hk2).
  unfold matchTask. rewrite (deref_some _ _ _ Ht). run_step.
  rewrite (kindEq_false _ _ Hk1), (kindEq_false _ _ Hk2). cbn [andb]. rewrite Hb.
  unfold rowMatches, pairRow. rewrite Ht, Hb, Htb.
  destruct (kindEq (task_k task) ddlAddTable) eqn:Ea; cbn [andb negb].
  - destruct (kindEq (k job) ddlAddTable) eqn:Ej; cbn [andb].
    + rewrite (deref_some _ _ _ Htb). run_step.
      destruct (String.eqb (tbl_name tb) (tableName job)); run_step; reflexivity.
    + run_step. reflexivity.
  - run_step. destruct (kindEq (k job) (task_k task)); cbn [andb].
    + unfold idIs. rewrite (deref_some _ _ _ Htb). run_step.
      destruct (String.eqb (tbl_id tb) (tableID job)); [reflexivity|].
      rewrite Hv, Hs. run_step. reflexivity.
    + reflexivity.
Qed.

Lemma firstMatching_Some (c : testCase) (job : ddlJob) (tasks : list ptr) (tp : ptr) :
  firstMatching c job tasks = Some tp -> tp ∈ tasks /\ rowMatches c job tp = true.
Proof.
  induction tasks as [|tq rest IH]; cbn [firstMatching]; [discriminate|].
  destruct (rowMatches c job tq) eqn:E.
  - intros Hq. inversion Hq; subst tq. split; [apply list_elem_of_here|exact E].
  - intros Hq. destruct (IH Hq) as [Hin Hm]. split; [apply list_elem_of_further, Hin|exact Hm].
Qed.

(** The inner loop pairs the row with the first task it matches. *)
Lemma matchTasks_firstMatching (job : ddlJob) (c : testCase) (tasks : list ptr) :
  Forall (tableTask c) tasks ->
  forall st, matchTasks job c st tasks = Ret (pairStep c job tasks st).
Proof.
  unfold pairStep. induction 1 as [|tp rest Htp _ IH]; intros st;
    cbn [matchTasks firstMatching]; [reflexivity|].
  rewrite (matchTask_rowMatches job c st tp Htp).
  destruct (rowMatches c job tp); run_step; [reflexivity|apply IH].
Qed.

Lemma tableTask_pairRow (c : testCase) (job : ddlJob) (tp tq : ptr) :
  tableTask c tp -> tableTask c tq -> tableTask (pairRow c job tp) tq.
Proof.
  intros (task & bp & tb & Ht & Hb & Htb & _) Hq. unfold pairRow. rewrite Ht, Hb, Htb.
  destruct (kindEq (task_k task) ddlAddTable).
  - apply tableTask_table_id; [store_simpl; exact Htb|]. apply tableTask_stamped; assumption.
  - apply tableTask_stamped; assumption.
Qed.

Lemma tableTasks_pairStep (c c1 : testCase) (job : ddlJob) (tasks st st1 : list ptr) :
  Forall (tableTask c) tasks ->
  pairStep c job tasks st = (c1, st1) ->
  forall tq, tableTask c tq -> tableTask c1 tq.
Proof.
  intros HF Hstep tq Hq. unfold pairStep in Hstep.
  destruct (firstMatching c job tasks) as [tp|] eqn:Hfirst; inversion Hstep; subst; [|exact Hq].
  apply firstMatching_Some in Hfirst as [Hin _]. rewrite Forall_forall in HF.
  apply tableTask_pairRow; [apply HF, Hin|exact Hq].
Qed.

(** The two loops together are the pairing by first match. *)
Lemma matchJobs_pairRows (tasks : list ptr) (jobs : list ddlJob) :
  forall (c : testCase) (st : list ptr),
  Forall (tableTask c) tasks ->
  matchJobs jobs tasks c st = Ret (pairRows jobs tasks c st).
Proof.
  induction jobs as [|job rest IH]; intros c st HF; cbn [matchJobs pairRows]; [reflexivity|].
  rewrite (matchTasks_firstMatching job c tasks HF st).
  destruct (pairStep c job tasks st) as [c1 st1] eqn:Hstep. run_step.
  destruct (Go.len st1 =? Go.len tasks); [reflexivity|].
  apply IH. eapply Forall_impl; [exact HF|]. intros tq.
  apply (tableTasks_pairStep c c1 job tasks st st1 HF Hstep).
Qed.

(** Pairing a row writes the job id on the task and nothing else on the
    tasks. *)
Lemma pairRow_tasks (c : testCase) (job : ddlJob) (tp : ptr) (task : ddlJobTask) :
  hTasks c !! tp = Some task ->
  hTasks (pairRow c job tp) = <[tp := withDdlID (id job) task]> (hTasks c).
Proof.
  intros Ht. unfold pairRow. rewrite Ht.
  destruct (kindEq (task_k task) ddlAddTable); [|reflexivity].
  destruct (tblInfo task) as [bp|]; [|reflexivity].
  destruct (hTables c !! bp); reflexivity.
Qed.

Lemma sameTarget_pairRow (c : testCase) (job : ddlJob) (tp tp1 tp2 : ptr) :
  sameTarget c tp1 tp2 -> sameTarget (pairRow c job tp) tp1 tp2.
Proof.
  intros (task1 & task2 & H1 & H2 & Hk & Hb).
  destruct (hTasks c !! tp) as [task|] eqn:Ht.
  2: { unfold pairRow. rewrite Ht. exists task1, task2. auto. }
  unfold sameTarget. rewrite (pairRow_tasks c job tp task Ht).
  destruct (decide (tp1 = tp)) as [->|Hn1]; destruct (decide (tp2 = tp)) as [->|Hn2].
  - rewrite Ht in H1, H2. inversion H1; inversion H2; subst task1 task2.
    exists (withDdlID (id job) task), (withDdlID (id job) task).
    rewrite lookup_insert_eq. auto.
  - rewrite Ht in H1. inversion H1; subst task1.
    exists (withDdlID (id job) task), task2.
    rewrite lookup_insert_eq, lookup_insert_ne by congruence. auto.
  - rewrite Ht in H2. inversion H2; subst task2.
    exists task1, (withDdlID (id job) task).
    rewrite lookup_insert_eq, lookup_insert_ne by congruence. auto.
  - exists task1, task2. rewrite !lookup_insert_ne by congruence. auto.
Qed.

(** A row cannot tell two tasks of the same kind on the same table
    apart. *)
Lemma sameTarget_rowMatches (c : testCase) (job : ddlJob) (tp1 tp2 : ptr) :
  sameTarget c tp1 tp2 -> rowMatches c job tp1 = rowMatches c job tp2.
Proof.
  intros (task1 & task2 & H1 & H2 & Hk & Hb). unfold rowMatches.
  rewrite H1, H2, Hk, Hb. reflexivity.
Qed.

(** So the later of two such tasks is never the first match. *)
Lemma firstMatching_not_later (c : testCase) (job : ddlJob) (tp1 tp2 : ptr)
    (l1 rest : list ptr) :
  sameTarget c tp1 tp2 -> tp1 <> tp2 -> tp2 ∉ l1 ->
  firstMatching c job (l1 ++ tp1 :: rest) <> Some tp2.
Proof.
  intros Hsame Hne. induction l1 as [|tq l1 IH]; intros Hnot; cbn [app firstMatching].
  - destruct (rowMatches c job tp1) eqn:E; [congruence|].
    intros Hrest. apply firstMatching_Some in Hrest as [_ Hm].
    rewrite (sameTarget_rowMatches c job tp1 tp2 Hsame) in E. congruence.
  - rewrite not_elem_of_cons in Hnot. destruct Hnot as [Hq Hnot].
    destruct (rowMatches c job tq); [congruence|]. apply IH. exact Hnot.
Qed.

Lemma pairRows_not_later (tasks : list ptr) (tp1 tp2 : ptr) (l1 rest : list ptr)
    (jobs : list ddlJob) :
  tasks = l1 ++ tp1 :: rest -> tp1 <> tp2 -> tp2 ∉ l1 ->
  forall (c : testCase) (st : list ptr),
  sameTarget c tp1 tp2 -> tp2 ∉ st -> tp2 ∉ (pairRows jobs tasks c st).2.
Proof.
  intros Htasks Hne Hnot. induction jobs as [|job more IH]; intros c st Hsame Hst;
    cbn [pairRows]; [exact Hst|].
  unfold pairStep.
  pose proof (firstMatching_not_later c job tp1 tp2 l1 rest Hsame Hne Hnot) as Hfirst.
  rewrite <- Htasks in Hfirst.
  destruct (firstMatching c job tasks) as [tp|].
  - assert (Hst1 : tp2 ∉ st ++ [tp]).
    { rewrite elem_of_app. intros [Hin|Hin]; [exact (Hst Hin)|].
      apply list_elem_of_singleton in Hin. congruence. }
    destruct (Go.len (st ++ [tp]) =? Go.len tasks); [exact Hst1|].
    apply IH; [apply sameTarget_pairRow; exact Hsame|exact Hst1].
  - destruct (Go.len st =? Go.len tasks); [exact Hst|]. apply IH; assumption.
Qed.

(** Pairing a row with a task does not change which rows that task
    matches. *)
Lemma rowMatches_pairRow_self (c : testCase) (job job' : ddlJob) (tp : ptr) :
  tableTask c tp -> rowMatches (pairRow c job tp) job' tp = rowMatches c job' tp.
Proof.
  intros (task & bp & tb & Ht & Hb & Htb & _).
  unfold rowMatches. rewrite (pairRow_tasks c job tp task Ht), lookup_insert_eq, Ht.
  change (tblInfo (withDdlID (id job) task)) with (tblInfo task).
  change (task_k (withDdlID (id job) task)) with (task_k task).
  rewrite Hb. unfold pairRow. rewrite Ht, Hb, Htb.
  destruct (kindEq (task_k task) ddlAddTable).
  - store_simpl. rewrite lookup_insert_eq. reflexivity.
  - store_simpl. rewrite Htb. reflexivity.
Qed.

(** C2, as amended.  For a batch whose tasks each carry a table and
    nothing else, and a history that was read without error, the two
    loops of [getSortTask] are the pairing by first match: every row, in
    the order of the history and until there are as many pairings as
    tasks, is paired with the first task of the batch that it matches,
    whether or not that task has been paired before.  There is at most
    one pairing for each row, and of two tasks of the same kind on the
    same table the later one is never paired.  [getSortTask] returns the
    error with the three listings exactly when the number of pairings
    differs from the number of tasks, which is the case whenever the
    history has fewer new rows than the batch has tasks; with as many
    pairings as tasks it succeeds and returns the paired tasks, each as
    many times as it was paired.  So a batch of two tasks whose first
    task matches the first two rows of the history is accepted, and the
    first task comes back twice. *)
Theorem getSortTask_pairs_first_match (c : testCase) (db : DB) (tasks : list ptr)
    (jobs : list ddlJob) :
  Forall (tableTask c) tasks ->
  getHistoryDDLJobs c db tasks = Ret (jobs, None) ->
  exists (c1 : testCase) (st : list ptr),
    pairRows jobs tasks c [] = (c1, st) /\
    matchJobs jobs tasks c [] = Ret (c1, st) /\
    (length st <= length jobs)%nat /\
    Forall (fun tp => tp ∈ tasks) st /\
    (forall (tp1 tp2 : ptr) (l1 rest : list ptr),
       tasks = l1 ++ tp1 :: rest -> tp1 <> tp2 -> tp2 ∉ l1 -> sameTarget c tp1 tp2 ->
       tp2 ∉ st) /\
    (length st <> length tasks ->
     exists text, mismatchText c1 jobs tasks st = Ret text /\
                  getSortTask c db tasks = Ret (c1, [], Some (Errorf text []))) /\
    (length st = length tasks ->
     exists (c2 : testCase) (sorted : list ptr),
       getSortTask c db tasks = Ret (c2, sorted, None) /\ sorted ≡ₚ st) /\
    ((length jobs < length tasks)%nat -> length st <> length tasks) /\
    (forall (tp1 tp2 : ptr) (j1 j2 : ddlJob) (more : list ddlJob),
       tasks = [tp1; tp2] -> jobs = j1 :: j2 :: more ->
       rowMatches c j1 tp1 = true -> rowMatches c j2 tp1 = true ->
       st = [tp1; tp1] /\
       exists c2 : testCase, getSortTask c db tasks = Ret (c2, [tp1; tp1], None)).
Proof.
  intros HF Hjobs.
  destruct (matchJobs_tableTasks tasks jobs c [] HF) as (c1 & st & Hrun & Hlen & Hin & Hkeep).
  cbn [app] in Hrun.
  assert (Hpair : pairRows jobs tasks c [] = (c1, st)).
  { pose proof (matchJobs_pairRows tasks jobs c [] HF) as Hp. rewrite Hrun in Hp.
    inversion Hp. reflexivity. }
  exists c1, st. split; [exact Hpair|]. split; [exact Hrun|]. split; [exact Hlen|].
  split; [exact Hin|].
  assert (HF1 : Forall (tableTask c1) tasks)
    by (eapply Forall_impl; [exact HF|]; intros tq; apply Hkeep).
  assert (Hst : Forall (tableTask c1) st).
  { apply Forall_forall. intros tp Htp. rewrite Forall_forall in Hin, HF1.
    apply HF1, Hin, Htp. }
  assert (Hok : length st = length tasks ->
     exists (c2 : testCase) (sorted : list ptr),
       getSortTask c db tasks = Ret (c2, sorted, None) /\ sorted ≡ₚ st).
  { intros Heq.
    unfold getSortTask. rewrite Hjobs. run_step. rewrite Hrun. run_step.
    replace (Go.len st =? Go.len tasks) with true
      by (symmetry; apply Z.eqb_eq; unfold Go.len; lia).
    cbn [negb].
    destruct (last (Go.Sort (ddlIDOf c1) st)); eexists _, _;
      (split; [reflexivity|apply Sort_spec]). }
  split; [|split; [|split; [|split]]].
  - intros tp1 tp2 l1 rest Htasks Hne Hnot Hsame.
    pose proof (pairRows_not_later tasks tp1 tp2 l1 rest jobs Htasks Hne Hnot c [] Hsame)
      as Hnever.
    rewrite Hpair in Hnever. apply Hnever. apply not_elem_of_nil.
  - intros Hne.
    destruct (taskLines_tableTasks c1 tasks HF1) as [listed Hlisted].
    destruct (taskLines_tableTasks c1 st Hst) as [sortedText Hsorted].
    unfold getSortTask. rewrite Hjobs. run_step. rewrite Hrun. run_step.
    replace (Go.len st =? Go.len tasks) with false
      by (symmetry; apply Z.eqb_neq; unfold Go.len; lia).
    cbn [negb]. unfold mismatchText. rewrite Hlisted, Hsorted. run_step.
    eexists. split; reflexivity.
  - exact Hok.
  - lia.
  - intros tp1 tp2 j1 j2 more Htasks Hj Hm1 Hm2. subst tasks jobs.
    apply Forall_cons in HF as [Htp1 _].
    assert (Hst2 : st = [tp1; tp1]).
    { cbn [pairRows] in Hpair. unfold pairStep in Hpair. cbn [firstMatching] in Hpair.
      rewrite Hm1 in Hpair. cbn [app] in Hpair.
      change (Go.len [tp1] =? Go.len [tp1; tp2]) with false in Hpair.
      rewrite (rowMatches_pairRow_self c j1 j2 tp1 Htp1), Hm2 in Hpair.
      cbn [app] in Hpair.
      change (Go.len [tp1; tp1] =? Go.len [tp1; tp2]) with true in Hpair.
      inversion Hpair. reflexivity. }
    split; [exact Hst2|]. subst st.
    destruct (Hok eq_refl) as (c2 & sorted & Hsort & Hperm).
    exists c2. rewrite Hsort.
    apply Permutation_sym, Permutation_length_2_inv in Hperm as [->| ->]; reflexivity.
Qed.

(** [getSortTask_pairs_first_match] on the two truncate-table tasks:
    the newer row is paired with the second task, the older row with
    the first. *)
Lemma getSortTask_pairs_first_match_witness :
  exists (c1 : testCase) (st : list ptr),
    pairRows twoJobs [0%nat; 1%nat] twoTablesCase [] = (c1, st) /\
    matchJobs twoJobs [0%nat; 1%nat] twoTablesCase [] = Ret (c1, st) /\
    st = [1%nat; 0%nat].
Proof.
  destruct (getSortTask_pairs_first_match twoTablesCase historyDB [0%nat; 1%nat] twoJobs)
    as (c1 & st & Hpair & Hrun & _).
  - repeat constructor.
    + exists (mkTask 0 ddlTruncateTable (Some 0%nat) None None "TRUNCATE TABLE `t1`"
                ArgNil None), 0%nat, (plainTable "t1" "44" [] []).
      repeat split; try reflexivity; discriminate.
    + exists (mkTask 0 ddlTruncateTable (Some 1%nat) None None "TRUNCATE TABLE `t2`"
                ArgNil None), 1%nat, (plainTable "t2" "45" [] []).
      repeat split; try reflexivity; discriminate.
  - vm_compute. reflexivity.
  - exists c1, st. split; [exact Hpair|]. split; [exact Hrun|].
    vm_compute in Hpair. inversion Hpair. reflexivity.
Defined.

(** C2, as stated, fails: the batch holds two drop-column tasks on the
    same table, the history two drop-column jobs on that table; both
    jobs are paired with the first task, the second task is paired with
    none, the two lengths agree and the call succeeds, returning the
    first task twice. *)
Lemma getSortTask_accepts_same_target_twice :
  hTasks sameTargetCase !! 0%nat = Some dropC1Task /\
  hTasks sameTargetCase !! 1%nat = Some dropC2Task /\
  task_k dropC1Task = task_k dropC2Task /\
  tblInfo dropC1Task = tblInfo dropC2Task /\
  exists c' : testCase,
    getSortTask sameTargetCase sameTargetDB [0%nat; 1%nat]
      = Ret (c', [0%nat; 0%nat], None) /\
    ddlIDOf c' 0%nat = 46 /\ ddlIDOf c' 1%nat = 0.
Proof.
  repeat split; try reflexivity.
  eexists. split; [vm_compute; reflexivity|]. split; vm_compute; reflexivity.
Qed.

(** On that batch the run goes on to replay the first task twice, and
    stops on the second replay with the error of a divergence. *)
Lemma execParaDDLSQL_same_target_reports_divergence :
  exists c' : testCase,
    execParaDDLSQL sameTargetCase [0%nat; 1%nat] 2 =
      Ret (c', [],
           Some (Errorf
             "Error when executing SQL: %s\n, local err: %#v, remote tidb err: %#v\n%s\n"
             [FStr "ALTER TABLE `t1` DROP COLUMN `c1`";
              FErr (Some (Errorf "table %s ,drop column , column %s is not exists "
                            [FStr "t1"; FStr "c1"]));
              FErr None; FStr "table t1 id 44"])).
Proof. eexists. vm_compute. reflexivity. Qed.

(** * Further properties *)

(** ** The two tables of kind names *)

(** X1.  The two kind tables are inverse to each other: a job type
    names a kind in [mapOfDDLKind] exactly when it is the name that
    [mapOfDDLKindToString] gives to that kind, and every kind but
    [ddlKindNil] has such a name. *)
Theorem kind_names_round_trip (s : string) (kind : DDLKind) :
  mapOfDDLKind !! s = Some kind <->
  kind <> ddlKindNil /\ mapOfDDLKindToString kind = s.
Proof.
  split.
  - intros Hl. unfold mapOfDDLKind in Hl. apply elem_of_list_to_map_2 in Hl.
    repeat (apply elem_of_cons in Hl as [Hl|Hl];
            [inversion Hl; subst; split; [discriminate|reflexivity]|]).
    inversion Hl.
  - intros [Hne <-]. destruct kind; try (vm_compute; reflexivity). contradiction.
Qed.

Lemma kind_names_known (s : string) : mapOfDDLKind !! s = Some ddlKindNil -> False.
Proof.
  intros Hl. unfold mapOfDDLKind in Hl. apply elem_of_list_to_map_2 in Hl.
  repeat (apply elem_of_cons in Hl as [Hl|Hl]; [inversion Hl|]).
  inversion Hl.
Qed.

(** ** Reading a history of well-formed rows *)

Lemma index_within {A : Type} (l : list A) (i : Z) :
  0 <= i < Go.len l -> exists x, Go.index l i = Ret x.
Proof.
  intros [H0 Hl]. unfold Go.index.
  replace ((0 <=? i) && (i <? Go.len l)) with true
    by (symmetry; apply andb_true_iff; split; [apply Z.leb_le|apply Z.ltb_lt]; lia).
  destruct (l !! Z.to_nat i) as [x|] eqn:E; [eauto|].
  apply lookup_ge_None in E. unfold Go.len in Hl. lia.
Qed.

Lemma readJobs_ten_columns (lastID : Z) (actualRows : list (list string)) :
  Forall (fun row => 10 <= Go.len row) actualRows ->
  forall jobs : list ddlJob,
  exists (jobs' : list ddlJob) (e : option error),
    readJobs lastID actualRows jobs = Ret (jobs', e) /\
    (e = None -> exists kept, jobs' = jobs ++ kept /\
                              (length kept <= length actualRows)%nat /\
                              Forall (fun job => lastID < id job /\ k job <> ddlKindNil) kept) /\
    (e <> None -> jobs' = []).
Proof.
  induction 1 as [|row rest Hrow HF IH]; intros jobs; cbn [readJobs].
  - exists jobs, None. split; [reflexivity|]. split; [|congruence].
    intros _. exists []. rewrite app_nil_r. repeat split; auto.
  - destruct (Go.len row <? 9) eqn:E; [apply Z.ltb_lt in E; lia|].
    destruct (index_within row 0 ltac:(lia)) as [r0 H0]. rewrite H0. run_step.
    destruct (Go.Atoi r0) as [n|].
    2:{ eexists [], (Some _). split; [reflexivity|]. split; [discriminate|reflexivity]. }
    assert (Hskip : forall jobs',
      (exists (j : list ddlJob) (e : option error),
         readJobs lastID rest jobs' = Ret (j, e) /\
         (e = None -> exists kept, j = jobs' ++ kept /\ (length kept <= length rest)%nat /\
                        Forall (fun job => lastID < id job /\ k job <> ddlKindNil) kept) /\
         (e <> None -> j = []))) by (intros jobs'; apply IH).
    destruct (n <=? lastID) eqn:En.
    { destruct (Hskip jobs) as (j & e & Hr & Hok & Herr). exists j, e.
      split; [exact Hr|]. split; [|exact Herr].
      intros He. destruct (Hok He) as (kept & -> & Hlen & Hk). exists kept.
      cbn [length]. repeat split; auto. }
    destruct (index_within row 3 ltac:(lia)) as [r3 H3]. rewrite H3. run_step.
    destruct (mapOfDDLKind !! r3) as [kind|] eqn:Ek.
    2:{ destruct (Hskip jobs) as (j & e & Hr & Hok & Herr). exists j, e.
        split; [exact Hr|]. split; [|exact Herr].
        intros He. destruct (Hok He) as (kept & -> & Hlen & Hk). exists kept.
        cbn [length]. repeat split; auto. }
    destruct (index_within row 1 ltac:(lia)) as [r1 H1]. rewrite H1. run_step.
    destruct (index_within row 2 ltac:(lia)) as [r2 H2]. rewrite H2. run_step.
    destruct (index_within row 5 ltac:(lia)) as [r5 H5]. rewrite H5. run_step.
    destruct (index_within row 6 ltac:(lia)) as [r6 H6]. rewrite H6. run_step.
    destruct (index_within row 9 ltac:(lia)) as [r9 H9]. rewrite H9. run_step.
    destruct (Hskip (jobs ++ [mkJob n r1 r2 kind r9 r6 r5])) as (j & e & Hr & Hok & Herr).
    exists j, e. split; [exact Hr|]. split; [|exact Herr].
    intros He. destruct (Hok He) as (kept & -> & Hlen & Hk).
    exists (mkJob n r1 r2 kind r9 r6 r5 :: kept). rewrite <- app_assoc.
    split; [reflexivity|]. cbn [length]. split; [lia|]. constructor; [|exact Hk].
    cbn [id k]. apply Z.leb_gt in En. split; [exact En|].
    intros ->. apply kind_names_known in Ek. contradiction.
Qed.

(** X2.  When every row of the history has at least ten columns,
    [getHistoryDDLJobs] returns without reading out of bounds.  If it
    returns no error, it has kept at most one job for each row, every
    job kept is newer than the last id seen and of a kind the tool
    knows; if it returns an error, it returns no job. *)
Theorem getHistoryDDLJobs_ten_columns (c : testCase) (db : DB) (tasks : list ptr)
    (actualRows : list (list string)) :
  QueryDDLJobs db = Rows actualRows ->
  Forall (fun row => 10 <= Go.len row) actualRows ->
  exists (jobs : list ddlJob) (e : option error),
    getHistoryDDLJobs c db tasks = Ret (jobs, e) /\
    (e = None -> (length jobs <= length actualRows)%nat /\
                 Forall (fun job => lastDDLID c < id job /\ k job <> ddlKindNil) jobs) /\
    (e <> None -> jobs = []).
Proof.
  intros Hq HF. unfold getHistoryDDLJobs. rewrite Hq.
  destruct (readJobs_ten_columns (lastDDLID c) actualRows HF []) as (jobs & e & Hr & Hok & Herr).
  exists jobs, e. split; [exact Hr|]. split; [|exact Herr].
  intros He. destruct (Hok He) as (kept & -> & Hlen & Hk). cbn [app]. auto.
Qed.

(** [getHistoryDDLJobs_ten_columns] on a history of three rows, of
    which one is new and of a known type. *)
Lemma getHistoryDDLJobs_ten_columns_witness :
  exists (jobs : list ddlJob) (e : option error),
    getHistoryDDLJobs twoTablesCase mixedHistoryDB [] = Ret (jobs, e) /\
    (e = None -> (length jobs <= 3)%nat /\
                 Forall (fun job => lastDDLID twoTablesCase < id job /\ k job <> ddlKindNil)
                   jobs) /\
    (e <> None -> jobs = []).
Proof.
  refine (getHistoryDDLJobs_ten_columns twoTablesCase mixedHistoryDB [] _ eq_refl _).
  repeat constructor; vm_compute; discriminate.
Defined.

(** ** What the order oracle and the appliers leave alone *)

Lemma sameCatalog_refl (c : testCase) : sameCatalog c c.
Proof. repeat split. Qed.

Lemma sameCatalog_trans (c1 c2 c3 : testCase) :
  sameCatalog c1 c2 -> sameCatalog c2 c3 -> sameCatalog c1 c3.
Proof.
  unfold sameCatalog. intros (? & ? & ? & ? & ?) (? & ? & ? & ? & ?).
  repeat split; congruence.
Qed.

Lemma sameSetup_refl (c : testCase) : sameSetup c c.
Proof. repeat split. Qed.

Lemma sameSetup_trans (c1 c2 c3 : testCase) :
  sameSetup c1 c2 -> sameSetup c2 c3 -> sameSetup c1 c3.
Proof.
  unfold sameSetup. intros (? & ? & ?) (? & ? & ?). repeat split; congruence.
Qed.

Lemma sameBookkeeping_refl (c : testCase) : sameBookkeeping c c.
Proof. repeat split. Qed.

Lemma sameBookkeeping_trans (c1 c2 c3 : testCase) :
  sameBookkeeping c1 c2 -> sameBookkeeping c2 c3 -> sameBookkeeping c1 c3.
Proof.
  unfold sameBookkeeping. intros (? & ? & ? & ? & ?) (? & ? & ? & ? & ?).
  repeat split; congruence.
Qed.

(** A loop keeps what each of its turns keeps. *)
Lemma forEach_keeps {A S : Type} (P : S -> S -> Prop) (body : S -> A -> run S) :
  (forall s, P s s) ->
  (forall s1 s2 s3, P s1 s2 -> P s2 s3 -> P s1 s3) ->
  (forall s a s', body s a = Ret s' -> P s s') ->
  forall (l : list A) (s s' : S), forEach body s l = Ret s' -> P s s'.
Proof.
  intros Hrefl Htrans Hbody. induction l as [|a l IH]; intros s s' Hf; cbn [forEach] in Hf.
  - inversion Hf; subst. apply Hrefl.
  - apply bind_Ret in Hf as (s1 & H1 & Hf). eapply Htrans; [eapply Hbody; eauto|eauto].
Qed.

Lemma matchTask_catalog (job : ddlJob) (c c' : testCase) (st st' : list ptr) (tp : ptr)
    (b : bool) :
  matchTask job c st tp = Ret (c', st', b) -> sameCatalog c c' /\ sameSetup c c'.
Proof.
  unfold matchTask. intros Hm. run_inv Hm; repeat split.
Qed.

Lemma matchTasks_catalog (job : ddlJob) (tasks : list ptr) :
  forall (c c' : testCase) (st st' : list ptr),
  matchTasks job c st tasks = Ret (c', st') -> sameCatalog c c' /\ sameSetup c c'.
Proof.
  induction tasks as [|tp rest IH]; intros c c' st st' Hm; cbn [matchTasks] in Hm.
  - inversion Hm; subst. split; [apply sameCatalog_refl|apply sameSetup_refl].
  - apply bind_Ret in Hm as ([[c1 st1] brk] & Hstep & Hm).
    apply matchTask_catalog in Hstep as [Hc Hd]. destruct brk.
    + inversion Hm; subst. auto.
    + apply IH in Hm as [Hc' Hd'].
      split; [eapply sameCatalog_trans; eauto|eapply sameSetup_trans; eauto].
Qed.

Lemma matchJobs_catalog (tasks : list ptr) (jobs : list ddlJob) :
  forall (c c' : testCase) (st st' : list ptr),
  matchJobs jobs tasks c st = Ret (c', st') -> sameCatalog c c' /\ sameSetup c c'.
Proof.
  induction jobs as [|job rest IH]; intros c c' st st' Hm; cbn [matchJobs] in Hm.
  - inversion Hm; subst. split; [apply sameCatalog_refl|apply sameSetup_refl].
  - apply bind_Ret in Hm as ([c1 st1] & Hstep & Hm).
    apply matchTasks_catalog in Hstep as [Hc Hd].
    destruct (Go.len st1 =? Go.len tasks).
    + inversion Hm; subst. auto.
    + apply IH in Hm as [Hc' Hd'].
      split; [eapply sameCatalog_trans; eauto|eapply sameSetup_trans; eauto].
Qed.

(** Whatever [getSortTask] returns. *)
Lemma getSortTask_any (c c' : testCase) (db : DB) (tasks l : list ptr) (e : option error) :
  getSortTask c db tasks = Ret (c', l, e) ->
  sameCatalog c c' /\ sameSetup c c' /\ lastDDLID c <= lastDDLID c' /\
  (e <> None -> l = [] /\ lastDDLID c' = lastDDLID c).
Proof.
  unfold getSortTask. intros Hg.
  apply bind_Ret in Hg as ([jobs e0] & Hjobs & Hg).
  destruct e0 as [e0|].
  { inversion Hg; subst. repeat split; try reflexivity; try lia. }
  apply bind_Ret in Hg as ([c1 st] & Hmatch & Hg).
  pose proof (matchJobs_catalog _ _ _ _ _ _ Hmatch) as [Hcat Hdbs].
  assert (Hnew : Forall (fun job => lastDDLID c < id job) jobs).
  { unfold getHistoryDDLJobs in Hjobs. destruct (QueryDDLJobs db) as [q|rows].
    - inversion Hjobs.
    - eapply readJobs_newer; [exact Hjobs|constructor]. }
  destruct (matchJobs_newer (lastDDLID c) tasks jobs c c1 [] st Hmatch Hnew) as [Hl HF];
    [constructor|].
  destruct (negb (Go.len st =? Go.len tasks)).
  { apply bind_Ret in Hg as (str & _ & Hg). inversion Hg; subst.
    repeat split; try apply Hcat; try apply Hdbs; auto. lia. }
  destruct (Sort_spec (ddlIDOf c1) st) as [Hperm _].
  destruct (last (Go.Sort (ddlIDOf c1) st)) as [m|] eqn:Hlast; inversion Hg; subst; clear Hg.
  - assert (Hm : lastDDLID c < ddlIDOf c1 m).
    { rewrite <- Hperm in HF. rewrite Forall_forall in HF. apply HF.
      eapply last_Some_elem_of. exact Hlast. }
    split; [exact Hcat|]. split; [exact Hdbs|]. store_simpl. split; [lia|congruence].
  - split; [exact Hcat|]. split; [exact Hdbs|]. split; [lia|congruence].
Qed.

(** X3.  Whatever [getSortTask] returns, it has not touched the names
    of the catalog, its columns, its indexes, the connections or the
    registry: it only stamps ids.  The last job id seen has not
    decreased, and when an error is returned no task is returned and the
    last job id is as it was. *)
Theorem getSortTask_leaves_catalog (c c' : testCase) (db : DB) (tasks l : list ptr)
    (e : option error) :
  getSortTask c db tasks = Ret (c', l, e) ->
  sameCatalog c c' /\ sameSetup c c' /\ lastDDLID c <= lastDDLID c' /\
  (e <> None -> l = [] /\ lastDDLID c' = lastDDLID c).
Proof. apply getSortTask_any. Qed.

Section Frames.
Context `{External}.

Lemma forEach_books {A : Type} (body : testCase -> A -> run testCase) :
  (forall s a s', body s a = Ret s' -> sameBookkeeping s s') ->
  forall (l : list A) (s s' : testCase), forEach body s l = Ret s' -> sameBookkeeping s s'.
Proof.
  intros Hbody. apply (forEach_keeps sameBookkeeping);
    [apply sameBookkeeping_refl|apply sameBookkeeping_trans|exact Hbody].
Qed.

Lemma decrementReferences_books (cols : list ptr) :
  forall (c c' : testCase) (e : option error),
  decrementReferences c cols = Ret (c', e) -> sameBookkeeping c c'.
Proof.
  induction cols as [|cp rest IH]; intros c c' e Hd; cbn [decrementReferences] in Hd.
  - inversion Hd; subst. apply sameBookkeeping_refl.
  - apply bind_Ret in Hd as ([a col] & _ & Hd).
    destruct (Go.sub (indexReferences col) 1 <? 0).
    + inversion Hd; subst. repeat split.
    + apply IH in Hd. eapply sameBookkeeping_trans; [|exact Hd]. repeat split.
Qed.

(** Closes a goal on the bookkeeping once the applier has been taken
    apart: what is left is a chain of writes, loops included. *)
Ltac books :=
  repeat match goal with
  | E : forEach _ ?s _ = Ret ?t |- sameBookkeeping _ ?t =>
      apply forEach_books in E;
        [apply (sameBookkeeping_trans _ s); [|exact E]
        |let Hb := fresh "Hb" in intros ? ? ? Hb; run_inv Hb; repeat split]
  | E : decrementReferences ?s _ = Ret (?t, _) |- sameBookkeeping _ ?t =>
      apply decrementReferences_books in E; apply (sameBookkeeping_trans _ s); [|exact E]
  | E : decrementReferences ?s _ = Ret (?t, _) |- sameBookkeeping _ (putTable _ _ ?t) =>
      apply decrementReferences_books in E;
        apply (sameBookkeeping_trans _ t); [|repeat split];
        apply (sameBookkeeping_trans _ s); [|exact E]
  | E : column_setDeletedRecover _ ?s = Ret ?t |- sameBookkeeping _ ?t =>
      unfold column_setDeletedRecover in E; run_inv E
  end;
  repeat split.

Lemma updateTableInfo_books (c c' : testCase) (task : ddlJobTask) (e : option error) :
  updateTableInfo c task = Ret (c', e) -> sameBookkeeping c c'.
Proof.
  unfold updateTableInfo. intros Hu.
  destruct (task_k task);
    cbv delta [createSchemaJob dropSchemaJob addTableInfo renameTableJob truncateTableJob
               modifyTableCommentJob modifyTableCharsetAndCollateJob shardRowIDJob
               rebaseAutoIDJob dropTableJob createViewJob addIndexJob renameIndexJob
               dropIndexJob addColumnJob modifyColumnJob dropColumnJob setDefaultValueJob]
      in Hu; cbv beta in Hu; run_inv Hu; books.
Qed.

(** X4.  Whatever the kind of the task and whatever the outcome, an
    applier that returns has left the tasks, the last job id seen, the
    connections, the name of the initial database and the registry as
    they were: the appliers only write the catalog. *)
Theorem updateTableInfo_keeps_bookkeeping (c c' : testCase) (task : ddlJobTask)
    (e : option error) :
  updateTableInfo c task = Ret (c', e) -> sameBookkeeping c c'.
Proof. apply updateTableInfo_books. Qed.

Lemma replay_books (l : list ptr) :
  forall (c c' : testCase) (e : option error),
  replay c l = Ret (c', e) -> sameBookkeeping c c'.
Proof.
  induction l as [|tp rest IH]; intros c c' e Hr; cbn [replay] in Hr.
  - inversion Hr; subst. apply sameBookkeeping_refl.
  - apply bind_Ret in Hr as ([a task] & _ & Hr).
    apply bind_Ret in Hr as ([c1 e1] & Hu & Hr).
    apply updateTableInfo_books in Hu.
    destruct ((isNil e1 && negb (isNil (err task))) || (negb (isNil e1) && isNil (err task))).
    + destruct (negb (isNil e1) && ddlIgnoreError e1).
      * inversion Hr; subst. exact Hu.
      * apply bind_Ret in Hr as (bp & _ & Hr). inversion Hr; subst. exact Hu.
    + apply IH in Hr. eapply sameBookkeeping_trans; eauto.
Qed.

Lemma sendTask_frame (c c' : testCase) (tp : ptr) :
  sendTask c tp = Ret c' ->
  lastDDLID c' = lastDDLID c /\ sameSetup c c' /\ sameCatalog c c'.
Proof.
  unfold sendTask. intros Hs. run_inv Hs; repeat split.
Qed.

Lemma sendTasks_frame (l : list ptr) (c c' : testCase) :
  forEach sendTask c l = Ret c' ->
  lastDDLID c' = lastDDLID c /\ sameSetup c c' /\ sameCatalog c c'.
Proof.
  apply (forEach_keeps (fun s s' => lastDDLID s' = lastDDLID s /\ sameSetup s s' /\
                                    sameCatalog s s')).
  - intros s. repeat split.
  - intros s1 s2 s3 (? & ? & ?) (? & ? & ?).
    split; [congruence|]. split; [eapply sameSetup_trans; eauto|eapply sameCatalog_trans; eauto].
  - intros s a s'. apply sendTask_frame.
Qed.

Lemma receive_takes (n : nat) :
  forall (ch got queue : list ptr),
  receive n ch = Ret (got, queue) -> (n <= length ch)%nat /\ got = take n ch /\ queue = drop n ch.
Proof.
  induction n as [|n IH]; intros ch got queue Hr; cbn [receive] in Hr.
  - inversion Hr; subst. repeat split. cbn. lia.
  - destruct ch as [|tp rest]; [discriminate|].
    apply bind_Ret in Hr as ([g q] & Hrec & Hr). inversion Hr; subst.
    apply IH in Hrec as (Hn & -> & ->). repeat split. cbn. lia.
Qed.

(** X5.  Whenever [execParaDDLSQL] returns, with an error or without,
    the count was not negative, the channel held at least that many
    tasks and has lost exactly that many from its front; the last job id
    seen has not decreased, and the connections, the name of the initial
    database and the registry are as they were. *)
Theorem execParaDDLSQL_takes_batch (c c' : testCase) (taskCh ch' : list ptr) (num : Z)
    (e : option error) :
  execParaDDLSQL c taskCh num = Ret (c', ch', e) ->
  0 <= num /\ (Z.to_nat num <= length taskCh)%nat /\ ch' = drop (Z.to_nat num) taskCh /\
  lastDDLID c <= lastDDLID c' /\ sameSetup c c'.
Proof.
  unfold execParaDDLSQL. intros He.
  destruct (num =? 0) eqn:E0.
  { apply Z.eqb_eq in E0. subst num. inversion He; subst. repeat split; try lia. }
  destruct (num <? 0) eqn:Eneg; [discriminate|]. apply Z.ltb_ge in Eneg.
  apply bind_Ret in He as ([tasks queue] & Hrecv & He).
  apply receive_takes in Hrecv as (Hlen & _ & ->).
  apply bind_Ret in He as (c1 & Hsend & He).
  apply sendTasks_frame in Hsend as (Hl1 & Hs1 & _).
  apply bind_Ret in He as (db & _ & He).
  apply bind_Ret in He as ([[c2 sorted] e2] & Hsort & He).
  apply getSortTask_any in Hsort as (_ & Hs2 & Hl2 & _).
  pose proof (sameSetup_trans _ _ _ Hs1 Hs2) as Hs.
  destruct e2 as [e2|].
  - destruct (ddlIgnoreError (Some e2)); inversion He; subst;
      repeat split; try lia; apply Hs.
  - apply bind_Ret in He as ([c3 e3] & Hrep & He). inversion He; subst.
    apply replay_books in Hrep as (_ & Hl3 & Hd3 & Hi3 & Ho3).
    destruct Hs as (? & ? & ?).
    repeat split; try lia; congruence.
Qed.

(** X6.  The replay stops at the first divergence it reports: when the
    replay of a list of tasks returns an error, the replay of any longer
    list that starts with it returns the same state and the same error,
    and none of the later tasks is applied. *)
Theorem replay_stops_at_error (l1 l2 : list ptr) :
  forall (c c1 : testCase) (e : error),
  replay c l1 = Ret (c1, Some e) -> replay c (l1 ++ l2) = Ret (c1, Some e).
Proof.
  induction l1 as [|tp rest IH]; intros c c1 e Hr.
  - cbn [replay] in Hr. inversion Hr.
  - cbn [replay app] in Hr |- *.
    destruct (deref (hTasks c) (Some tp)) as [[a task]| |]; run_step; try discriminate.
    cbn [mbind run_bind Go.bind] in Hr.
    destruct (updateTableInfo c task) as [[c2 e2]| |]; run_step; try discriminate.
    cbn [mbind run_bind Go.bind] in Hr.
    destruct ((isNil e2 && negb (isNil (err task))) || (negb (isNil e2) && isNil (err task))).
    + exact Hr.
    + apply IH. exact Hr.
Qed.

End Frames.

(** [getSortTask_leaves_catalog] on the two truncate-table tasks of
    [twoTablesCase]. *)
Lemma getSortTask_leaves_catalog_witness :
  sameCatalog twoTablesCase sortedCase /\ sameSetup twoTablesCase sortedCase /\
  lastDDLID twoTablesCase <= lastDDLID sortedCase.
Proof.
  destruct (getSortTask_leaves_catalog twoTablesCase sortedCase historyDB [0%nat; 1%nat]
              [0%nat; 1%nat] None ltac:(vm_compute; reflexivity))
    as (Hcat & Hset & Hle & _).
  repeat split; assumption.
Defined.

(** [updateTableInfo_keeps_bookkeeping] on the drop-index task of
    scenario S2. *)
Lemma updateTableInfo_keeps_bookkeeping_witness :
  sameBookkeeping indexedColumnCase
    (putTable 0%nat (withIndexes [] (plainTable "t" "44" [0%nat; 1%nat] [0%nat]))
       (putColumn 0%nat (plainColumn "a" 0) indexedColumnCase)).
Proof.
  apply (updateTableInfo_keeps_bookkeeping indexedColumnCase _ dropIxTask None).
  vm_compute. reflexivity.
Defined.

(** [execParaDDLSQL_takes_batch] on the batch of [twoTablesCase]. *)
Lemma execParaDDLSQL_takes_batch_witness :
  0 <= 2 /\ (Z.to_nat 2 <= length [0%nat; 1%nat])%nat /\
  [] = drop (Z.to_nat 2) [0%nat; 1%nat] /\
  lastDDLID twoTablesCase <= lastDDLID batchDoneCase /\ sameSetup twoTablesCase batchDoneCase.
Proof.
  apply (execParaDDLSQL_takes_batch twoTablesCase batchDoneCase [0%nat; 1%nat] [] 2 None).
  vm_compute. reflexivity.
Defined.

(** [replay_stops_at_error] on [remoteRejectedCase]: the second task is
    not applied. *)
Lemma replay_stops_at_error_witness :
  exists (c1 : testCase) (e : error),
    replay remoteRejectedCase [0%nat] = Ret (c1, Some e) /\
    replay remoteRejectedCase [0%nat; 1%nat] = Ret (c1, Some e).
Proof.
  destruct (replay remoteRejectedCase [0%nat]) as [[c1 [e|]]| |] eqn:E;
    try (vm_compute in E; discriminate E).
  exists c1, e. split; [reflexivity|].
  exact (replay_stops_at_error [0%nat] [1%nat] remoteRejectedCase c1 e E).
Defined.

(** ** Edge behaviour of the appliers and of the serial dispatcher *)

Lemma index_zero {A : Type} (l : list A) (x : A) : Go.index l 0 = Ret x -> head l = Some x.
Proof.
  unfold Go.index. destruct l as [|y l]; cbn.
  - discriminate.
  - intros Hx. inversion Hx; subst. reflexivity.
Qed.

Section ApplierEdges.
Context `{External}.

(** X7.  Every applier that works on a table refuses a table that the
    catalog reports as deleted, with the same error and before it reads
    its argument: the state is returned as it was. *)
Theorem deleted_table_refused (c : testCase) (task : ddlJobTask) (tp : ptr)
    (table : ddlTestTable) :
  task_k task ∈ [ddlRenameTable; ddlTruncateTable; ddlModifyTableComment;
                 ddlModifyTableCharsetAndCollate; ddlShardRowID; ddlRebaseAutoID;
                 ddlDropTable; ddlAddIndex; ddlRenameIndex; ddlDropIndex; ddlAddColumn;
                 ddlModifyColumn; ddlDropColumn; ddlSetDefaultValue] ->
  tblInfo task = Some tp ->
  hTables c !! tp = Some table ->
  isTableDeleted c tp = true ->
  updateTableInfo c task =
    Ret (c, Some (Errorf "table %s is not exists" [FStr (tbl_name table)])).
Proof.
  intros Hk Ht Htb Hdel. unfold updateTableInfo.
  destruct (task_k task);
    try (exfalso; repeat (apply elem_of_cons in Hk as [Hk|Hk]; [discriminate Hk|]);
         inversion Hk; fail);
    cbv delta [renameTableJob truncateTableJob modifyTableCommentJob
               modifyTableCharsetAndCollateJob shardRowIDJob rebaseAutoIDJob dropTableJob
               addIndexJob renameIndexJob dropIndexJob addColumnJob modifyColumnJob
               dropColumnJob setDefaultValueJob]; cbv beta;
    rewrite Ht, (deref_some _ _ _ Htb); run_step; rewrite Hdel; reflexivity.
Qed.

(** X8.  Whenever [execSerialDDLSQL] returns, it has taken the first
    task of the channel, if there was one, and has left the tasks, the
    last job id seen, the connections and the registry as they were.
    When the server answers the statement with an error, the catalog is
    not touched either, and that error is passed on unless it is one of
    the benign ones. *)
Theorem execSerialDDLSQL_takes_one (c c' : testCase) (taskCh ch' : list ptr)
    (e : option error) :
  execSerialDDLSQL c taskCh = Ret (c', ch', e) ->
  ch' = tail taskCh /\ sameBookkeeping c c' /\
  (forall tp task db,
     head taskCh = Some tp -> hTasks c !! tp = Some task -> head (dbs c) = Some db ->
     Exec db (sql task) <> None ->
     c' = c /\ (e = None <-> ddlIgnoreError (Exec db (sql task)) = true)).
Proof.
  unfold execSerialDDLSQL. intros He. destruct taskCh as [|tp queue].
  { inversion He; subst. split; [reflexivity|]. split; [apply sameBookkeeping_refl|].
    intros tp task db Hhd. discriminate Hhd. }
  apply bind_Ret in He as ([a task] & Hd & He). apply deref_Ret in Hd as [Ha Htask].
  inversion Ha; subst a; clear Ha.
  apply bind_Ret in He as (db & Hdb & He). apply index_zero in Hdb.
  destruct (Exec db (sql task)) as [re|] eqn:Hexec; cbn [isNil negb] in He.
  - assert (Hres : c' = c /\ ch' = queue /\
                   (e = None <-> ddlIgnoreError (Some re) = true)).
    { destruct (ddlIgnoreError (Some re)).
      - inversion He; subst. repeat split; reflexivity.
      - destruct (tblInfo task); inversion He; subst;
          repeat split; try reflexivity; intros Hn; discriminate Hn. }
    destruct Hres as (-> & -> & Hiff).
    split; [reflexivity|]. split; [apply sameBookkeeping_refl|].
    intros tp' task' db' Hhd Htask' Hdb' _. inversion Hhd; subst tp'.
    rewrite Htask in Htask'. inversion Htask'; subst task'.
    rewrite Hdb in Hdb'. inversion Hdb'; subst db'. rewrite Hexec.
    split; [reflexivity|exact Hiff].
  - apply bind_Ret in He as ([c1 e1] & Hu & He). apply updateTableInfo_books in Hu.
    assert (Hres : c' = c1 /\ ch' = queue).
    { destruct e1; cbn [isNil negb] in He; [destruct (tblInfo task)|];
        inversion He; subst; auto. }
    destruct Hres as [-> ->].
    split; [reflexivity|]. split; [exact Hu|].
    intros tp' task' db' Hhd Htask' Hdb' Hne. inversion Hhd; subst tp'.
    rewrite Htask in Htask'. inversion Htask'; subst task'.
    rewrite Hdb in Hdb'. inversion Hdb'; subst db'. rewrite Hexec in Hne. contradiction.
Qed.

(** X9.  A table added to the catalog and then dropped, while the
    catalog reports it as live, leaves its name unlisted: the name map
    is the one before the addition without that name, whatever the name
    pointed to, and nothing else has changed.  When the name was not
    listed before, the state is exactly the one before the addition. *)
Theorem add_then_drop_table (c : testCase) (addTask dropTask : ddlJobTask) (tp : ptr)
    (table : ddlTestTable) :
  tblInfo addTask = Some tp ->
  tblInfo dropTask = Some tp ->
  hTables c !! tp = Some table ->
  isTableDeleted (set_tables (<[tbl_name table := tp]> (tables c)) c) tp = false ->
  exists c1 : testCase,
    addTableInfo c addTask = Ret (c1, None) /\
    tables c1 !! tbl_name table = Some tp /\
    dropTableJob c1 dropTask = Ret (set_tables (delete (tbl_name table) (tables c)) c, None) /\
    (tables c !! tbl_name table = None ->
     dropTableJob c1 dropTask = Ret (c, None)).
Proof.
  intros Ha Hd Htb Hlive.
  exists (set_tables (<[tbl_name table := tp]> (tables c)) c).
  assert (Hdrop : dropTableJob (set_tables (<[tbl_name table := tp]> (tables c)) c) dropTask
                  = Ret (set_tables (delete (tbl_name table) (tables c)) c, None)).
  { unfold dropTableJob. rewrite Hd. store_simpl. rewrite (deref_some _ _ _ Htb). run_step.
    rewrite Hlive. store_simpl. rewrite delete_insert_eq. destruct c; reflexivity. }
  split; [|split; [|split]].
  - unfold addTableInfo. rewrite Ha, (deref_some _ _ _ Htb). reflexivity.
  - store_simpl. apply lookup_insert_eq.
  - exact Hdrop.
  - intros Hfresh. rewrite Hdrop. rewrite delete_id by exact Hfresh.
    destruct c; reflexivity.
Qed.

End ApplierEdges.

(** [deleted_table_refused] on the drop-table task of [goneTableCase],
    whose table has left the catalog. *)
Lemma deleted_table_refused_witness :
  updateTableInfo goneTableCase goneTask =
    Ret (goneTableCase, Some (Errorf "table %s is not exists" [FStr "t1"])).
Proof.
  apply (deleted_table_refused goneTableCase goneTask 0%nat (plainTable "t1" "44" [] [])).
  - apply (bool_decide_unpack _). vm_compute. reflexivity.
  - reflexivity.
  - reflexivity.
  - reflexivity.
Defined.

(** [execSerialDDLSQL_takes_one] on the statement of
    [rejectedSchemaCase], which the server rejects. *)
Lemma execSerialDDLSQL_takes_one_witness :
  [] = tail [0%nat] /\ sameBookkeeping rejectedSchemaCase rejectedSchemaCase /\
  (forall tp task db,
     head [0%nat] = Some tp -> hTasks rejectedSchemaCase !! tp = Some task ->
     head (dbs rejectedSchemaCase) = Some db ->
     Exec db (sql task) <> None ->
     rejectedSchemaCase = rejectedSchemaCase /\
     (Some (Errorf "Error when executing SQL: %s\n remote tidb Err: %#v\n"
              [FStr "CREATE DATABASE `s1` CHARACTER SET 'utf8' COLLATE 'utf8_bin'";
               FErr (Some (LibError "server" "Error 1105: unknown"))]) = None <->
      ddlIgnoreError (Exec db (sql task)) = true)).
Proof.
  apply (execSerialDDLSQL_takes_one rejectedSchemaCase rejectedSchemaCase [0%nat] []).
  vm_compute. reflexivity.
Defined.

(** [add_then_drop_table] on the table of [goneTableCase], whose name
    the catalog does not list. *)
Lemma add_then_drop_table_witness :
  exists c1 : testCase,
    addTableInfo goneTableCase
      (mkTask 0 ddlAddTable (Some 0%nat) None None "CREATE TABLE `t1` (`c` int)" ArgNil None)
      = Ret (c1, None) /\
    tables c1 !! "t1" = Some 0%nat /\
    dropTableJob c1 goneTask =
      Ret (set_tables (delete "t1" (tables goneTableCase)) goneTableCase, None) /\
    (tables goneTableCase !! "t1" = None -> dropTableJob c1 goneTask = Ret (goneTableCase, None)).
Proof.
  apply (add_then_drop_table goneTableCase
           (mkTask 0 ddlAddTable (Some 0%nat) None None "CREATE TABLE `t1` (`c` int)" ArgNil None)
           goneTask 0%nat (plainTable "t1" "44" [] [])).
  - reflexivity.
  - reflexivity.
  - reflexivity.
  - vm_compute. reflexivity.
Defined.

(** ** Adding an index, and dropping it again *)

Section IndexRoundTrip.
Context `{External}.

Lemma firstDeletedColumn_none (c : testCase) (tp : ptr) (cols : list ptr) :
  Forall (fun cp => tableIsColumnDeleted c tp cp = false) cols ->
  firstDeletedColumn c tp cols = None.
Proof.
  induction 1 as [|cp cols Hcp _ IH]; cbn [firstDeletedColumn]; [reflexivity|].
  rewrite Hcp. exact IH.
Qed.

Lemma firstDeletedColumn_first (c : testCase) (tp cp : ptr) (l1 l2 : list ptr) :
  Forall (fun cq => tableIsColumnDeleted c tp cq = false) l1 ->
  tableIsColumnDeleted c tp cp = true ->
  firstDeletedColumn c tp (l1 ++ cp :: l2) = Some cp.
Proof.
  induction 1 as [|cq l1 Hcq _ IH]; intros Hcp; cbn [firstDeletedColumn app].
  - rewrite Hcp. reflexivity.
  - rewrite Hcq. apply IH. exact Hcp.
Qed.

(** The increment loop of [addIndexJob] on distinct columns whose
    counters have room for one more reference. *)
Lemma incrementReferences_all (cols : list ptr) :
  forall c : testCase,
  NoDup cols ->
  Forall (fun cp => exists col, hColumns c !! cp = Some col /\
                                Go.min_int <= indexReferences col < Go.max_int) cols ->
  exists h' : gmap nat ddlTestColumn,
    forEach (fun (s : testCase) (cp : ptr) =>
               '(_, column) ← deref (hColumns s) (Some cp);
               Ret (putColumn cp (withIndexReferences
                                     (Go.add (indexReferences column) 1) column) s))
            c cols = Ret (set_hColumns h' c) /\
    (forall cp col, cp ∈ cols -> hColumns c !! cp = Some col ->
       h' !! cp = Some (withIndexReferences (indexReferences col + 1) col)) /\
    (forall cp, cp ∉ cols -> h' !! cp = hColumns c !! cp).
Proof.
  induction cols as [|cp rest IH]; intros c Hnd HF.
  - exists (hColumns c). split; [destruct c; reflexivity|].
    split; [intros cp col Hin; inversion Hin|reflexivity].
  - apply NoDup_cons in Hnd as [Hnotin Hnd].
    apply Forall_cons in HF as [[col [Hcol Hrange]] HF].
    cbn [forEach]. rewrite (deref_some _ _ _ Hcol). run_step.
    assert (Hadd : Go.add (indexReferences col) 1 = indexReferences col + 1).
    { unfold Go.add. apply wrap_id. unfold Go.min_int, Go.max_int in *. lia. }
    rewrite Hadd.
    set (c1 := putColumn cp (withIndexReferences (indexReferences col + 1) col) c).
    destruct (IH c1 Hnd) as (h' & Hrun & Hin & Hout).
    { apply Forall_forall. intros cq Hq. rewrite Forall_forall in HF.
      destruct (HF cq Hq) as [cl [Hcl Hr]]. exists cl. split; [|exact Hr].
      subst c1. store_simpl. rewrite lookup_insert_ne; [exact Hcl|].
      intros ->. contradiction. }
    exists h'. split; [rewrite Hrun; destruct c; reflexivity|]. split.
    + intros cq cl Hq Hcl. apply elem_of_cons in Hq as [->|Hq].
      * rewrite Hout by exact Hnotin. subst c1. store_simpl.
        rewrite lookup_insert_eq. congruence.
      * apply Hin; [exact Hq|]. subst c1. store_simpl.
        rewrite lookup_insert_ne; [exact Hcl|]. intros ->. contradiction.
    + intros cq Hq. rewrite not_elem_of_cons in Hq. destruct Hq as [Hne Hq].
      rewrite Hout by exact Hq. subst c1. store_simpl.
      rewrite lookup_insert_ne; [reflexivity|]. congruence.
Qed.

(** What [addIndexJob] does on a live table when no member column is
    reported as deleted. *)
Lemma addIndexJob_adds (c : testCase) (task : ddlJobTask) (tp ip : ptr)
    (table : ddlTestTable) (ix : ddlTestIndex) :
  tblInfo task = Some tp ->
  hTables c !! tp = Some table ->
  isTableDeleted c tp = false ->
  arg task = ArgIndex (mkIndexArg (Some ip)) ->
  hIndexes c !! ip = Some ix ->
  Forall (fun cp => tableIsColumnDeleted c tp cp = false) (idx_columns ix) ->
  NoDup (idx_columns ix) ->
  Forall (fun cp => exists col, hColumns c !! cp = Some col /\
                                Go.min_int <= indexReferences col < Go.max_int)
    (idx_columns ix) ->
  exists h' : gmap nat ddlTestColumn,
    addIndexJob c task =
      Ret (putTable tp (withIndexes (indexes table ++ [ip]) table) (set_hColumns h' c),
           None) /\
    (forall cp col, cp ∈ idx_columns ix -> hColumns c !! cp = Some col ->
       h' !! cp = Some (withIndexReferences (indexReferences col + 1) col)) /\
    (forall cp, cp ∉ idx_columns ix -> h' !! cp = hColumns c !! cp).
Proof.
  intros Ht Htb Hlive Harg Hix Hnone Hnd HF.
  destruct (incrementReferences_all (idx_columns ix)
              (putTable tp (withIndexes (indexes table ++ [ip]) table) c) Hnd HF)
    as (h' & Hrun & Hin & Hout).
  exists h'. split; [|split; [exact Hin|exact Hout]].
  unfold addIndexJob. rewrite Ht, (deref_some _ _ _ Htb). run_step. rewrite Hlive.
  rewrite Harg. cbn [asIndex]. run_step.
  change (index {| index := Some ip |}) with (Some ip).
  rewrite (deref_some _ _ _ Hix). run_step.
  rewrite (firstDeletedColumn_none _ _ _ Hnone).
  rewrite Hrun. run_step. destruct c; reflexivity.
Qed.

(** X10.  [addIndexJob] on a live table.  If some member column of the
    index is reported as deleted, the applier returns the error naming
    the first such column and the state is as it was.  Otherwise, the
    members being distinct columns whose counters have room, the index
    is appended to the index list of the table, every member's counter
    is one more than before, and no other column is touched. *)
Theorem addIndexJob_counts (c : testCase) (task : ddlJobTask) (tp ip : ptr)
    (table : ddlTestTable) (ix : ddlTestIndex) :
  tblInfo task = Some tp ->
  hTables c !! tp = Some table ->
  isTableDeleted c tp = false ->
  arg task = ArgIndex (mkIndexArg (Some ip)) ->
  hIndexes c !! ip = Some ix ->
  (forall l1 l2 cp col,
     idx_columns ix = l1 ++ cp :: l2 ->
     Forall (fun cq => tableIsColumnDeleted c tp cq = false) l1 ->
     tableIsColumnDeleted c tp cp = true ->
     hColumns c !! cp = Some col ->
     addIndexJob c task =
       Ret (c, Some (Errorf "local Execute add index %s on column %s error , column is deleted"
                       [FStr (idx_name ix); FStr (col_name col)]))) /\
  (Forall (fun cp => tableIsColumnDeleted c tp cp = false) (idx_columns ix) ->
   NoDup (idx_columns ix) ->
   Forall (fun cp => exists col, hColumns c !! cp = Some col /\
                                 Go.min_int <= indexReferences col < Go.max_int)
     (idx_columns ix) ->
   exists h' : gmap nat ddlTestColumn,
     addIndexJob c task =
       Ret (putTable tp (withIndexes (indexes table ++ [ip]) table) (set_hColumns h' c),
            None) /\
     (forall cp col, cp ∈ idx_columns ix -> hColumns c !! cp = Some col ->
        h' !! cp = Some (withIndexReferences (indexReferences col + 1) col)) /\
     (forall cp, cp ∉ idx_columns ix -> h' !! cp = hColumns c !! cp)).
Proof.
  intros Ht Htb Hlive Harg Hix. split.
  - intros l1 l2 cp col Hcols Hl1 Hcp Hcol.
    unfold addIndexJob. rewrite Ht, (deref_some _ _ _ Htb). run_step. rewrite Hlive.
    rewrite Harg. cbn [asIndex]. run_step.
    change (index {| index := Some ip |}) with (Some ip).
    rewrite (deref_some _ _ _ Hix). run_step.
    rewrite Hcols, (firstDeletedColumn_first _ _ _ _ _ Hl1 Hcp).
    rewrite (deref_some _ _ _ Hcol). reflexivity.
  - apply addIndexJob_adds; assumption.
Qed.

(** X11.  An index added to a live table and dropped again right away
    leaves the state exactly as it was before the addition, provided no
    index of the table had its name, its member columns are distinct and
    live, and their counters are not negative and have room. *)
Theorem add_then_drop_index (c : testCase) (addTask dropTask : ddlJobTask) (tp ip : ptr)
    (table : ddlTestTable) (ix : ddlTestIndex) :
  tblInfo addTask = Some tp ->
  tblInfo dropTask = Some tp ->
  arg addTask = ArgIndex (mkIndexArg (Some ip)) ->
  arg dropTask = ArgIndex (mkIndexArg (Some ip)) ->
  hTables c !! tp = Some table ->
  hIndexes c !! ip = Some ix ->
  isTableDeleted c tp = false ->
  (forall c1, addIndexJob c addTask = Ret (c1, None) -> isTableDeleted c1 tp = false) ->
  Forall (fun p => exists x, hIndexes c !! p = Some x /\ idx_name x <> idx_name ix)
    (indexes table) ->
  Forall (fun cp => tableIsColumnDeleted c tp cp = false) (idx_columns ix) ->
  NoDup (idx_columns ix) ->
  Forall (fun cp => exists col, hColumns c !! cp = Some col /\
                                0 <= indexReferences col < Go.max_int) (idx_columns ix) ->
  exists c1 : testCase,
    addIndexJob c addTask = Ret (c1, None) /\ dropIndexJob c1 dropTask = Ret (c, None).
Proof.
  intros Hta Htd Haa Had Htb Hix Hlive Hlive1 Hnames Hnone Hnd HF.
  assert (HF' : Forall (fun cp => exists col, hColumns c !! cp = Some col /\
                          Go.min_int <= indexReferences col < Go.max_int) (idx_columns ix)).
  { eapply Forall_impl; [exact HF|]. intros cp (col & Hcol & Hr). exists col.
    split; [exact Hcol|]. unfold Go.min_int. lia. }
  destruct (addIndexJob_adds c addTask tp ip table ix Hta Htb Hlive Haa Hix Hnone Hnd HF')
    as (h' & Hadd & Hin & Hout).
  set (table1 := withIndexes (indexes table ++ [ip]) table) in *.
  set (c1 := putTable tp table1 (set_hColumns h' c)) in *.
  exists c1. split; [exact Hadd|].
  specialize (Hlive1 c1 Hadd).
  assert (Htb1 : hTables c1 !! tp = Some table1).
  { subst c1. store_simpl. apply lookup_insert_eq. }
  assert (Hix1 : hIndexes c1 !! ip = Some ix) by exact Hix.
  destruct (decrementReferences_all (idx_columns ix) c1 Hnd) as (h'' & Hdec & Hin2 & Hout2).
  { apply Forall_forall. intros cp Hcp. rewrite Forall_forall in HF.
    destruct (HF cp Hcp) as (col & Hcol & Hr).
    exists (withIndexReferences (indexReferences col + 1) col). split.
    - subst c1. store_simpl. apply Hin; assumption.
    - cbn. lia. }
  assert (Hh : h'' = hColumns c).
  { apply map_eq. intros cp. destruct (decide (cp ∈ idx_columns ix)) as [Hcp|Hcp].
    - rewrite Forall_forall in HF. destruct (HF cp Hcp) as (col & Hcol & Hr).
      rewrite (Hin2 cp (withIndexReferences (indexReferences col + 1) col) Hcp).
      + rewrite Hcol. f_equal. destruct col; unfold withIndexReferences; cbn. f_equal. lia.
      + subst c1. store_simpl. apply Hin; assumption.
    - rewrite Hout2 by exact Hcp. subst c1. store_simpl. apply Hout. exact Hcp. }
  unfold dropIndexJob. rewrite Htd, (deref_some _ _ _ Htb1). run_step. rewrite Hlive1.
  rewrite Had. cbn [asIndex]. run_step.
  change (index {| index := Some ip |}) with (Some ip).
  rewrite (deref_some _ _ _ Hix1). run_step.
  assert (Hfind : findFirst (hIndexes c1) (fun x => String.eqb (idx_name ix) (idx_name x))
                    (indexes table1) 0 (-1) = Ret (0 + Go.len (indexes table))).
  { subst table1. cbn [indexes withIndexes].
    apply (findFirst_first _ _ _ [] ip ix).
    - eapply Forall_impl; [exact Hnames|]. intros p (x & Hx & Hne). exists x.
      split; [exact Hx|]. apply String.eqb_neq. congruence.
    - exact Hix.
    - apply String.eqb_refl. }
  rewrite Hfind. run_step.
  pose proof (len_nonneg (indexes table)) as Hlen.
  destruct (0 + Go.len (indexes table) =? -1) eqn:E; [apply Z.eqb_eq in E; lia|].
  rewrite Hdec. run_step. rewrite Z.add_0_l.
  change (indexes table1) with (indexes table ++ [ip]).
  rewrite removeAt_middle. run_step. rewrite app_nil_r, Hh.
  subst c1 table1. unfold putTable, set_hTables, set_hColumns. cbn.
  rewrite insert_insert_eq.
  replace (withIndexes (indexes table) (withIndexes (indexes table ++ [ip]) table))
    with table by (destruct table; reflexivity).
  rewrite insert_id by exact Htb. destruct c; reflexivity.
Qed.

End IndexRoundTrip.

(** ** Adding and dropping a column *)

Section ColumnAppliers.
Context `{External}.

(** Filling the rows of a column changes no name. *)
Lemma names_after_fill (c : testCase) (np : ptr) (p : option ptr)
    (newColumn y : ddlTestColumn) (r : list value) :
  hColumns c !! np = Some newColumn ->
  columnAt c p = Some y ->
  exists y', columnAt (putColumn np (withRows r newColumn) c) p = Some y' /\
             col_name y' = col_name y.
Proof.
  intros Hnp Hp. destruct p as [p|]; [|discriminate Hp]. cbn [columnAt] in Hp |- *.
  store_simpl. destruct (decide (p = np)) as [->|Hne].
  - rewrite lookup_insert_eq. exists (withRows r newColumn). split; [reflexivity|].
    rewrite Hnp in Hp. inversion Hp; subst. reflexivity.
  - rewrite lookup_insert_ne by congruence. exists y. split; [exact Hp|reflexivity].
Qed.

(** X12.  [addColumnJob] on a live table.  The new column gets one row
    per row of the table, each holding its default value, whatever the
    strategy.  It is then put in front for FIRST and at the end for the
    last position.  For AFTER X it is put right behind the first column
    that bears the name of X; when no column of the table bears that
    name the applier returns an error and the column list is as it was,
    the rows of the new column being filled all the same. *)
Theorem addColumnJob_positions (c : testCase) (task : ddlJobTask) (tp np : ptr)
    (table : ddlTestTable) (a : ddlColumnJobArg) (newColumn : ddlTestColumn) :
  tblInfo task = Some tp ->
  hTables c !! tp = Some table ->
  isTableDeleted c tp = false ->
  arg task = ArgColumn a ->
  column a = Some np ->
  hColumns c !! np = Some newColumn ->
  let filled := withRows (replicate (Z.to_nat (numberOfRows table)) (defaultValue newColumn))
                  newColumn in
  let c1 := putColumn np filled c in
  (strategy a = ddlTestAddDropColumnStrategyAtBeginning ->
   addColumnJob c task
     = Ret (putTable tp (withColumns (Some np :: columns table) table) c1, None)) /\
  (strategy a = ddlTestAddDropColumnStrategyAtEnd ->
   addColumnJob c task
     = Ret (putTable tp (withColumns (columns table ++ [Some np]) table) c1, None)) /\
  (strategy a = ddlTestAddDropColumnStrategyAtRandom ->
   forall (ap : ptr) (after : ddlTestColumn),
   insertAfterColumn a = Some ap ->
   hColumns c !! ap = Some after ->
   (forall (l1 l2 : list (option ptr)) (xp : option ptr) (x : ddlTestColumn),
      columns table = l1 ++ xp :: l2 ->
      Go.len (columns table) <= Go.max_int ->
      Forall (fun p => exists y, columnAt c p = Some y /\ col_name y <> col_name after) l1 ->
      columnAt c xp = Some x ->
      col_name x = col_name after ->
      addColumnJob c task
        = Ret (putTable tp (withColumns (l1 ++ xp :: Some np :: l2) table) c1, None)) /\
   (Forall (fun p => exists y, columnAt c p = Some y /\ col_name y <> col_name after)
      (columns table) ->
    addColumnJob c task
      = Ret (c1, Some (Errorf
               "table %s ,insert column %s after column, column %s is not exists "
               [FStr (tbl_name table); FStr (col_name newColumn); FStr (col_name after)])))).
Proof.
  intros Ht Htb Hlive Harg Hnp Hnew filled c1.
  assert (Hhead : addColumnJob c task =
    if strategy a =? ddlTestAddDropColumnStrategyAtBeginning then
      Ret (putTable tp (withColumns (arraylist.Insert (columns table) 0 (Some np)) table) c1,
           None)
    else if strategy a =? ddlTestAddDropColumnStrategyAtEnd then
      Ret (putTable tp (withColumns (arraylist.Add (columns table) (Some np)) table) c1, None)
    else if strategy a =? ddlTestAddDropColumnStrategyAtRandom then
      '(_, after) ← deref (hColumns c1) (insertAfterColumn a);
      insertAfterPosition ← findFirstColumn (hColumns c1)
                              (fun x => String.eqb (col_name after) (col_name x))
                              (columns table) 0 (-1);
      if insertAfterPosition =? -1 then
        Ret (c1, Some (Errorf
                "table %s ,insert column %s after column, column %s is not exists "
                [FStr (tbl_name table); FStr (col_name filled); FStr (col_name after)]))
      else
        Ret (putTable tp (withColumns
                             (arraylist.Insert (columns table)
                                (Go.add insertAfterPosition 1) (Some np)) table) c1, None)
    else Ret (c1, None)).
  { unfold addColumnJob. rewrite Ht, (deref_some _ _ _ Htb). run_step. rewrite Hlive.
    rewrite Harg. cbn [asColumn]. run_step. rewrite Hnp, (deref_some _ _ _ Hnew). run_step.
    reflexivity. }
  rewrite Hhead. clear Hhead. split; [|split].
  - intros ->. cbn [Z.eqb ddlTestAddDropColumnStrategyAtBeginning Pos.eqb].
    rewrite (Insert_middle [] (columns table) (Some np)
               : arraylist.Insert (columns table) 0 (Some np) = _).
    reflexivity.
  - intros ->. reflexivity.
  - intros -> ap after Hap Hafter.
    cbn [Z.eqb ddlTestAddDropColumnStrategyAtRandom ddlTestAddDropColumnStrategyAtBeginning
         ddlTestAddDropColumnStrategyAtEnd Pos.eqb].
    destruct (names_after_fill c np (Some ap) newColumn after
                (replicate (Z.to_nat (numberOfRows table)) (defaultValue newColumn))
                Hnew Hafter) as (after' & Hafter' & Hname).
    fold filled in Hafter'. fold c1 in Hafter'. cbn [columnAt] in Hafter'.
    rewrite Hap, (deref_some _ _ _ Hafter'). run_step. rewrite Hname.
    assert (Hothers : forall l,
      Forall (fun p => exists y, columnAt c p = Some y /\ col_name y <> col_name after) l ->
      Forall (fun p => exists y, columnAt c1 p = Some y /\
                String.eqb (col_name after) (col_name y) = false) l).
    { intros l Hl. eapply Forall_impl; [exact Hl|]. intros p (y & Hy & Hne).
      destruct (names_after_fill c np p newColumn y
                  (replicate (Z.to_nat (numberOfRows table)) (defaultValue newColumn))
                  Hnew Hy) as (y' & Hy' & Hn).
      exists y'. split; [exact Hy'|]. apply String.eqb_neq. congruence. }
    split.
    + intros l1 l2 xp x Hcols Hlen Hl1 Hx Hxname.
      destruct (names_after_fill c np xp newColumn x
                  (replicate (Z.to_nat (numberOfRows table)) (defaultValue newColumn))
                  Hnew Hx) as (x' & Hx' & Hn).
      fold filled in Hx'. fold c1 in Hx'.
      rewrite Hcols.
      rewrite (findFirstColumn_first c1 _ l1 l2 xp x' 0 (-1) (Hothers l1 Hl1) Hx')
        by (apply String.eqb_eq; congruence).
      run_step. pose proof (len_nonneg l1) as Hpos.
      destruct (0 + Go.len l1 =? -1) eqn:E; [apply Z.eqb_eq in E; lia|].
      assert (Hpos1 : Go.add (0 + Go.len l1) 1 = Go.len (l1 ++ [xp])).
      { rewrite len_app. unfold Go.add. rewrite Hcols, len_app in Hlen.
        change (Go.len [xp]) with 1. change (Go.len (xp :: l2)) with (Z.of_nat (S (length l2)))
          in Hlen.
        apply wrap_id. unfold Go.min_int, Go.max_int in *. lia. }
      rewrite Hpos1.
      replace (l1 ++ xp :: l2) with ((l1 ++ [xp]) ++ l2) by (rewrite <- app_assoc; reflexivity).
      rewrite Insert_middle. rewrite <- app_assoc. reflexivity.
    + intros Hall.
      rewrite (findFirstColumn_absent c1 _ (columns table) 0 (-1) (Hothers _ Hall)).
      run_step. reflexivity.
Qed.

(** The head of [dropColumnJob] on a live table, once the column of the
    task is known to have no index reference. *)
Lemma dropColumnJob_head (c : testCase) (task : ddlJobTask) (tp dp : ptr)
    (table : ddlTestTable) (a : ddlColumnJobArg) (columnToDrop : ddlTestColumn) :
  tblInfo task = Some tp ->
  hTables c !! tp = Some table ->
  isTableDeleted c tp = false ->
  arg task = ArgColumn a ->
  column a = Some dp ->
  hColumns c !! dp = Some columnToDrop ->
  indexReferences columnToDrop <= 0 ->
  dropColumnJob c task =
    dropColumnPosition ← findFirstColumn (hColumns c)
                           (fun x => String.eqb (col_name columnToDrop) (col_name x))
                           (columns table) 0 (-1);
    if dropColumnPosition =? -1 then
      Ret (c, Some (Errorf "table %s ,drop column , column %s is not exists "
                       [FStr (tbl_name table); FStr (col_name columnToDrop)]))
    else
      let c1 := putTable tp (withColumns (arraylist.Remove (columns table) dropColumnPosition)
                               table) c in
      if isGenerated c1 dp then
        '(pp, col) ← deref (hColumns c1) (dependency columnToDrop);
        i ← rangeBreak (hColumns c1)
              (fun x => String.eqb (col_name x) (col_name columnToDrop))
              (dependenciedCols col);
        l ← Go.removeAt (dependenciedCols col) i;
        Ret (putColumn pp (withDependenciedCols l col) c1, None)
      else Ret (c1, None).
Proof.
  intros Ht Htb Hlive Harg Hdp Hcol Hrefs.
  unfold dropColumnJob. rewrite Ht, (deref_some _ _ _ Htb). run_step. rewrite Hlive.
  rewrite Harg. cbn [asColumn]. run_step. rewrite Hdp, (deref_some _ _ _ Hcol). run_step.
  destruct (indexReferences columnToDrop >? 0) eqn:E; [|reflexivity].
  rewrite Z.gtb_ltb in E. apply Z.ltb_lt in E. lia.
Qed.

Lemma names_differ (c : testCase) (name : string) (l : list (option ptr)) :
  Forall (fun p => exists y, columnAt c p = Some y /\ col_name y <> name) l ->
  Forall (fun p => exists y, columnAt c p = Some y /\
            String.eqb name (col_name y) = false) l.
Proof.
  intros Hl. eapply Forall_impl; [exact Hl|]. intros p (y & Hy & Hne).
  exists y. split; [exact Hy|]. apply String.eqb_neq. congruence.
Qed.

(** X13.  [dropColumnJob] on a live table.  A column that an index
    still refers to is not dropped: the applier calls
    [setDeletedRecover] on it and returns an error with the state that
    call leaves.  A column without index reference whose
    name no column of the table bears gives an error and the state is
    as it was.  Otherwise the first column of the table that bears the
    name leaves the column list, and when the dropped column is not a
    generated one nothing else changes. *)
Theorem dropColumnJob_removes (c : testCase) (task : ddlJobTask) (tp dp : ptr)
    (table : ddlTestTable) (a : ddlColumnJobArg) (columnToDrop : ddlTestColumn) :
  tblInfo task = Some tp ->
  hTables c !! tp = Some table ->
  isTableDeleted c tp = false ->
  arg task = ArgColumn a ->
  column a = Some dp ->
  hColumns c !! dp = Some columnToDrop ->
  (0 < indexReferences columnToDrop ->
   forall c1 : testCase,
   column_setDeletedRecover (Some dp) c = Ret c1 ->
   dropColumnJob c task =
     Ret (c1,
          Some (Errorf
             "local Execute drop column %s on table %s error , column has index reference"
             [FStr (col_name columnToDrop); FStr (tbl_name table)]))) /\
  (indexReferences columnToDrop <= 0 ->
   Forall (fun p => exists y, columnAt c p = Some y /\
                              col_name y <> col_name columnToDrop) (columns table) ->
   dropColumnJob c task =
     Ret (c, Some (Errorf "table %s ,drop column , column %s is not exists "
                      [FStr (tbl_name table); FStr (col_name columnToDrop)]))) /\
  (indexReferences columnToDrop <= 0 ->
   forall (l1 l2 : list (option ptr)) (xp : option ptr) (x : ddlTestColumn),
   columns table = l1 ++ xp :: l2 ->
   Forall (fun p => exists y, columnAt c p = Some y /\
                              col_name y <> col_name columnToDrop) l1 ->
   columnAt c xp = Some x ->
   col_name x = col_name columnToDrop ->
   isGenerated (putTable tp (withColumns (l1 ++ l2) table) c) dp = false ->
   dropColumnJob c task = Ret (putTable tp (withColumns (l1 ++ l2) table) c, None)).
Proof.
  intros Ht Htb Hlive Harg Hdp Hcol. split; [|split].
  - intros Hrefs c1 Hc1. unfold dropColumnJob.
    rewrite Ht, (deref_some _ _ _ Htb). run_step. rewrite Hlive.
    rewrite Harg. cbn [asColumn]. run_step. rewrite Hdp, (deref_some _ _ _ Hcol). run_step.
    destruct (indexReferences columnToDrop >? 0) eqn:E.
    + rewrite Hc1. reflexivity.
    + rewrite Z.gtb_ltb in E. apply Z.ltb_ge in E. lia.
  - intros Hrefs Hall.
    rewrite (dropColumnJob_head c task tp dp table a columnToDrop) by assumption.
    rewrite (findFirstColumn_absent c _ (columns table) 0 (-1)
               (names_differ _ _ _ Hall)).
    reflexivity.
  - intros Hrefs l1 l2 xp x Hcols Hl1 Hx Hname Hgen.
    rewrite (dropColumnJob_head c task tp dp table a columnToDrop) by assumption.
    rewrite Hcols.
    rewrite (findFirstColumn_first c _ l1 l2 xp x 0 (-1) (names_differ _ _ _ Hl1) Hx)
      by (apply String.eqb_eq; congruence).
    run_step. pose proof (len_nonneg l1) as Hpos.
    destruct (0 + Go.len l1 =? -1) eqn:E; [apply Z.eqb_eq in E; lia|].
    rewrite Z.add_0_l, Remove_middle. cbv zeta. rewrite Hgen. reflexivity.
Qed.

Lemma names_differ_from (h : gmap nat ddlTestColumn) (name : string) (l : list ptr) :
  Forall (fun p => exists y, h !! p = Some y /\ col_name y <> name) l ->
  Forall (fun p => exists y, h !! p = Some y /\ String.eqb (col_name y) name = false) l.
Proof.
  intros Hl. eapply Forall_impl; [exact Hl|]. intros p (y & Hy & Hne).
  exists y. split; [exact Hy|]. apply String.eqb_neq. exact Hne.
Qed.

(** X14.  [dropColumnJob] on a generated column that leaves the column
    list: the column it depends on loses one dependent.  That is the
    first dependent bearing the name of the dropped column when there is
    one.  When no dependent bears that name, the last dependent is
    removed all the same, and when the column had no dependent at all
    the applier panics on the slice bounds. *)
Theorem dropColumnJob_dependents (c : testCase) (task : ddlJobTask) (tp dp pp : ptr)
    (xp : option ptr) (table : ddlTestTable) (a : ddlColumnJobArg)
    (columnToDrop x col : ddlTestColumn) (l1 l2 : list (option ptr)) :
  tblInfo task = Some tp ->
  hTables c !! tp = Some table ->
  isTableDeleted c tp = false ->
  arg task = ArgColumn a ->
  column a = Some dp ->
  hColumns c !! dp = Some columnToDrop ->
  indexReferences columnToDrop <= 0 ->
  columns table = l1 ++ xp :: l2 ->
  Forall (fun p => exists y, columnAt c p = Some y /\
                             col_name y <> col_name columnToDrop) l1 ->
  columnAt c xp = Some x ->
  col_name x = col_name columnToDrop ->
  let c1 := putTable tp (withColumns (l1 ++ l2) table) c in
  isGenerated c1 dp = true ->
  dependency columnToDrop = Some pp ->
  hColumns c !! pp = Some col ->
  (forall (d1 d2 : list ptr) (q : ptr) (y : ddlTestColumn),
     dependenciedCols col = d1 ++ q :: d2 ->
     Forall (fun p => exists z, hColumns c !! p = Some z /\
                                col_name z <> col_name columnToDrop) d1 ->
     hColumns c !! q = Some y ->
     col_name y = col_name columnToDrop ->
     dropColumnJob c task = Ret (putColumn pp (withDependenciedCols (d1 ++ d2) col) c1, None)) /\
  (forall (d : list ptr) (q : ptr),
     dependenciedCols col = d ++ [q] ->
     Forall (fun p => exists z, hColumns c !! p = Some z /\
                                col_name z <> col_name columnToDrop) (d ++ [q]) ->
     dropColumnJob c task = Ret (putColumn pp (withDependenciedCols d col) c1, None)) /\
  (dependenciedCols col = [] -> dropColumnJob c task = Panic IndexOutOfRange).
Proof.
  intros Ht Htb Hlive Harg Hdp Hcol Hrefs Hcols Hl1 Hx Hname c1 Hgen Hdep Hpp.
  assert (Hhead : dropColumnJob c task =
    i ← rangeBreak (hColumns c)
          (fun x => String.eqb (col_name x) (col_name columnToDrop))
          (dependenciedCols col);
    l ← Go.removeAt (dependenciedCols col) i;
    Ret (putColumn pp (withDependenciedCols l col) c1, None)).
  { rewrite (dropColumnJob_head c task tp dp table a columnToDrop) by assumption.
    rewrite Hcols.
    rewrite (findFirstColumn_first c _ l1 l2 xp x 0 (-1) (names_differ _ _ _ Hl1) Hx)
      by (apply String.eqb_eq; congruence).
    run_step. pose proof (len_nonneg l1) as Hpos.
    destruct (0 + Go.len l1 =? -1) eqn:E; [apply Z.eqb_eq in E; lia|].
    rewrite Z.add_0_l, Remove_middle. cbv zeta. fold c1. rewrite Hgen, Hdep.
    change (hColumns c1) with (hColumns c). rewrite (deref_some _ _ _ Hpp). run_step.
    reflexivity. }
  rewrite Hhead. clear Hhead. unfold rangeBreak. split; [|split].
  - intros d1 d2 q y Hd Hd1 Hq Hqname. rewrite Hd.
    rewrite (findFirst_first (hColumns c) _ d1 d2 q y 0 _
               (names_differ_from _ _ _ Hd1) Hq)
      by (apply String.eqb_eq; exact Hqname).
    run_step. rewrite Z.add_0_l, removeAt_middle. reflexivity.
  - intros d q Hd Hall. rewrite Hd.
    rewrite (findFirst_absent (hColumns c) _ (d ++ [q]) 0 _ (names_differ_from _ _ _ Hall)).
    run_step. rewrite len_app. change (Go.len [q]) with 1.
    pose proof (len_nonneg d) as Hpos.
    destruct (Go.len d + 1 =? 0) eqn:E; [apply Z.eqb_eq in E; lia|].
    replace (Go.len d + 1 - 1) with (Go.len d) by lia.
    rewrite removeAt_middle. run_step. rewrite app_nil_r. reflexivity.
  - intros Hd. rewrite Hd. reflexivity.
Qed.

End ColumnAppliers.

(** ** Truncating a table *)

Section Truncate.
Context `{External}.

(** The loop of [truncateTableJob] over columns that exist: it returns,
    writes columns only, and leaves each column as it was or without
    rows. *)
Lemma truncate_loop (cols : list (option ptr)) :
  forall s : testCase,
  Forall (fun p => is_Some (columnAt s p)) cols ->
  exists s' : testCase,
    forEach (fun (s : testCase) (p : option ptr) =>
               '(cp, column) ← deref (hColumns s) p;
               if negb (isGenerated s cp) then Ret (putColumn cp (withRows [] column) s)
               else Ret s)
            s cols = Ret s' /\
    hTables s' = hTables s /\ hIndexes s' = hIndexes s /\ tables s' = tables s /\
    (forall cp, Some cp ∉ cols -> hColumns s' !! cp = hColumns s !! cp) /\
    (forall cp col, hColumns s !! cp = Some col ->
       hColumns s' !! cp = Some col \/ hColumns s' !! cp = Some (withRows [] col)).
Proof.
  induction cols as [|p0 rest IH]; intros s Hall.
  - exists s. cbn [forEach]. repeat split; auto.
  - apply Forall_cons in Hall as [[column Hcol] Hrest].
    destruct p0 as [cp|]; [|discriminate Hcol]. cbn [columnAt] in Hcol.
    cbn [forEach]. rewrite (deref_some _ _ _ Hcol). run_step.
    destruct (negb (isGenerated s cp)); run_step.
    + destruct (IH (putColumn cp (withRows [] column) s)) as (s' & Hrun & Ht & Hi & Hn & Hout & Hin).
      { eapply Forall_impl; [exact Hrest|]. intros p [y Hy].
        destruct p as [p|]; [|discriminate Hy]. cbn [columnAt] in Hy |- *. store_simpl.
        destruct (decide (p = cp)) as [->|Hne].
        - rewrite lookup_insert_eq. eauto.
        - rewrite lookup_insert_ne by congruence. eauto. }
      exists s'. split; [exact Hrun|]. split; [exact Ht|]. split; [exact Hi|].
      split; [exact Hn|]. split.
      * intros p Hp. rewrite not_elem_of_cons in Hp. destruct Hp as [Hne Hp].
        rewrite Hout by exact Hp. store_simpl. apply lookup_insert_ne. congruence.
      * intros p col Hp. destruct (decide (p = cp)) as [->|Hne].
        -- rewrite Hcol in Hp. inversion Hp; subst col.
           destruct (Hin cp (withRows [] column)) as [Hs|Hs].
           ++ store_simpl. apply lookup_insert_eq.
           ++ right. exact Hs.
           ++ right. exact Hs.
        -- apply Hin. store_simpl. rewrite lookup_insert_ne by congruence. exact Hp.
    + destruct (IH s Hrest) as (s' & Hrun & Ht & Hi & Hn & Hout & Hin).
      exists s'. split; [exact Hrun|]. split; [exact Ht|]. split; [exact Hi|].
      split; [exact Hn|]. split; [|exact Hin].
      intros p Hp. rewrite not_elem_of_cons in Hp. destruct Hp as [_ Hp]. apply Hout. exact Hp.
Qed.

(** X15.  [truncateTableJob] on a live table whose columns exist
    returns without error.  The table has no row left, the name map and
    the indexes are as they were, no column outside the table is
    touched, and each column is as it was or has lost its rows. *)
Theorem truncateTableJob_empties (c : testCase) (task : ddlJobTask) (tp : ptr)
    (table : ddlTestTable) :
  tblInfo task = Some tp ->
  hTables c !! tp = Some table ->
  isTableDeleted c tp = false ->
  Forall (fun p => is_Some (columnAt c p)) (columns table) ->
  exists c' : testCase,
    truncateTableJob c task = Ret (c', None) /\
    hTables c' = <[tp := withNumberOfRows 0 table]> (hTables c) /\
    hIndexes c' = hIndexes c /\ tables c' = tables c /\
    (forall cp, Some cp ∉ columns table -> hColumns c' !! cp = hColumns c !! cp) /\
    (forall cp col, hColumns c !! cp = Some col ->
       hColumns c' !! cp = Some col \/ hColumns c' !! cp = Some (withRows [] col)).
Proof.
  intros Ht Htb Hlive Hall.
  destruct (truncate_loop (columns table) (putTable tp (withNumberOfRows 0 table) c) Hall)
    as (c' & Hrun & Htabs & Hix & Hnames & Hout & Hin).
  exists c'. split.
  - unfold truncateTableJob. rewrite Ht, (deref_some _ _ _ Htb). run_step. rewrite Hlive.
    rewrite Hrun. reflexivity.
  - split; [exact Htabs|]. split; [exact Hix|]. split; [exact Hnames|].
    split; [exact Hout|exact Hin].
Qed.

End Truncate.

(** ** From a prepared task to its applier *)

Lemma emit_fresh (task : ddlJobTask) (c c1 : testCase) (ch ch1 : list ptr) :
  emit task c ch = (c1, ch1) ->
  exists a : ptr, hTasks c !! a = None /\ c1 = putTask a task c /\ ch1 = ch ++ [a].
Proof.
  unfold emit. intros He. inversion He; subst.
  exists (fresh (dom (hTasks c))). split; [|split; reflexivity].
  apply not_elem_of_dom. apply is_fresh.
Qed.

Lemma index_elem {A : Type} (l : list A) (i : Z) (x : A) :
  Go.index l i = Ret x -> 0 <= i < Go.len l /\ l !! Z.to_nat i = Some x /\ x ∈ l.
Proof.
  unfold Go.index. destruct ((0 <=? i) && (i <? Go.len l)) eqn:E; [|discriminate].
  apply andb_true_iff in E as [E1 E2]. apply Z.leb_le in E1. apply Z.ltb_lt in E2.
  destruct (l !! Z.to_nat i) as [y|] eqn:Hy; [|discriminate].
  intros Hx. inversion Hx; subst. split; [lia|]. split; [reflexivity|].
  eapply list_elem_of_lookup_2. exact Hy.
Qed.

Lemma Intn_range (r n x : Z) : Go.Intn r n = Ret x -> 0 <= x < n.
Proof.
  unfold Go.Intn. destruct (0 <? n) eqn:E; [|discriminate].
  apply Z.ltb_lt in E. intros Hx. inversion Hx; subst. apply Z.mod_pos_bound. exact E.
Qed.

(** A search that meets an element satisfying the test returns a
    position of the list. *)
Lemma findFirst_finds {A : Type} (h : gmap nat A) (p : A -> bool) (l : list ptr) (a : ptr)
    (x : A) :
  a ∈ l -> h !! a = Some x -> p x = true ->
  Forall (fun b => is_Some (h !! b)) l ->
  forall i dflt : Z, exists j : Z, findFirst h p l i dflt = Ret j /\ i <= j < i + Go.len l.
Proof.
  intros Hin Hx Hp Hall. induction Hall as [|b l [y Hy] Hall IH]; intros i dflt.
  - inversion Hin.
  - cbn [findFirst]. rewrite (deref_some _ _ _ Hy). run_step.
    assert (Hlen : Go.len (b :: l) = 1 + Go.len l) by (unfold Go.len; cbn [length]; lia).
    pose proof (len_nonneg l) as Hpos.
    destruct (p y) eqn:Hpy.
    + exists i. split; [reflexivity|]. lia.
    + apply elem_of_cons in Hin as [->|Hin]; [congruence|].
      destruct (IH Hin (i + 1) dflt) as (j & Hj & Hr). exists j. split; [exact Hj|]. lia.
Qed.

Section PreparedTasks.
Context `{External}.

Lemma decrementReferences_error (cols : list ptr) :
  forall (c c' : testCase) (e : error),
  decrementReferences c cols = Ret (c', Some e) ->
  exists name, e = Errorf "drop index, index.column %s Unexpected index reference" [FStr name].
Proof.
  induction cols as [|cp rest IH]; intros c c' e Hd; cbn [decrementReferences] in Hd.
  - inversion Hd.
  - apply bind_Ret in Hd as ([a col] & _ & Hd).
    destruct (Go.sub (indexReferences col) 1 <? 0).
    + inversion Hd; subst. eauto.
    + eapply IH. exact Hd.
Qed.

(** X16.  [prepareDropIndex] never returns an error and never touches
    the catalog.  It emits nothing when no table is drawn or the table
    has no index; otherwise it emits one new drop-index task for an
    index that the table lists.  When the indexes of that table exist,
    the applier of the task, run on the state the preparer returns,
    never fails for want of the index. *)
Theorem prepareDropIndex_emits (r0 r1 : Z) (c c' : testCase) (taskCh ch' : list ptr)
    (e : option error) :
  prepareDropIndex r0 r1 c taskCh = Ret (c', ch', e) ->
  e = None /\
  ((c' = c /\ ch' = taskCh) \/
   exists (a tp ip : ptr) (table : ddlTestTable) (task : ddlJobTask),
     hTasks c !! a = None /\ c' = putTask a task c /\ ch' = taskCh ++ [a] /\
     pickupRandomTable c r0 = Some tp /\ hTables c !! tp = Some table /\
     task_k task = ddlDropIndex /\ tblInfo task = Some tp /\
     arg task = ArgIndex (mkIndexArg (Some ip)) /\ ip ∈ indexes table /\
     (Forall (fun p => is_Some (hIndexes c !! p)) (indexes table) ->
      forall c'' name1 name2,
        dropIndexJob c' task <>
          Ret (c'', Some (Errorf "table %s , index %s is not exists"
                            [FStr name1; FStr name2])))).
Proof.
  unfold prepareDropIndex. intros Hp.
  destruct (pickupRandomTable c r0) as [tp|] eqn:Hpick.
  2: { inversion Hp; subst. auto. }
  apply bind_Ret in Hp as ([tp' table] & Hd & Hp).
  apply deref_Ret in Hd as [Htp Htb]. inversion Htp; subst tp'; clear Htp.
  destruct (Go.len (indexes table) =? 0).
  { inversion Hp; subst. auto. }
  apply bind_Ret in Hp as (i & Hi & Hp).
  apply bind_Ret in Hp as (ip & Hip & Hp). apply index_elem in Hip as (_ & _ & Hin).
  apply bind_Ret in Hp as ([ip' ix] & Hd & Hp).
  apply deref_Ret in Hd as [Hipp Hix]. inversion Hipp; subst ip'; clear Hipp.
  destruct (emit _ c taskCh) as [c1 ch1] eqn:Hemit.
  apply emit_fresh in Hemit as (a & Hfresh & -> & ->).
  inversion Hp; subst; clear Hp. split; [reflexivity|]. right.
  eexists a, tp, ip, table, _. split; [exact Hfresh|]. split; [reflexivity|].
  split; [reflexivity|]. split; [reflexivity|]. split; [exact Htb|].
  split; [reflexivity|]. split; [reflexivity|]. split; [reflexivity|]. split; [exact Hin|].
  intros Hall c'' name1 name2 Hdrop.
  unfold dropIndexJob in Hdrop. cbn [tblInfo arg] in Hdrop.
  change (hTables (putTask a _ c)) with (hTables c) in Hdrop.
  change (hIndexes (putTask a _ c)) with (hIndexes c) in Hdrop.
  rewrite (deref_some _ _ _ Htb) in Hdrop. cbn [mbind run_bind Go.bind] in Hdrop.
  destruct (isTableDeleted _ tp); [inversion Hdrop|].
  cbn [asIndex mbind run_bind Go.bind] in Hdrop.
  change (index {| index := Some ip |}) with (Some ip) in Hdrop.
  rewrite (deref_some _ _ _ Hix) in Hdrop. cbn [mbind run_bind Go.bind] in Hdrop.
  destruct (findFirst_finds (hIndexes c) (fun x => String.eqb (idx_name ix) (idx_name x))
              (indexes table) ip ix Hin Hix (String.eqb_refl _) Hall 0 (-1))
    as (j & Hj & Hr).
  rewrite Hj in Hdrop. cbn [mbind run_bind Go.bind] in Hdrop.
  destruct (j =? -1) eqn:E; [apply Z.eqb_eq in E; lia|].
  apply bind_Ret in Hdrop as ([c2 e2] & Hdec & Hdrop).
  destruct e2 as [e2|].
  - apply decrementReferences_error in Hdec as [name ->]. inversion Hdrop.
  - apply bind_Ret in Hdrop as (l & _ & Hdrop). inversion Hdrop.
Qed.

(** X17.  [prepareRenameIndex] never returns an error.  It emits
    nothing when no table is drawn or the table has no index; otherwise
    it emits one new rename-index task whose position is within the
    index list of the table.  Run on the state the preparer returns,
    while table and index are reported as live, the applier renames the
    index at that position and changes nothing else. *)
Theorem prepareRenameIndex_emits (r0 r1 : Z) (newName : string) (c c' : testCase)
    (taskCh ch' : list ptr) (e : option error) :
  prepareRenameIndex r0 r1 newName c taskCh = Ret (c', ch', e) ->
  e = None /\
  ((c' = c /\ ch' = taskCh) \/
   exists (a tp ip : ptr) (table : ddlTestTable) (ix : ddlTestIndex) (task : ddlJobTask)
          (loc : Z),
     hTasks c !! a = None /\ c' = putTask a task c /\ ch' = taskCh ++ [a] /\
     pickupRandomTable c r0 = Some tp /\ hTables c !! tp = Some table /\
     task_k task = ddlRenameIndex /\ tblInfo task = Some tp /\
     arg task = ArgRenameIndex (mkRenameIndexArg loc newName) /\
     0 <= loc < Go.len (indexes table) /\ indexes table !! Z.to_nat loc = Some ip /\
     hIndexes c !! ip = Some ix /\
     (isTableDeleted c' tp = false -> isIndexDeleted c' ip tp = false ->
      renameIndexJob c' task = Ret (putIndex ip (withIndexName newName ix) c', None))).
Proof.
  unfold prepareRenameIndex. intros Hp.
  destruct (pickupRandomTable c r0) as [tp|] eqn:Hpick.
  2: { inversion Hp; subst. auto. }
  apply bind_Ret in Hp as ([tp' table] & Hd & Hp).
  apply deref_Ret in Hd as [Htp Htb]. inversion Htp; subst tp'; clear Htp.
  destruct (Go.len (indexes table) =? 0).
  { inversion Hp; subst. auto. }
  apply bind_Ret in Hp as (loc & Hloc & Hp).
  apply bind_Ret in Hp as (ip & Hip & Hp).
  pose proof (index_elem _ _ _ Hip) as (Hrange & Hat & _).
  apply bind_Ret in Hp as ([ip' ix] & Hd & Hp).
  apply deref_Ret in Hd as [Hipp Hix]. inversion Hipp; subst ip'; clear Hipp.
  destruct (emit _ c taskCh) as [c1 ch1] eqn:Hemit.
  apply emit_fresh in Hemit as (a & Hfresh & -> & ->).
  inversion Hp; subst; clear Hp. split; [reflexivity|]. right.
  eexists a, tp, ip, table, ix, _, loc. split; [exact Hfresh|]. split; [reflexivity|].
  split; [reflexivity|]. split; [reflexivity|]. split; [exact Htb|].
  split; [reflexivity|]. split; [reflexivity|]. split; [reflexivity|].
  split; [exact Hrange|]. split; [exact Hat|]. split; [exact Hix|].
  intros Hlive Hixlive.
  unfold renameIndexJob. cbn [tblInfo arg].
  change (hTables (putTask a _ c)) with (hTables c).
  change (hIndexes (putTask a _ c)) with (hIndexes c).
  rewrite (deref_some _ _ _ Htb). run_step. rewrite Hlive.
  cbn [asRenameIndex]. run_step.
  change (preIndex {| preIndex := loc; newIndex := newName |}) with loc.
  change (newIndex {| preIndex := loc; newIndex := newName |}) with newName.
  rewrite Hip. run_step. rewrite (deref_some _ _ _ Hix). run_step.
  rewrite Hixlive. reflexivity.
Qed.

(** X18.  [prepareShardRowID] never returns an error.  It emits nothing
    when no table is drawn; otherwise it emits one new task whose number
    of bits is at least zero and below [MaxShardRowIDBits], whatever the
    draw.  Run on the state the preparer returns, while the table is
    reported as live, the applier writes that number on the table and
    changes nothing else. *)
Theorem prepareShardRowID_emits (r0 r1 : Z) (c c' : testCase) (taskCh ch' : list ptr)
    (e : option error) :
  prepareShardRowID r0 r1 c taskCh = Ret (c', ch', e) ->
  e = None /\
  ((c' = c /\ ch' = taskCh /\ pickupRandomTable c r0 = None) \/
   exists (a tp : ptr) (table : ddlTestTable) (task : ddlJobTask) (bits : Z),
     hTasks c !! a = None /\ c' = putTask a task c /\ ch' = taskCh ++ [a] /\
     pickupRandomTable c r0 = Some tp /\ hTables c !! tp = Some table /\
     task_k task = ddlShardRowID /\ tblInfo task = Some tp /\
     arg task = ArgInt bits /\ 0 <= bits < MaxShardRowIDBits /\
     (isTableDeleted c' tp = false ->
      shardRowIDJob c' task = Ret (putTable tp (withShardRowId bits table) c', None))).
Proof.
  unfold prepareShardRowID. intros Hp.
  destruct (pickupRandomTable c r0) as [tp|] eqn:Hpick.
  2: { inversion Hp; subst. auto. }
  apply bind_Ret in Hp as ([tp' table] & Hd & Hp).
  apply deref_Ret in Hd as [Htp Htb]. inversion Htp; subst tp'; clear Htp.
  apply bind_Ret in Hp as (bits & Hbits & Hp). apply Intn_range in Hbits.
  destruct (emit _ c taskCh) as [c1 ch1] eqn:Hemit.
  apply emit_fresh in Hemit as (a & Hfresh & -> & ->).
  inversion Hp; subst; clear Hp. split; [reflexivity|]. right.
  eexists a, tp, table, _, bits. split; [exact Hfresh|]. split; [reflexivity|].
  split; [reflexivity|]. split; [reflexivity|]. split; [exact Htb|].
  split; [reflexivity|]. split; [reflexivity|]. split; [reflexivity|].
  split; [exact Hbits|].
  intros Hlive. unfold shardRowIDJob. cbn [tblInfo arg].
  change (hTables (putTask a _ c)) with (hTables c).
  rewrite (deref_some _ _ _ Htb). run_step. rewrite Hlive. reflexivity.
Qed.

End PreparedTasks.

(** ** The properties of the appliers on sample states *)

(** [addIndexJob_counts] on [unindexedCase]: the index joins the list
    and the counter of [a] goes from zero to one. *)
Lemma addIndexJob_counts_witness :
  exists h' : gmap nat ddlTestColumn,
    addIndexJob unindexedCase addIxTask =
      Ret (putTable 0%nat (withIndexes ([] ++ [0%nat]) (plainTable "t" "44" [0%nat; 1%nat] []))
             (set_hColumns h' unindexedCase), None) /\
    (forall cp col, cp ∈ [0%nat] -> hColumns unindexedCase !! cp = Some col ->
       h' !! cp = Some (withIndexReferences (indexReferences col + 1) col)) /\
    (forall cp, cp ∉ [0%nat] -> h' !! cp = hColumns unindexedCase !! cp).
Proof.
  refine (proj2 (addIndexJob_counts unindexedCase addIxTask 0%nat 0%nat
                   (plainTable "t" "44" [0%nat; 1%nat] []) (mkIndex "ix" "a," [0%nat])
                   _ _ _ _ _) _ _ _).
  - reflexivity.
  - reflexivity.
  - reflexivity.
  - reflexivity.
  - reflexivity.
  - repeat constructor.
  - apply (bool_decide_unpack _). vm_compute. reflexivity.
  - repeat constructor. exists (plainColumn "a" 0). split; [reflexivity|].
    unfold Go.min_int, Go.max_int. simpl. lia.
Defined.

(** [add_then_drop_index] on [unindexedCase]: adding [ix(a)] and
    dropping it gives [unindexedCase] back. *)
Lemma add_then_drop_index_witness :
  exists c1 : testCase,
    addIndexJob unindexedCase addIxTask = Ret (c1, None) /\
    dropIndexJob c1 dropIxTask = Ret (unindexedCase, None).
Proof.
  apply (add_then_drop_index unindexedCase addIxTask dropIxTask 0%nat 0%nat
           (plainTable "t" "44" [0%nat; 1%nat] []) (mkIndex "ix" "a," [0%nat])).
  - reflexivity.
  - reflexivity.
  - reflexivity.
  - reflexivity.
  - reflexivity.
  - reflexivity.
  - reflexivity.
  - intros c1 Hc1. vm_compute in Hc1. inversion Hc1; subst c1. vm_compute. reflexivity.
  - constructor.
  - repeat constructor.
  - apply (bool_decide_unpack _). vm_compute. reflexivity.
  - repeat constructor. exists (plainColumn "a" 0). split; [reflexivity|].
    unfold Go.max_int. simpl. lia.
Defined.

(** [addColumnJob_positions] on [threeColumnCase]: [a2] added after [b]
    gives [t(a, b, a2, c)]. *)
Lemma addColumnJob_positions_witness :
  addColumnJob threeColumnCase addAfterTask =
    Ret (putTable 0%nat
           (withColumns ([Some 0%nat] ++ Some 1%nat :: Some 3%nat :: [Some 2%nat])
              (plainTable "t" "44" [0%nat; 1%nat; 2%nat] []))
           (putColumn 3%nat (withRows [] (plainColumn "a2" 0)) threeColumnCase), None).
Proof.
  refine (proj1 (proj2 (proj2 (addColumnJob_positions threeColumnCase addAfterTask 0%nat 3%nat
                   (plainTable "t" "44" [0%nat; 1%nat; 2%nat] [])
                   (mkColumnArg 0 None (Some 3%nat) ddlTestAddDropColumnStrategyAtRandom
                      (Some 1%nat))
                   (plainColumn "a2" 0) _ _ _ _ _ _)) _ 1%nat (plainColumn "b" 0) _ _)
            [Some 0%nat] [Some 2%nat] (Some 1%nat) (plainColumn "b" 0) _ _ _ _ _).
  - reflexivity.
  - reflexivity.
  - reflexivity.
  - reflexivity.
  - reflexivity.
  - reflexivity.
  - reflexivity.
  - reflexivity.
  - reflexivity.
  - reflexivity.
  - vm_compute. discriminate.
  - repeat constructor. exists (plainColumn "a" 0). split; [reflexivity|]. discriminate.
  - reflexivity.
  - reflexivity.
Defined.

(** [dropColumnJob_removes] on [indexedColumnCase]: [b] leaves
    [t(a, b)]. *)
Lemma dropColumnJob_removes_witness :
  dropColumnJob indexedColumnCase dropBTask =
    Ret (putTable 0%nat (withColumns ([Some 0%nat] ++ [])
                           (plainTable "t" "44" [0%nat; 1%nat] [0%nat]))
           indexedColumnCase, None).
Proof.
  refine (proj2 (proj2 (dropColumnJob_removes indexedColumnCase dropBTask 0%nat 1%nat
                   (plainTable "t" "44" [0%nat; 1%nat] [0%nat])
                   (mkColumnArg 0 None (Some 1%nat) ddlTestAddDropColumnStrategyAtEnd None)
                   (plainColumn "b" 0) _ _ _ _ _ _)) _
            [Some 0%nat] [] (Some 1%nat) (plainColumn "b" 0) _ _ _ _ _).
  - reflexivity.
  - reflexivity.
  - reflexivity.
  - reflexivity.
  - reflexivity.
  - reflexivity.
  - simpl. lia.
  - reflexivity.
  - repeat constructor. exists (plainColumn "a" 1). split; [reflexivity|]. discriminate.
  - reflexivity.
  - reflexivity.
  - reflexivity.
Defined.

(** [dropColumnJob_dependents] on [generatedColumnCase]: with [g] gone,
    [a] has no dependent left. *)
Lemma dropColumnJob_dependents_witness :
  dropColumnJob generatedColumnCase dropGTask =
    Ret (putColumn 0%nat
           (withDependenciedCols ([] ++ []) (mkColumn "a" false "0" [] 0 None [1%nat] false))
           (putTable 0%nat
              (withColumns ([Some 0%nat] ++ []) (plainTable "t" "44" [0%nat; 1%nat] []))
              generatedColumnCase), None).
Proof.
  refine (proj1 (dropColumnJob_dependents generatedColumnCase dropGTask 0%nat 1%nat 0%nat
                   (Some 1%nat) (plainTable "t" "44" [0%nat; 1%nat] [])
                   (mkColumnArg 0 None (Some 1%nat) ddlTestAddDropColumnStrategyAtEnd None)
                   (mkColumn "g" false "0" [] 0 (Some 0%nat) [] false)
                   (mkColumn "g" false "0" [] 0 (Some 0%nat) [] false)
                   (mkColumn "a" false "0" [] 0 None [1%nat] false)
                   [Some 0%nat] [] _ _ _ _ _ _ _ _ _ _ _ _ _ _)
            [] [] 1%nat (mkColumn "g" false "0" [] 0 (Some 0%nat) [] false) _ _ _ _).
  - reflexivity.
  - reflexivity.
  - reflexivity.
  - reflexivity.
  - reflexivity.
  - reflexivity.
  - simpl. lia.
  - reflexivity.
  - repeat constructor. exists (mkColumn "a" false "0" [] 0 None [1%nat] false).
    split; [reflexivity|]. discriminate.
  - reflexivity.
  - reflexivity.
  - reflexivity.
  - reflexivity.
  - reflexivity.
  - reflexivity.
  - constructor.
  - reflexivity.
  - reflexivity.
Defined.

(** [truncateTableJob_empties] on [indexedColumnCase]. *)
Lemma truncateTableJob_empties_witness :
  exists c' : testCase,
    truncateTableJob indexedColumnCase truncateTask = Ret (c', None) /\
    hTables c' = <[0%nat := withNumberOfRows 0 (plainTable "t" "44" [0%nat; 1%nat] [0%nat])]>
                   (hTables indexedColumnCase) /\
    hIndexes c' = hIndexes indexedColumnCase /\ tables c' = tables indexedColumnCase /\
    (forall cp, Some cp ∉ [Some 0%nat; Some 1%nat] ->
       hColumns c' !! cp = hColumns indexedColumnCase !! cp) /\
    (forall cp col, hColumns indexedColumnCase !! cp = Some col ->
       hColumns c' !! cp = Some col \/ hColumns c' !! cp = Some (withRows [] col)).
Proof.
  apply (truncateTableJob_empties indexedColumnCase truncateTask 0%nat
           (plainTable "t" "44" [0%nat; 1%nat] [0%nat])).
  - reflexivity.
  - reflexivity.
  - reflexivity.
  - repeat constructor; eexists; reflexivity.
Defined.

(** [prepareDropIndex_emits] on [indexedColumnCase]: one task, for
    [ix]. *)
Lemma prepareDropIndex_emits_witness :
  @None error = None /\
  ((dropIndexPrepared = indexedColumnCase /\ [0%nat] = []) \/
   exists (a tp ip : ptr) (table : ddlTestTable) (task : ddlJobTask),
     hTasks indexedColumnCase !! a = None /\
     dropIndexPrepared = putTask a task indexedColumnCase /\ [0%nat] = [] ++ [a] /\
     pickupRandomTable indexedColumnCase 0 = Some tp /\
     hTables indexedColumnCase !! tp = Some table /\
     task_k task = ddlDropIndex /\ tblInfo task = Some tp /\
     arg task = ArgIndex (mkIndexArg (Some ip)) /\ ip ∈ indexes table /\
     (Forall (fun p => is_Some (hIndexes indexedColumnCase !! p)) (indexes table) ->
      forall c'' name1 name2,
        dropIndexJob dropIndexPrepared task <>
          Ret (c'', Some (Errorf "table %s , index %s is not exists"
                            [FStr name1; FStr name2])))).
Proof.
  apply (prepareDropIndex_emits 0 0 indexedColumnCase dropIndexPrepared [] [0%nat] None).
  vm_compute. reflexivity.
Defined.

(** [prepareRenameIndex_emits] on [indexedColumnCase]: one task, for
    the index at position zero. *)
Lemma prepareRenameIndex_emits_witness :
  @None error = None /\
  ((renameIndexPrepared = indexedColumnCase /\ [0%nat] = []) \/
   exists (a tp ip : ptr) (table : ddlTestTable) (ix : ddlTestIndex) (task : ddlJobTask)
          (loc : Z),
     hTasks indexedColumnCase !! a = None /\
     renameIndexPrepared = putTask a task indexedColumnCase /\ [0%nat] = [] ++ [a] /\
     pickupRandomTable indexedColumnCase 0 = Some tp /\
     hTables indexedColumnCase !! tp = Some table /\
     task_k task = ddlRenameIndex /\ tblInfo task = Some tp /\
     arg task = ArgRenameIndex (mkRenameIndexArg loc "ix2") /\
     0 <= loc < Go.len (indexes table) /\ indexes table !! Z.to_nat loc = Some ip /\
     hIndexes indexedColumnCase !! ip = Some ix /\
     (isTableDeleted renameIndexPrepared tp = false ->
      isIndexDeleted renameIndexPrepared ip tp = false ->
      renameIndexJob renameIndexPrepared task =
        Ret (putIndex ip (withIndexName "ix2" ix) renameIndexPrepared, None))).
Proof.
  apply (prepareRenameIndex_emits 0 0 "ix2" indexedColumnCase renameIndexPrepared [] [0%nat]
           None).
  vm_compute. reflexivity.
Defined.

(** [prepareShardRowID_emits] on [indexedColumnCase]: the draw [12]
    gives five bits. *)
Lemma prepareShardRowID_emits_witness :
  @None error = None /\
  ((shardRowIDPrepared = indexedColumnCase /\ [0%nat] = [] /\
    pickupRandomTable indexedColumnCase 0 = None) \/
   exists (a tp : ptr) (table : ddlTestTable) (task : ddlJobTask) (bits : Z),
     hTasks indexedColumnCase !! a = None /\
     shardRowIDPrepared = putTask a task indexedColumnCase /\ [0%nat] = [] ++ [a] /\
     pickupRandomTable indexedColumnCase 0 = Some tp /\
     hTables indexedColumnCase !! tp = Some table /\
     task_k task = ddlShardRowID /\ tblInfo task = Some tp /\
     arg task = ArgInt bits /\ 0 <= bits < MaxShardRowIDBits /\
     (isTableDeleted shardRowIDPrepared tp = false ->
      shardRowIDJob shardRowIDPrepared task =
        Ret (putTable tp (withShardRowId bits table) shardRowIDPrepared, None))).
Proof.
  apply (prepareShardRowID_emits 0 12 indexedColumnCase shardRowIDPrepared [] [0%nat] None).
  vm_compute. reflexivity.
Defined.

(** ** The name maps of schemas and tables *)

Section NameMaps.
Context `{External}.

(** X19.  [dropSchemaJob] refuses a schema that the catalog reports as
    deleted and returns the state as it was.  A schema created and then
    dropped, while the catalog reports it as live, leaves its name
    unlisted, whatever the name pointed to before; when the name was not
    listed before, the state is exactly the one before the creation. *)
Theorem create_then_drop_schema (c : testCase) (createTask dropTask : ddlJobTask) (sp : ptr)
    (schema : ddlTestSchema) :
  schemaInfo createTask = Some sp ->
  schemaInfo dropTask = Some sp ->
  hSchemas c !! sp = Some schema ->
  (isSchemaDeleted c sp = true ->
   dropSchemaJob c dropTask =
     Ret (c, Some (Errorf "schema %s doesn't exist" [FStr (sch_name schema)]))) /\
  (isSchemaDeleted (set_schemas (<[sch_name schema := sp]> (schemas c)) c) sp = false ->
   exists c1 : testCase,
     createSchemaJob c createTask = Ret (c1, None) /\
     schemas c1 !! sch_name schema = Some sp /\
     dropSchemaJob c1 dropTask =
       Ret (set_schemas (delete (sch_name schema) (schemas c)) c, None) /\
     (schemas c !! sch_name schema = None -> dropSchemaJob c1 dropTask = Ret (c, None))).
Proof.
  intros Hc Hd Hs. split.
  - intros Hdel. unfold dropSchemaJob. rewrite Hd, (deref_some _ _ _ Hs). run_step.
    rewrite Hdel. reflexivity.
  - intros Hlive. exists (set_schemas (<[sch_name schema := sp]> (schemas c)) c).
    assert (Hdrop : dropSchemaJob (set_schemas (<[sch_name schema := sp]> (schemas c)) c)
                      dropTask
                    = Ret (set_schemas (delete (sch_name schema) (schemas c)) c, None)).
    { unfold dropSchemaJob. rewrite Hd. store_simpl. rewrite (deref_some _ _ _ Hs). run_step.
      rewrite Hlive. store_simpl. rewrite delete_insert_eq. destruct c; reflexivity. }
    split; [|split; [|split]].
    + unfold createSchemaJob. rewrite Hc, (deref_some _ _ _ Hs). reflexivity.
    + store_simpl. apply lookup_insert_eq.
    + exact Hdrop.
    + intros Hfresh. rewrite Hdrop. rewrite delete_id by exact Hfresh.
      destruct c; reflexivity.
Qed.

(** X20.  [renameTableJob] on a live table moves the entry of the name
    map: the new name leads to the object of the task's argument, the
    old name is no longer listed unless it is the new name, every other
    name is as it was, and the table objects are not touched.  A table
    that was listed under the new name is therefore no longer reachable
    by name. *)
Theorem renameTableJob_moves_name (c : testCase) (task : ddlJobTask) (tp np : ptr)
    (table newTbl : ddlTestTable) :
  tblInfo task = Some tp ->
  hTables c !! tp = Some table ->
  isTableDeleted c tp = false ->
  arg task = ArgTable np ->
  hTables c !! np = Some newTbl ->
  exists c' : testCase,
    renameTableJob c task = Ret (c', None) /\
    tables c' !! tbl_name newTbl = Some np /\
    (tbl_name table <> tbl_name newTbl -> tables c' !! tbl_name table = None) /\
    (forall name : string, name <> tbl_name table -> name <> tbl_name newTbl ->
       tables c' !! name = tables c !! name) /\
    hTables c' = hTables c /\ sameBookkeeping c c'.
Proof.
  intros Ht Htb Hlive Harg Hnew.
  exists (set_tables (<[tbl_name newTbl := np]> (delete (tbl_name table) (tables c))) c).
  split; [|split; [|split; [|split; [|split]]]].
  - unfold renameTableJob. rewrite Ht, (deref_some _ _ _ Htb). run_step. rewrite Hlive.
    rewrite Harg. cbn [asTable]. run_step. store_simpl. rewrite (deref_some _ _ _ Hnew).
    run_step. destruct c; reflexivity.
  - store_simpl. apply lookup_insert_eq.
  - intros Hne. store_simpl. rewrite lookup_insert_ne by congruence. apply lookup_delete_eq.
  - intros name Hn1 Hn2. store_simpl. rewrite lookup_insert_ne by congruence.
    apply lookup_delete_ne. congruence.
  - reflexivity.
  - repeat split.
Qed.

End NameMaps.

(** [create_then_drop_schema] on the schema of [rejectedSchemaCase],
    whose name the catalog does not list. *)
Lemma create_then_drop_schema_witness :
  exists c1 : testCase,
    createSchemaJob rejectedSchemaCase createS1Task = Ret (c1, None) /\
    schemas c1 !! "s1" = Some 0%nat /\
    dropSchemaJob c1 dropS1Task =
      Ret (set_schemas (delete "s1" (schemas rejectedSchemaCase)) rejectedSchemaCase, None) /\
    (schemas rejectedSchemaCase !! "s1" = None ->
     dropSchemaJob c1 dropS1Task = Ret (rejectedSchemaCase, None)).
Proof.
  refine (proj2 (create_then_drop_schema rejectedSchemaCase createS1Task dropS1Task 0%nat
                   (mkSchema "s1" false "utf8" "utf8_bin" "") _ _ _) _).
  - reflexivity.
  - reflexivity.
  - reflexivity.
  - vm_compute. reflexivity.
Defined.

(** [renameTableJob_moves_name] on [renameCase]: [t1] becomes [t9]. *)
Lemma renameTableJob_moves_name_witness :
  exists c' : testCase,
    renameTableJob renameCase renameTask = Ret (c', None) /\
    tables c' !! "t9" = Some 1%nat /\
    ("t1" <> "t9" -> tables c' !! "t1" = None) /\
    (forall name : string, name <> "t1" -> name <> "t9" ->
       tables c' !! name = tables renameCase !! name) /\
    hTables c' = hTables renameCase /\ sameBookkeeping renameCase c'.
Proof.
  apply (renameTableJob_moves_name renameCase renameTask 0%nat 1%nat
           (plainTable "t1" "44" [] []) (plainTable "t9" "44" [] [])).
  - reflexivity.
  - reflexivity.
  - reflexivity.
  - reflexivity.
  - reflexivity.
Defined.

(** ** The tasks that the order oracle returns *)

Lemma matchTasks_from (job : ddlJob) (batch tasks : list ptr) :
  forall (c c' : testCase) (st st' : list ptr),
  matchTasks job c st tasks = Ret (c', st') ->
  (forall tp, tp ∈ tasks -> tp ∈ batch) ->
  Forall (fun tp => tp ∈ batch) st -> Forall (fun tp => tp ∈ batch) st'.
Proof.
  induction tasks as [|tp rest IH]; intros c c' st st' Hm Hsub HF; cbn [matchTasks] in Hm.
  - inversion Hm; subst. exact HF.
  - apply bind_Ret in Hm as ([[c1 st1] brk] & Hstep & Hm).
    assert (HF1 : Forall (fun tq => tq ∈ batch) st1).
    { apply matchTask_effect in Hstep as [_ [[-> _]|(task & _ & _ & ->)]]; [exact HF|].
      apply Forall_app; split; [exact HF|]. constructor; [|constructor].
      apply Hsub. apply list_elem_of_here. }
    destruct brk.
    + inversion Hm; subst. exact HF1.
    + eapply IH; [exact Hm| |exact HF1].
      intros tq Hq. apply Hsub. apply list_elem_of_further. exact Hq.
Qed.

Lemma matchJobs_from (tasks : list ptr) (jobs : list ddlJob) :
  forall (c c' : testCase) (st st' : list ptr),
  matchJobs jobs tasks c st = Ret (c', st') ->
  Forall (fun tp => tp ∈ tasks) st -> Forall (fun tp => tp ∈ tasks) st'.
Proof.
  induction jobs as [|job rest IH]; intros c c' st st' Hm HF; cbn [matchJobs] in Hm.
  - inversion Hm; subst. exact HF.
  - apply bind_Ret in Hm as ([c1 st1] & Hstep & Hm).
    apply (matchTasks_from job tasks) in Hstep; [|auto|exact HF].
    destruct (Go.len st1 =? Go.len tasks).
    + inversion Hm; subst. exact Hstep.
    + eapply IH; eauto.
Qed.

(** X21.  When [getSortTask] succeeds, whatever the kinds of the tasks,
    it returns as many tasks as the batch holds and each of them is a
    task of the batch. *)
Theorem getSortTask_returns_batch_tasks (c c' : testCase) (db : DB)
    (tasks sorted : list ptr) :
  getSortTask c db tasks = Ret (c', sorted, None) ->
  length sorted = length tasks /\ Forall (fun tp => tp ∈ tasks) sorted.
Proof.
  unfold getSortTask. intros Hg.
  apply bind_Ret in Hg as ([jobs e] & _ & Hg).
  destruct e as [e|]; [inversion Hg|].
  apply bind_Ret in Hg as ([c1 st] & Hmatch & Hg).
  apply matchJobs_from in Hmatch; [|constructor].
  destruct (Go.len st =? Go.len tasks) eqn:Hlen; cbn [negb] in Hg.
  2: { apply bind_Ret in Hg as (str & _ & Hg). inversion Hg. }
  apply Z.eqb_eq in Hlen. unfold Go.len in Hlen.
  destruct (Sort_spec (ddlIDOf c1) st) as [Hperm _].
  assert (Hsorted : sorted = Go.Sort (ddlIDOf c1) st).
  { destruct (last (Go.Sort (ddlIDOf c1) st)); inversion Hg; reflexivity. }
  subst sorted. split.
  - rewrite Hperm. lia.
  - rewrite Hperm. exact Hmatch.
Qed.

(** [getSortTask_returns_batch_tasks] on the two truncate-table tasks of
    [twoTablesCase]. *)
Lemma getSortTask_returns_batch_tasks_witness :
  length [0%nat; 1%nat] = length [0%nat; 1%nat] /\
  Forall (fun tp => tp ∈ [0%nat; 1%nat]) [0%nat; 1%nat].
Proof.
  apply (getSortTask_returns_batch_tasks twoTablesCase sortedCase historyDB).
  vm_compute. reflexivity.
Defined.

(** ** A drop-index that fails half-way *)

Section HalfDrop.
Context `{External}.

(** The decrement loop stops at the first member without reference:
    the members before it have given one reference, that member's
    counter has become negative, and the members after it are as they
    were. *)
Lemma decrementReferences_stops (cp : ptr) (col : ddlTestColumn) (l2 : list ptr)
    (l1 : list ptr) :
  forall c : testCase,
  NoDup (l1 ++ cp :: l2) ->
  Forall (fun cq => exists cl, hColumns c !! cq = Some cl /\
                               1 <= indexReferences cl <= Go.max_int) l1 ->
  hColumns c !! cp = Some col ->
  Go.min_int < indexReferences col <= 0 ->
  exists h' : gmap nat ddlTestColumn,
    decrementReferences c (l1 ++ cp :: l2) =
      Ret (set_hColumns h' c,
           Some (Errorf "drop index, index.column %s Unexpected index reference"
                   [FStr (col_name col)])) /\
    (forall cq cl, cq ∈ l1 -> hColumns c !! cq = Some cl ->
       h' !! cq = Some (withIndexReferences (indexReferences cl - 1) cl)) /\
    h' !! cp = Some (withIndexReferences (indexReferences col - 1) col) /\
    (forall cq, cq ∉ l1 -> cq <> cp -> h' !! cq = hColumns c !! cq).
Proof.
  induction l1 as [|a l1 IH]; intros c Hnd HF Hcol Hrange.
  - cbn [app decrementReferences]. rewrite (deref_some _ _ _ Hcol). run_step.
    assert (Hsub : Go.sub (indexReferences col) 1 = indexReferences col - 1).
    { unfold Go.sub. apply wrap_id. unfold Go.min_int, Go.max_int in *. lia. }
    rewrite Hsub.
    destruct (indexReferences col - 1 <? 0) eqn:E; [|apply Z.ltb_ge in E; lia].
    exists (<[cp := withIndexReferences (indexReferences col - 1) col]> (hColumns c)).
    split; [destruct c; reflexivity|]. split; [intros cq cl Hq; inversion Hq|].
    split; [apply lookup_insert_eq|].
    intros cq _ Hne. apply lookup_insert_ne. congruence.
  - cbn [app] in Hnd. apply NoDup_cons in Hnd as [Hnotin Hnd].
    apply Forall_cons in HF as [[cl [Hcl Hr]] HF].
    assert (Hacp : a <> cp).
    { intros ->. apply Hnotin. apply elem_of_app. right. apply list_elem_of_here. }
    assert (Hal1 : a ∉ l1).
    { intros Ha. apply Hnotin. apply elem_of_app. left. exact Ha. }
    cbn [app decrementReferences]. rewrite (deref_some _ _ _ Hcl). run_step.
    assert (Hsub : Go.sub (indexReferences cl) 1 = indexReferences cl - 1).
    { unfold Go.sub. apply wrap_id. unfold Go.min_int, Go.max_int in *. lia. }
    rewrite Hsub.
    destruct (indexReferences cl - 1 <? 0) eqn:E; [apply Z.ltb_lt in E; lia|].
    set (c1 := putColumn a (withIndexReferences (indexReferences cl - 1) cl) c).
    destruct (IH c1 Hnd) as (h' & Hrun & Hin & Hat & Hout).
    { apply Forall_forall. intros cq Hq. rewrite Forall_forall in HF.
      destruct (HF cq Hq) as [cm [Hcm Hrm]]. exists cm. split; [|exact Hrm].
      subst c1. store_simpl. rewrite lookup_insert_ne; [exact Hcm|]. intros ->. contradiction. }
    { subst c1. store_simpl. rewrite lookup_insert_ne by exact Hacp. exact Hcol. }
    { exact Hrange. }
    exists h'. split; [rewrite Hrun; destruct c; reflexivity|]. split; [|split].
    + intros cq cm Hq Hcm. apply elem_of_cons in Hq as [->|Hq].
      * rewrite Hout by assumption. subst c1. store_simpl.
        rewrite lookup_insert_eq. congruence.
      * apply Hin; [exact Hq|]. subst c1. store_simpl.
        rewrite lookup_insert_ne; [exact Hcm|]. intros ->. contradiction.
    + exact Hat.
    + intros cq Hq Hne. rewrite not_elem_of_cons in Hq. destruct Hq as [Hqa Hq].
      rewrite Hout by assumption. subst c1. store_simpl.
      apply lookup_insert_ne. congruence.
Qed.

(** X22.  A drop-index that fails on a counter is not undone.  On a
    live table that lists the index, when the members of the index are
    distinct, those before some member [cp] are referred to and [cp] is
    not, the applier returns the error on the unexpected index reference
    of [cp], the index stays in the index list, and yet the members
    before [cp] have lost one reference and the counter of [cp] has
    become negative; no other column is touched. *)
Theorem dropIndexJob_fails_half_way (c : testCase) (task : ddlJobTask) (tp ip jp cp : ptr)
    (table : ddlTestTable) (ix jx : ddlTestIndex) (i1 i2 l1 l2 : list ptr)
    (col : ddlTestColumn) :
  tblInfo task = Some tp ->
  hTables c !! tp = Some table ->
  isTableDeleted c tp = false ->
  arg task = ArgIndex (mkIndexArg (Some ip)) ->
  hIndexes c !! ip = Some ix ->
  indexes table = i1 ++ jp :: i2 ->
  hIndexes c !! jp = Some jx ->
  idx_name jx = idx_name ix ->
  Forall (fun p => exists x, hIndexes c !! p = Some x /\ idx_name x <> idx_name ix) i1 ->
  idx_columns ix = l1 ++ cp :: l2 ->
  NoDup (idx_columns ix) ->
  Forall (fun cq => exists cl, hColumns c !! cq = Some cl /\
                               1 <= indexReferences cl <= Go.max_int) l1 ->
  hColumns c !! cp = Some col ->
  Go.min_int < indexReferences col <= 0 ->
  exists h' : gmap nat ddlTestColumn,
    dropIndexJob c task =
      Ret (set_hColumns h' c,
           Some (Errorf "drop index, index.column %s Unexpected index reference"
                   [FStr (col_name col)])) /\
    (forall cq cl, cq ∈ l1 -> hColumns c !! cq = Some cl ->
       h' !! cq = Some (withIndexReferences (indexReferences cl - 1) cl)) /\
    h' !! cp = Some (withIndexReferences (indexReferences col - 1) col) /\
    (forall cq, cq ∉ l1 -> cq <> cp -> h' !! cq = hColumns c !! cq).
Proof.
  intros Ht Htb Hlive Harg Hix Hidx Hjx Hname Hi1 Hcols Hnd HF Hcol Hrange.
  rewrite Hcols in Hnd.
  destruct (decrementReferences_stops cp col l2 l1 c Hnd HF Hcol Hrange)
    as (h' & Hrun & Hin & Hat & Hout).
  exists h'. split; [|split; [exact Hin|split; [exact Hat|exact Hout]]].
  unfold dropIndexJob. rewrite Ht, (deref_some _ _ _ Htb). run_step. rewrite Hlive.
  rewrite Harg. cbn [asIndex]. run_step.
  change (index {| index := Some ip |}) with (Some ip).
  rewrite (deref_some _ _ _ Hix). run_step. rewrite Hidx.
  rewrite (findFirst_first (hIndexes c) _ i1 i2 jp jx 0 (-1)).
  - run_step. pose proof (len_nonneg i1) as Hpos.
    destruct (0 + Go.len i1 =? -1) eqn:E; [apply Z.eqb_eq in E; lia|].
    rewrite Hcols, Hrun. reflexivity.
  - eapply Forall_impl; [exact Hi1|]. intros p (x & Hx & Hne). exists x.
    split; [exact Hx|]. apply String.eqb_neq. congruence.
  - exact Hjx.
  - apply String.eqb_eq. congruence.
Qed.

End HalfDrop.

(** [dropIndexJob_fails_half_way] on [staleCounterCase]: the drop of
    [ix(a, b)] fails on [b] after it has taken the reference of [a]. *)
Lemma dropIndexJob_fails_half_way_witness :
  exists h' : gmap nat ddlTestColumn,
    dropIndexJob staleCounterCase dropIxTask =
      Ret (set_hColumns h' staleCounterCase,
           Some (Errorf "drop index, index.column %s Unexpected index reference"
                   [FStr "b"])) /\
    (forall cq cl, cq ∈ [0%nat] -> hColumns staleCounterCase !! cq = Some cl ->
       h' !! cq = Some (withIndexReferences (indexReferences cl - 1) cl)) /\
    h' !! 1%nat = Some (withIndexReferences (0 - 1) (plainColumn "b" 0)) /\
    (forall cq, cq ∉ [0%nat] -> cq <> 1%nat -> h' !! cq = hColumns staleCounterCase !! cq).
Proof.
  apply (dropIndexJob_fails_half_way staleCounterCase dropIxTask 0%nat 0%nat 0%nat 1%nat
           (plainTable "t" "44" [0%nat; 1%nat] [0%nat])
           (mkIndex "ix" "a,b," [0%nat; 1%nat]) (mkIndex "ix" "a,b," [0%nat; 1%nat])
           [] [] [0%nat] [] (plainColumn "b" 0)).
  - reflexivity.
  - reflexivity.
  - reflexivity.
  - reflexivity.
  - reflexivity.
  - reflexivity.
  - reflexivity.
  - reflexivity.
  - constructor.
  - reflexivity.
  - apply (bool_decide_unpack _). vm_compute. reflexivity.
  - repeat constructor. exists (plainColumn "a" 1). split; [reflexivity|].
    unfold Go.max_int. simpl. lia.
  - reflexivity.
  - unfold Go.min_int. simpl. lia.
Defined.

(** ** Truncate and comment, from the preparer to the applier *)

Section TablePreparerProperties.
Context `{External}.

(** X23.  [prepareTruncateTable] never returns an error.  It emits
    nothing when no table is drawn; otherwise it emits one new
    truncate-table task for the drawn table.  Run on the state the
    preparer returns, while the table is reported as live and its
    columns exist, the applier succeeds and leaves the table, under its
    name and with its column list, without any row. *)
Theorem prepareTruncateTable_emits (r0 : Z) (c c' : testCase) (taskCh ch' : list ptr)
    (e : option error) :
  prepareTruncateTable r0 c taskCh = Ret (c', ch', e) ->
  e = None /\
  ((c' = c /\ ch' = taskCh /\ pickupRandomTable c r0 = None) \/
   exists (a tp : ptr) (table : ddlTestTable) (task : ddlJobTask),
     hTasks c !! a = None /\ c' = putTask a task c /\ ch' = taskCh ++ [a] /\
     pickupRandomTable c r0 = Some tp /\ hTables c !! tp = Some table /\
     task_k task = ddlTruncateTable /\ tblInfo task = Some tp /\
     (isTableDeleted c' tp = false ->
      Forall (fun p => is_Some (columnAt c p)) (columns table) ->
      exists c2 : testCase,
        truncateTableJob c' task = Ret (c2, None) /\
        hTables c2 !! tp = Some (withNumberOfRows 0 table) /\ tables c2 = tables c)).
Proof.
  unfold prepareTruncateTable. intros Hp.
  destruct (pickupRandomTable c r0) as [tp|] eqn:Hpick.
  2: { inversion Hp; subst. auto. }
  apply bind_Ret in Hp as ([tp' table] & Hd & Hp).
  apply deref_Ret in Hd as [Htp Htb]. inversion Htp; subst tp'; clear Htp.
  destruct (emit _ c taskCh) as [c1 ch1] eqn:Hemit.
  apply emit_fresh in Hemit as (a & Hfresh & -> & ->).
  inversion Hp; subst; clear Hp. split; [reflexivity|]. right.
  eexists a, tp, table, _. split; [exact Hfresh|]. split; [reflexivity|].
  split; [reflexivity|]. split; [reflexivity|]. split; [exact Htb|].
  split; [reflexivity|]. split; [reflexivity|].
  intros Hlive Hall.
  set (task := mkTask 0 ddlTruncateTable (Some tp) None None
                 ("TRUNCATE TABLE `" +:+ tbl_name table +:+ "`") ArgNil None) in *.
  destruct (truncate_loop (columns table)
              (putTable tp (withNumberOfRows 0 table) (putTask a task c)) Hall)
    as (c2 & Hrun & Htabs & _ & Hnames & _).
  exists c2. split; [|split].
  - unfold truncateTableJob. change (tblInfo task) with (Some tp).
    change (hTables (putTask a task c)) with (hTables c).
    rewrite (deref_some _ _ _ Htb). run_step. rewrite Hlive. rewrite Hrun. reflexivity.
  - rewrite Htabs. store_simpl. apply lookup_insert_eq.
  - rewrite Hnames. reflexivity.
Qed.

(** X24.  [prepareModifyTableComment] never returns an error.  It emits
    nothing when no table is drawn; otherwise it emits one new task that
    carries the new comment.  Run on the state the preparer returns,
    while the table is reported as live, the applier writes that comment
    on the table and changes nothing else. *)
Theorem prepareModifyTableComment_emits (r0 : Z) (newComm : string) (c c' : testCase)
    (taskCh ch' : list ptr) (e : option error) :
  prepareModifyTableComment r0 newComm c taskCh = Ret (c', ch', e) ->
  e = None /\
  ((c' = c /\ ch' = taskCh /\ pickupRandomTable c r0 = None) \/
   exists (a tp : ptr) (table : ddlTestTable) (task : ddlJobTask),
     hTasks c !! a = None /\ c' = putTask a task c /\ ch' = taskCh ++ [a] /\
     pickupRandomTable c r0 = Some tp /\ hTables c !! tp = Some table /\
     task_k task = ddlModifyTableComment /\ tblInfo task = Some tp /\
     arg task = ArgString newComm /\
     (isTableDeleted c' tp = false ->
      modifyTableCommentJob c' task = Ret (putTable tp (withComment newComm table) c', None))).
Proof.
  unfold prepareModifyTableComment. intros Hp.
  destruct (pickupRandomTable c r0) as [tp|] eqn:Hpick.
  2: { inversion Hp; subst. auto. }
  apply bind_Ret in Hp as ([tp' table] & Hd & Hp).
  apply deref_Ret in Hd as [Htp Htb]. inversion Htp; subst tp'; clear Htp.
  destruct (emit _ c taskCh) as [c1 ch1] eqn:Hemit.
  apply emit_fresh in Hemit as (a & Hfresh & -> & ->).
  inversion Hp; subst; clear Hp. split; [reflexivity|]. right.
  eexists a, tp, table, _. split; [exact Hfresh|]. split; [reflexivity|].
  split; [reflexivity|]. split; [reflexivity|]. split; [exact Htb|].
  split; [reflexivity|]. split; [reflexivity|]. split; [reflexivity|].
  intros Hlive. unfold modifyTableCommentJob. cbn [tblInfo arg].
  change (hTables (putTask a _ c)) with (hTables c).
  rewrite (deref_some _ _ _ Htb). run_step. rewrite Hlive. reflexivity.
Qed.

End TablePreparerProperties.

(** [prepareTruncateTable_emits] on [indexedColumnCase]. *)
Lemma prepareTruncateTable_emits_witness :
  @None error = None /\
  ((truncatePrepared = indexedColumnCase /\ [0%nat] = [] /\
    pickupRandomTable indexedColumnCase 0 = None) \/
   exists (a tp : ptr) (table : ddlTestTable) (task : ddlJobTask),
     hTasks indexedColumnCase !! a = None /\
     truncatePrepared = putTask a task indexedColumnCase /\ [0%nat] = [] ++ [a] /\
     pickupRandomTable indexedColumnCase 0 = Some tp /\
     hTables indexedColumnCase !! tp = Some table /\
     task_k task = ddlTruncateTable /\ tblInfo task = Some tp /\
     (isTableDeleted truncatePrepared tp = false ->
      Forall (fun p => is_Some (columnAt indexedColumnCase p)) (columns table) ->
      exists c2 : testCase,
        truncateTableJob truncatePrepared task = Ret (c2, None) /\
        hTables c2 !! tp = Some (withNumberOfRows 0 table) /\
        tables c2 = tables indexedColumnCase)).
Proof.
  apply (prepareTruncateTable_emits 0 indexedColumnCase truncatePrepared [] [0%nat] None).
  vm_compute. reflexivity.
Defined.

(** [prepareModifyTableComment_emits] on [indexedColumnCase]. *)
Lemma prepareModifyTableComment_emits_witness :
  @None error = None /\
  ((commentPrepared = indexedColumnCase /\ [0%nat] = [] /\
    pickupRandomTable indexedColumnCase 0 = None) \/
   exists (a tp : ptr) (table : ddlTestTable) (task : ddlJobTask),
     hTasks indexedColumnCase !! a = None /\
     commentPrepared = putTask a task indexedColumnCase /\ [0%nat] = [] ++ [a] /\
     pickupRandomTable indexedColumnCase 0 = Some tp /\
     hTables indexedColumnCase !! tp = Some table /\
     task_k task = ddlModifyTableComment /\ tblInfo task = Some tp /\
     arg task = ArgString "nightly" /\
     (isTableDeleted commentPrepared tp = false ->
      modifyTableCommentJob commentPrepared task =
        Ret (putTable tp (withComment "nightly" table) commentPrepared, None))).
Proof.
  apply (prepareModifyTableComment_emits 0 "nightly" indexedColumnCase commentPrepared []
           [0%nat] None).
  vm_compute. reflexivity.
Defined.
